(** * Sentient-Splat-Slam: the splat rendering pipeline

    A shallow embedding of the viewer's rendering core:
    - [Scene.hpp]: [Gaussian3D], [GaussianInstanceGPU], [Scene];
    - [Renderer.cpp]: [Renderer::init], [Renderer::render_scene],
      [Renderer::create_shader_program] and the two GLSL stages;
    - [Shader.cpp]: [Shader::compile], [Shader::create_program];
    - [Buffers.cpp]: [VertexArray], [Buffer], [QuadMesh];
    - [SceneIO.cpp]: [SceneIO::load_scene_json].

    Conventions.  A C++ or GLSL [float] is idealised as a real number
    ([float := R]): rounding, infinities and NaN are not modelled.  The
    instance packer performs no arithmetic, so it is embedded over an
    arbitrary scalar type.  OpenGL, the GLSL compiler and the JSON library
    are external to the repository; the parts of their behaviour the code
    relies on are modelled next to the code that calls them. *)

From Stdlib Require Import Reals Lra ZArith Ascii String HexadecimalString.
From Stdlib Require DecimalString.
From stdpp Require Import gmap strings list.

Open Scope string_scope.
Open Scope list_scope.

(* ===================================================================== *)
(** * Part I: definitions                                                 *)
(* ===================================================================== *)

(** ** glm vector types *)

Module glm.

Record vec2 (F : Type) := Vec2 { x2 : F; y2 : F }.
Record vec3 (F : Type) := Vec3 { x3 : F; y3 : F; z3 : F }.
Record vec4 (F : Type) := Vec4 { x4 : F; y4 : F; z4 : F; w4 : F }.

(** [glm::quat] stores x, y, z, w; its constructor takes w first. *)
Record quat (F : Type) := Quat { qx : F; qy : F; qz : F; qw : F }.

(** [glm::mat4] is column major: [m[i]] is the i-th column. *)
Record mat4 (F : Type) := Mat4 { col0 : vec4 F; col1 : vec4 F; col2 : vec4 F; col3 : vec4 F }.

Arguments Vec2 {F}. Arguments x2 {F}. Arguments y2 {F}.
Arguments Vec3 {F}. Arguments x3 {F}. Arguments y3 {F}. Arguments z3 {F}.
Arguments Vec4 {F}. Arguments x4 {F}. Arguments y4 {F}. Arguments z4 {F}. Arguments w4 {F}.
Arguments Quat {F}. Arguments qx {F}. Arguments qy {F}. Arguments qz {F}. Arguments qw {F}.
Arguments Mat4 {F}. Arguments col0 {F}. Arguments col1 {F}. Arguments col2 {F}. Arguments col3 {F}.

(** [glm::quat(w, x, y, z)] *)
Definition mk_quat {F} (w x y z : F) : quat F := Quat x y z w.

(** [glm::vec4(v, w)] with [v] a [vec3] *)
Definition vec4_of {F} (v : vec3 F) (w : F) : vec4 F := Vec4 (x3 v) (y3 v) (z3 v) w.

(** the swizzles [.xyz] and [.xy] *)
Definition xyz {F} (v : vec4 F) : vec3 F := Vec3 (x4 v) (y4 v) (z4 v).
Definition xy {F} (v : vec4 F) : vec2 F := Vec2 (x4 v) (y4 v).

End glm.
Import glm.

(** ** Scene.hpp *)

Record Gaussian3D (F : Type) := mkGaussian3D {
  mean : vec3 F;
  scale : vec3 F;
  rotation : quat F;
  opacity : F;
  color : vec3 F
}.
Arguments mkGaussian3D {F}. Arguments mean {F}. Arguments scale {F}.
Arguments rotation {F}. Arguments opacity {F}. Arguments color {F}.

(** GPU-packed Gaussian instance data (64 bytes) *)
Record GaussianInstanceGPU (F : Type) := mkGaussianInstanceGPU {
  mean_opacity : vec4 F;   (* xyz = position, w = opacity *)
  quat : vec4 F;           (* xyzw quaternion *)
  scale_colorx : vec4 F;   (* xyz = scale, w = color.x *)
  coloryz_pad : vec4 F     (* xy = color.yz, zw = padding *)
}.
Arguments mkGaussianInstanceGPU {F}. Arguments mean_opacity {F}. Arguments quat {F}.
Arguments scale_colorx {F}. Arguments coloryz_pad {F}.

(** [Scene] owns a [std::vector<Gaussian3D>]. *)
Record Scene (F : Type) := mkScene { m_gaussians : list (Gaussian3D F) }.
Arguments mkScene {F}. Arguments m_gaussians {F}.

Section SceneContainer.
Context {F : Type}.

Definition get_gaussians (s : Scene F) : list (Gaussian3D F) := m_gaussians s.
Definition gaussian_count (s : Scene F) : nat := length (m_gaussians s).
Definition set_gaussians (_ : Scene F) (gaussians : list (Gaussian3D F)) : Scene F :=
  mkScene gaussians.
Definition add_gaussian (s : Scene F) (g : Gaussian3D F) : Scene F :=
  mkScene (m_gaussians s ++ [g]).
Definition clear (_ : Scene F) : Scene F := mkScene [].
End SceneContainer.

(** ** The GPU instance packer (the loop of [Renderer::render_scene]) *)

Section Packing.
Context {F : Type}.
(** the literal [0.f] *)
Variable zero : F.

(** The body of the [for (const auto& g : gaussians)] loop. *)
Definition pack_instance (g : Gaussian3D F) : GaussianInstanceGPU F :=
  {| mean_opacity := vec4_of (mean g) (opacity g);
     quat := Vec4 (qx (rotation g)) (qy (rotation g)) (qz (rotation g)) (qw (rotation g));
     scale_colorx := vec4_of (scale g) (x3 (color g));
     coloryz_pad := Vec4 (y3 (color g)) (z3 (color g)) zero zero |}.

(** The loop itself: [instanceData] starts empty and every iteration
    does one [push_back]. *)
Definition pack_instances (gaussians : list (Gaussian3D F)) : list (GaussianInstanceGPU F) :=
  fold_left (fun instanceData g => instanceData ++ [pack_instance g]) gaussians [].

(** The four 16-byte groups of a record, in declaration order. *)
Definition groups (inst : GaussianInstanceGPU F) : list (vec4 F) :=
  [mean_opacity inst; quat inst; scale_colorx inst; coloryz_pad inst].

Definition floats_of_vec4 (v : vec4 F) : list F := [x4 v; y4 v; z4 v; w4 v].

(** The 64 bytes of one record as sixteen 4-byte floats, and the bytes
    [data.data()] hands to [glBufferData]. *)
Definition floats_of_instance (inst : GaussianInstanceGPU F) : list F :=
  concat (map floats_of_vec4 (groups inst)).

Definition floats_of_instances (data : list (GaussianInstanceGPU F)) : list F :=
  concat (map floats_of_instance data).

(** Reading the layout back, as the field comments of
    [GaussianInstanceGPU] describe it. *)
Definition unpack_instance (inst : GaussianInstanceGPU F) : Gaussian3D F :=
  {| mean := xyz (mean_opacity inst);
     scale := xyz (scale_colorx inst);
     rotation := Quat (x4 (quat inst)) (y4 (quat inst)) (z4 (quat inst)) (w4 (quat inst));
     opacity := w4 (mean_opacity inst);
     color := Vec3 (w4 (scale_colorx inst)) (x4 (coloryz_pad inst)) (y4 (coloryz_pad inst)) |}.

(** A 4-component group read from sixteen-float records stored back to
    back: group [k] of record [i] starts at float [16 * i + 4 * k]. *)
Definition vec4_at (buf : list F) (start : nat) : option (vec4 F) :=
  match drop start buf with
  | a :: b :: c :: d :: _ => Some (Vec4 a b c d)
  | _ => None
  end.

Definition instance_at (buf : list F) (i : nat) : option (GaussianInstanceGPU F) :=
  m ← vec4_at buf (16 * i);
  q ← vec4_at buf (16 * i + 4);
  s ← vec4_at buf (16 * i + 8);
  c ← vec4_at buf (16 * i + 12);
  Some (mkGaussianInstanceGPU m q s c).

End Packing.

(** ** Outcomes of C++ code: a state and exception monad

    A call returns a value, throws, or has undefined behaviour (a null
    [unique_ptr] dereferenced, a [std::vector] indexed out of range). *)

Inductive exn :=
| runtime_error (what : string)     (* std::runtime_error *)
| json_parse_error                  (* nlohmann::json::parse_error *)
| json_type_error (id : nat).       (* nlohmann::json::type_error *)

Inductive Outcome (S A : Type) :=
| Ok (a : A) (s : S)
| Throw (e : exn) (s : S)
| Undefined.
Arguments Ok {S A}. Arguments Throw {S A}. Arguments Undefined {S A}.

Definition M (S A : Type) : Type := S -> Outcome S A.

#[global] Instance M_ret S : MRet (M S) := fun A a s => Ok a s.
#[global] Instance M_bind S : MBind (M S) := fun A B f m s =>
  match m s with
  | Ok a s' => f a s'
  | Throw e s' => Throw e s'
  | Undefined => Undefined
  end.

Definition throw {S A} (e : exn) : M S A := fun s => Throw e s.
Definition undefined {S A} : M S A := fun _ => Undefined.
Definition gets {S A} (f : S -> A) : M S A := fun s => Ok (f s) s.
Definition modify {S} (f : S -> S) : M S unit := fun s => Ok tt (f s).

(** [try { body } catch (const std::exception& e) { handler(e) }] *)
Definition try_catch {S A} (body : M S A) (handler : exn -> M S A) : M S A := fun s =>
  match body s with
  | Throw e s' => handler e s'
  | r => r
  end.

(** [wp m Q s]: run from [s], [m] returns normally, with a value and in a
    state that satisfy [Q]. *)
Definition wp {S A} (m : M S A) (Q : A -> S -> Prop) (s : S) : Prop :=
  match m s with
  | Ok a s' => Q a s'
  | Throw _ _ => False
  | Undefined => False
  end.

(** [throws m Q s]: run from [s], [m] throws, with an exception and in a
    state that satisfy [Q]. *)
Definition throws {S A} (m : M S A) (Q : exn -> S -> Prop) (s : S) : Prop :=
  match m s with
  | Throw e s' => Q e s'
  | Ok _ _ => False
  | Undefined => False
  end.

(** [e.what()]: the message of an exception.  The messages of the JSON
    library's exceptions are not modelled. *)
Definition what_of (e : exn) : string :=
  match e with
  | runtime_error msg => msg
  | json_parse_error => "[json.exception.parse_error]"
  | json_type_error _ => "[json.exception.type_error]"
  end.

(** ** Strings as C++ uses them *)

Definition NUL : ascii := Ascii.zero.

(** [std::string(n, c)] *)
Fixpoint string_fill (n : nat) (c : ascii) : string :=
  match n with
  | O => EmptyString
  | S n' => String c (string_fill n' c)
  end.

(** What [printf("%s", p)] prints: the characters before the first NUL. *)
Fixpoint c_str (s : string) : string :=
  match s with
  | EmptyString => EmptyString
  | String c s' => if Ascii.eqb c NUL then EmptyString else String c (c_str s')
  end.

(** No NUL inside [s]. *)
Fixpoint NUL_free (s : string) : Prop :=
  match s with
  | EmptyString => True
  | String c s' => c <> NUL /\ NUL_free s'
  end.

Definition string_take (n : nat) (s : string) : string := substring 0 n s.
Definition string_drop (n : nat) (s : string) : string := substring n (String.length s - n) s.

(** [printf("0x%x", n)] *)
Definition hex (n : N) : string := "0x" +:+ NilZero.string_of_uint (N.to_hex_uint n).

(** ** The OpenGL context (external; modelled)

    Only the state the repository's code reads or writes is modelled.  No
    call raises a GL error in the model: the error flag holds whatever was
    pending and [glGetError] returns and clears it.  Buffer data stores
    hold floats, four bytes each. *)

Definition float := R.
Definition GLuint := N.
Definition GLint := Z.
Definition GLenum := N.
Definition GL_NO_ERROR : GLenum := 0%N.

Inductive GLcap := GL_BLEND | GL_DEPTH_TEST.
Inductive GLfactor := GL_ZERO | GL_ONE | GL_ONE_MINUS_SRC_ALPHA.
Inductive GLshader := GL_VERTEX_SHADER | GL_FRAGMENT_SHADER.
Inductive GLtarget := GL_ARRAY_BUFFER.
Inductive GLusage := GL_STATIC_DRAW | GL_DYNAMIC_DRAW.
Inductive GLmode := GL_TRIANGLES.
Inductive GLpname := GL_COMPILE_STATUS | GL_LINK_STATUS | GL_INFO_LOG_LENGTH.

(** A uniform location is an opaque [GLint]; [None] stands for -1. *)
Definition UniformLocation := option string.

Record RenderState := mkRenderState {
  blend : bool;
  blend_src : GLfactor;
  blend_dst : GLfactor;
  depth_test : bool;
  depth_mask : bool
}.

Record Bindings := mkBindings {
  current_program : GLuint;
  vertex_array : GLuint;
  array_buffer : GLuint
}.

(** One generic vertex attribute of a vertex array object; stride and
    offset are in bytes. *)
Record VertexAttrib := mkVertexAttrib {
  va_enabled : bool;
  va_size : nat;
  va_stride : nat;
  va_offset : nat;
  va_divisor : nat;
  va_buffer : GLuint
}.
Definition default_attrib : VertexAttrib := mkVertexAttrib false 4 0 0 0 0%N.

Record ShaderObj := mkShaderObj {
  sh_type : GLshader;
  sh_source : string;
  sh_compile_status : bool;
  sh_info_log : string;
  sh_delete_status : bool
}.

Record ProgramObj := mkProgramObj {
  pr_attached : list GLuint;
  pr_link_status : bool;
  pr_info_log : string;
  pr_delete_status : bool;
  pr_uniforms : gmap string (mat4 float)
}.

Record GLState := mkGLState {
  gl_render : RenderState;
  gl_bind : Bindings;
  gl_buffers : gmap N (list float);
  gl_vertex_arrays : gmap N (gmap N VertexAttrib);
  gl_shaders : gmap N ShaderObj;
  gl_programs : gmap N ProgramObj;
  gl_error : GLenum
}.

(** The state of a fresh context. *)
Definition gl_initial : GLState :=
  mkGLState (mkRenderState false GL_ONE GL_ZERO false true) (mkBindings 0 0 0)%N ∅ ∅ ∅ ∅ GL_NO_ERROR.

Definition with_render (f : RenderState -> RenderState) (st : GLState) : GLState :=
  mkGLState (f (gl_render st)) (gl_bind st) (gl_buffers st) (gl_vertex_arrays st)
            (gl_shaders st) (gl_programs st) (gl_error st).
Definition with_bind (f : Bindings -> Bindings) (st : GLState) : GLState :=
  mkGLState (gl_render st) (f (gl_bind st)) (gl_buffers st) (gl_vertex_arrays st)
            (gl_shaders st) (gl_programs st) (gl_error st).
Definition with_buffers (f : gmap N (list float) -> gmap N (list float)) (st : GLState) : GLState :=
  mkGLState (gl_render st) (gl_bind st) (f (gl_buffers st)) (gl_vertex_arrays st)
            (gl_shaders st) (gl_programs st) (gl_error st).
Definition with_vertex_arrays (f : gmap N (gmap N VertexAttrib) -> gmap N (gmap N VertexAttrib))
    (st : GLState) : GLState :=
  mkGLState (gl_render st) (gl_bind st) (gl_buffers st) (f (gl_vertex_arrays st))
            (gl_shaders st) (gl_programs st) (gl_error st).
Definition with_shaders (f : gmap N ShaderObj -> gmap N ShaderObj) (st : GLState) : GLState :=
  mkGLState (gl_render st) (gl_bind st) (gl_buffers st) (gl_vertex_arrays st)
            (f (gl_shaders st)) (gl_programs st) (gl_error st).
Definition with_programs (f : gmap N ProgramObj -> gmap N ProgramObj) (st : GLState) : GLState :=
  mkGLState (gl_render st) (gl_bind st) (gl_buffers st) (gl_vertex_arrays st)
            (gl_shaders st) (f (gl_programs st)) (gl_error st).
Definition with_error (e : GLenum) (st : GLState) : GLState :=
  mkGLState (gl_render st) (gl_bind st) (gl_buffers st) (gl_vertex_arrays st)
            (gl_shaders st) (gl_programs st) e.

Definition set_cap (cap : GLcap) (b : bool) (r : RenderState) : RenderState :=
  match cap with
  | GL_BLEND => mkRenderState b (blend_src r) (blend_dst r) (depth_test r) (depth_mask r)
  | GL_DEPTH_TEST => mkRenderState (blend r) (blend_src r) (blend_dst r) b (depth_mask r)
  end.
Definition set_blend_func (s d : GLfactor) (r : RenderState) : RenderState :=
  mkRenderState (blend r) s d (depth_test r) (depth_mask r).
Definition set_depth_mask (b : bool) (r : RenderState) : RenderState :=
  mkRenderState (blend r) (blend_src r) (blend_dst r) (depth_test r) b.

Definition set_current_program (p : GLuint) (b : Bindings) : Bindings :=
  mkBindings p (vertex_array b) (array_buffer b).
Definition set_vertex_array (v : GLuint) (b : Bindings) : Bindings :=
  mkBindings (current_program b) v (array_buffer b).
Definition set_array_buffer (n : GLuint) (b : Bindings) : Bindings :=
  mkBindings (current_program b) (vertex_array b) n.

(** The attribute [i] of the bound vertex array object is changed by [f];
    with no such object the call is ignored. *)
Definition alter_attrib (i : N) (f : VertexAttrib -> VertexAttrib) (st : GLState) : GLState :=
  with_vertex_arrays
    (alter (fun attribs => <[i := f (default (default_attrib) (attribs !! i))]> attribs)
           (vertex_array (gl_bind st))) st.

(** Whether shader [s] is attached to some program object. *)
Definition attached_somewhere (progs : gmap N ProgramObj) (s : GLuint) : bool :=
  existsb (fun kv => bool_decide (s ∈ pr_attached (snd kv))) (map_to_list progs).

(** A program object goes away: the shaders it held that were flagged for
    deletion and are attached nowhere else go with it. *)
Definition remove_program (p : GLuint) (st : GLState) : GLState :=
  match gl_programs st !! p with
  | None => st
  | Some pr =>
      let progs := delete p (gl_programs st) in
      let gone s := match gl_shaders st !! s with
                    | Some sh => sh_delete_status sh && negb (attached_somewhere progs s)
                    | None => false
                    end in
      with_shaders (fun shs => foldr (fun s acc => if gone s then delete s acc else acc) shs (pr_attached pr))
        (with_programs (fun _ => progs) st)
  end.

(** [GL_INFO_LOG_LENGTH]: the length of the log including the terminating
    NUL, or 0 when there is no log. *)
Definition info_log_length (log : string) : Z :=
  if String.eqb log "" then 0%Z else Z.of_nat (String.length log + 1).

(** [glGet*InfoLog(obj, bufSize, nullptr, buf)]: at most [bufSize - 1]
    characters of the log and a NUL are written into [buf]. *)
Definition write_info_log (log : string) (bufSize : Z) (buf : string) : string :=
  if (bufSize <=? 0)%Z then buf
  else let k := Nat.min (Z.to_nat bufSize - 1) (String.length log) in
       string_take k log +:+ String NUL (string_drop (k + 1) buf).

(** The GLSL compiler and linker of the driver: for a shader's type and
    source, respectively for the attached shaders, whether it succeeds and
    the information log it leaves. *)
Class GLSL := {
  glsl_compile : GLshader -> string -> bool * string;
  glsl_link : list (GLshader * string) -> bool * string
}.

(** The GL entry points the repository calls, indexed by what they return.
    Out-parameters are modelled as results: [glGetShaderiv s pname v]
    returns the new value of a variable that held [v], and
    [glGetShaderInfoLog s n buf] the new contents of [buf]. *)
Inductive GLCall : Type -> Type :=
| glEnable : GLcap -> GLCall unit
| glDisable : GLcap -> GLCall unit
| glBlendFunc : GLfactor -> GLfactor -> GLCall unit
| glDepthMask : bool -> GLCall unit
| glUseProgram : GLuint -> GLCall unit
| glGetUniformLocation : GLuint -> string -> GLCall UniformLocation
| glUniformMatrix4fv : UniformLocation -> mat4 float -> GLCall unit
| glGenVertexArrays : GLCall GLuint
| glDeleteVertexArrays : GLuint -> GLCall unit
| glBindVertexArray : GLuint -> GLCall unit
| glGenBuffers : GLCall GLuint
| glDeleteBuffers : GLuint -> GLCall unit
| glBindBuffer : GLtarget -> GLuint -> GLCall unit
| glBufferData : GLtarget -> list float -> GLusage -> GLCall unit
| glEnableVertexAttribArray : N -> GLCall unit
  (* index, size, stride, offset; the type is GL_FLOAT, not normalized *)
| glVertexAttribPointer : N -> nat -> nat -> nat -> GLCall unit
| glVertexAttribDivisor : N -> nat -> GLCall unit
  (* mode, first, count, instancecount *)
| glDrawArraysInstanced : GLmode -> Z -> Z -> Z -> GLCall unit
| glGetError : GLCall GLenum
| glCreateShader : GLshader -> GLCall GLuint
| glShaderSource : GLuint -> string -> GLCall unit
| glCompileShader : GLuint -> GLCall unit
| glGetShaderiv : GLuint -> GLpname -> GLint -> GLCall GLint
| glGetShaderInfoLog : GLuint -> GLint -> string -> GLCall string
| glDeleteShader : GLuint -> GLCall unit
| glCreateProgram : GLCall GLuint
| glAttachShader : GLuint -> GLuint -> GLCall unit
| glLinkProgram : GLuint -> GLCall unit
| glGetProgramiv : GLuint -> GLpname -> GLint -> GLCall GLint
| glGetProgramInfoLog : GLuint -> GLint -> string -> GLCall string
| glDeleteProgram : GLuint -> GLCall unit.

Inductive GLEvent := gl_event : forall A, GLCall A -> GLEvent.
Arguments gl_event {A}.

Section Pipeline.
Context `{GLSL}.

Definition Z_of_bool (b : bool) : Z := if b then 1%Z else 0%Z.

(** The names shaders and programs share. *)
Definition fresh_object (st : GLState) : GLuint :=
  fresh ({[0%N]} ∪ dom (gl_shaders st) ∪ dom (gl_programs st) : gset N).

Definition attached_sources (st : GLState) (pr : ProgramObj) : list (GLshader * string) :=
  omap (fun s => sh ← gl_shaders st !! s; Some (sh_type sh, sh_source sh)) (pr_attached pr).

(** The effect of one call on the context, and its result. *)
Definition gl_step {A} (c : GLCall A) : GLState -> A * GLState :=
  match c in GLCall A return GLState -> A * GLState with
  | glEnable cap => fun st => (tt, with_render (set_cap cap true) st)
  | glDisable cap => fun st => (tt, with_render (set_cap cap false) st)
  | glBlendFunc s d => fun st => (tt, with_render (set_blend_func s d) st)
  | glDepthMask b => fun st => (tt, with_render (set_depth_mask b) st)
  | glUseProgram p => fun st =>
      let old := current_program (gl_bind st) in
      let st' := with_bind (set_current_program p) st in
      (tt, match gl_programs st !! old with
           | Some pr => if pr_delete_status pr && negb (N.eqb old p)
                        then remove_program old st' else st'
           | None => st'
           end)
  | glGetUniformLocation p name => fun st =>
      (match gl_programs st !! p with
       | Some pr => if pr_link_status pr then Some name else None
       | None => None
       end, st)
  | glUniformMatrix4fv loc m => fun st =>
      (tt, match loc with
           | Some name =>
               with_programs
                 (alter (fun pr => mkProgramObj (pr_attached pr) (pr_link_status pr) (pr_info_log pr)
                                     (pr_delete_status pr) (<[name := m]> (pr_uniforms pr)))
                        (current_program (gl_bind st))) st
           | None => st
           end)
  | glGenVertexArrays => fun st =>
      let n := fresh ({[0%N]} ∪ dom (gl_vertex_arrays st) : gset N) in
      (n, with_vertex_arrays (insert n ∅) st)
  | glDeleteVertexArrays v => fun st =>
      let st' := with_vertex_arrays (delete v) st in
      (tt, if N.eqb (vertex_array (gl_bind st)) v then with_bind (set_vertex_array 0%N) st' else st')
  | glBindVertexArray v => fun st => (tt, with_bind (set_vertex_array v) st)
  | glGenBuffers => fun st =>
      let n := fresh ({[0%N]} ∪ dom (gl_buffers st) : gset N) in
      (n, with_buffers (insert n []) st)
  | glDeleteBuffers b => fun st =>
      let st' := with_buffers (delete b) st in
      (tt, if N.eqb (array_buffer (gl_bind st)) b then with_bind (set_array_buffer 0%N) st' else st')
  | glBindBuffer GL_ARRAY_BUFFER b => fun st => (tt, with_bind (set_array_buffer b) st)
  | glBufferData GL_ARRAY_BUFFER data _ => fun st =>
      (tt, with_buffers (alter (fun _ => data) (array_buffer (gl_bind st))) st)
  | glEnableVertexAttribArray i => fun st =>
      (tt, alter_attrib i (fun a => mkVertexAttrib true (va_size a) (va_stride a) (va_offset a)
                                      (va_divisor a) (va_buffer a)) st)
  | glVertexAttribPointer i size stride offset => fun st =>
      (tt, alter_attrib i (fun a => mkVertexAttrib (va_enabled a) size stride offset
                                      (va_divisor a) (array_buffer (gl_bind st))) st)
  | glVertexAttribDivisor i d => fun st =>
      (tt, alter_attrib i (fun a => mkVertexAttrib (va_enabled a) (va_size a) (va_stride a)
                                      (va_offset a) d (va_buffer a)) st)
  | glDrawArraysInstanced _ _ _ _ => fun st => (tt, st)
  | glGetError => fun st => (gl_error st, with_error GL_NO_ERROR st)
  | glCreateShader ty => fun st =>
      let n := fresh_object st in
      (n, with_shaders (insert n (mkShaderObj ty "" false "" false)) st)
  | glShaderSource s src => fun st =>
      (tt, with_shaders (alter (fun sh => mkShaderObj (sh_type sh) src (sh_compile_status sh)
                                            (sh_info_log sh) (sh_delete_status sh)) s) st)
  | glCompileShader s => fun st =>
      (tt, with_shaders (alter (fun sh =>
                                  let r := glsl_compile (sh_type sh) (sh_source sh) in
                                  mkShaderObj (sh_type sh) (sh_source sh) (fst r) (snd r)
                                              (sh_delete_status sh)) s) st)
  | glGetShaderiv s pname v => fun st =>
      (match gl_shaders st !! s, pname with
       | Some sh, GL_COMPILE_STATUS => Z_of_bool (sh_compile_status sh)
       | Some sh, GL_INFO_LOG_LENGTH => info_log_length (sh_info_log sh)
       | _, _ => v
       end, st)
  | glGetShaderInfoLog s bufSize buf => fun st =>
      (match gl_shaders st !! s with
       | Some sh => write_info_log (sh_info_log sh) bufSize buf
       | None => buf
       end, st)
  | glDeleteShader s => fun st =>
      (tt, if attached_somewhere (gl_programs st) s
           then with_shaders (alter (fun sh => mkShaderObj (sh_type sh) (sh_source sh)
                                                 (sh_compile_status sh) (sh_info_log sh) true) s) st
           else with_shaders (delete s) st)
  | glCreateProgram => fun st =>
      let n := fresh_object st in
      (n, with_programs (insert n (mkProgramObj [] false "" false ∅)) st)
  | glAttachShader p s => fun st =>
      (tt, match gl_shaders st !! s with
           | Some _ =>
               with_programs
                 (alter (fun pr => mkProgramObj (pr_attached pr ++ [s]) (pr_link_status pr)
                                     (pr_info_log pr) (pr_delete_status pr) (pr_uniforms pr)) p) st
           | None => st
           end)
  | glLinkProgram p => fun st =>
      (tt, with_programs
             (alter (fun pr =>
                       let r := glsl_link (attached_sources st pr) in
                       mkProgramObj (pr_attached pr) (fst r) (snd r) (pr_delete_status pr)
                                    (pr_uniforms pr)) p) st)
  | glGetProgramiv p pname v => fun st =>
      (match gl_programs st !! p, pname with
       | Some pr, GL_LINK_STATUS => Z_of_bool (pr_link_status pr)
       | Some pr, GL_INFO_LOG_LENGTH => info_log_length (pr_info_log pr)
       | _, _ => v
       end, st)
  | glGetProgramInfoLog p bufSize buf => fun st =>
      (match gl_programs st !! p with
       | Some pr => write_info_log (pr_info_log pr) bufSize buf
       | None => buf
       end, st)
  | glDeleteProgram p => fun st =>
      (tt, if N.eqb (current_program (gl_bind st)) p
           then with_programs
                  (alter (fun pr => mkProgramObj (pr_attached pr) (pr_link_status pr)
                                      (pr_info_log pr) true (pr_uniforms pr)) p) st
           else remove_program p st)
  end.

(** ** The world the renderer runs in: the GL context, every GL call made
    so far, and what was printed to [stderr]. *)
Record World := mkWorld {
  gl : GLState;
  gl_trace : list GLEvent;
  stderr : list string
}.

(** A GL call from C++ code. *)
Definition call {A} (c : GLCall A) : M World A := fun w =>
  let r := gl_step c (gl w) in
  Ok (fst r) (mkWorld (snd r) (gl_trace w ++ [gl_event c]) (stderr w)).

(** [fprintf(stderr, ...)] with the formatted text. *)
Definition fprintf_stderr (text : string) : M World unit :=
  modify (fun w => mkWorld (gl w) (gl_trace w) (stderr w ++ [text])).

(** A range-based or counted [for] loop. *)
Fixpoint for_each {S A} (l : list A) (body : A -> M S unit) : M S unit :=
  match l with
  | [] => mret tt
  | a :: l' => body a ;; for_each l' body
  end.


(** ** Buffers.cpp *)

Definition sizeof_float : nat := 4.
Definition sizeof_vec4 : nat := 16.
(** [static_assert(sizeof(GaussianInstanceGPU) == 64)] *)
Definition sizeof_GaussianInstanceGPU : nat := 64.

Record VertexArray := mkVertexArray { VertexArray_m_vao : GLuint }.
Record Buffer := mkBuffer { Buffer_m_vbo : GLuint }.
Record QuadMesh := mkQuadMesh { m_vao : VertexArray; m_vbo : Buffer }.

(** [VertexArray::VertexArray()] and [~VertexArray()] *)
Definition VertexArray_new : M World VertexArray :=
  n ← call glGenVertexArrays; mret (mkVertexArray n).
Definition VertexArray_delete (v : VertexArray) : M World unit :=
  if negb (N.eqb (VertexArray_m_vao v) 0) then call (glDeleteVertexArrays (VertexArray_m_vao v))
  else mret tt.
Definition VertexArray_bind (v : VertexArray) : M World unit :=
  call (glBindVertexArray (VertexArray_m_vao v)).
Definition VertexArray_unbind (_ : VertexArray) : M World unit :=
  call (glBindVertexArray 0%N).
Definition VertexArray_handle (v : VertexArray) : GLuint := VertexArray_m_vao v.

(** [Buffer::Buffer()] and [~Buffer()] *)
Definition Buffer_new : M World Buffer :=
  n ← call glGenBuffers; mret (mkBuffer n).
Definition Buffer_delete (b : Buffer) : M World unit :=
  if negb (N.eqb (Buffer_m_vbo b) 0) then call (glDeleteBuffers (Buffer_m_vbo b))
  else mret tt.
Definition Buffer_bind (b : Buffer) (target : GLtarget) : M World unit :=
  call (glBindBuffer target (Buffer_m_vbo b)).
Definition Buffer_unbind (_ : Buffer) (target : GLtarget) : M World unit :=
  call (glBindBuffer target 0%N).
Definition Buffer_handle (b : Buffer) : GLuint := Buffer_m_vbo b.

(** [Buffer::set_data]: [data] stands for the [data.size() * sizeof(T)]
    bytes at [data.data()]. *)
Definition Buffer_set_data (b : Buffer) (target : GLtarget) (data : list float) (usage : GLusage)
    : M World unit :=
  Buffer_bind b target ;;
  call (glBufferData target data usage).

Definition quadVerts : list float :=
  [ -1; -1;    (* bottom-left *)
     1; -1;    (* bottom-right *)
     1;  1;    (* top-right *)
    -1; -1;    (* bottom-left (second triangle) *)
     1;  1;    (* top-right *)
    -1;  1 ]%R (* top-left *).

(** [QuadMesh::QuadMesh()] *)
Definition QuadMesh_new : M World QuadMesh :=
  vao ← VertexArray_new;
  vbo ← Buffer_new;
  VertexArray_bind vao ;;
  Buffer_set_data vbo GL_ARRAY_BUFFER quadVerts GL_STATIC_DRAW ;;
  call (glEnableVertexAttribArray 0) ;;
  call (glVertexAttribPointer 0 2 (2 * sizeof_float) 0) ;;
  VertexArray_unbind vao ;;
  mret (mkQuadMesh vao vbo).

(** [~QuadMesh()]: the members go in reverse order of declaration. *)
Definition QuadMesh_delete (q : QuadMesh) : M World unit :=
  Buffer_delete (m_vbo q) ;;
  VertexArray_delete (m_vao q).

Definition QuadMesh_vao (q : QuadMesh) : GLuint := VertexArray_handle (m_vao q).
Definition QuadMesh_vbo (q : QuadMesh) : GLuint := Buffer_handle (m_vbo q).

(** ** Shader.cpp *)

(** [Shader::compile] *)
Definition Shader_compile (type : GLshader) (src : string) : M World GLuint :=
  s ← call (glCreateShader type);
  call (glShaderSource s src) ;;
  call (glCompileShader s) ;;
  ok ← call (glGetShaderiv s GL_COMPILE_STATUS 0%Z);
  if (ok =? 0)%Z then
    len ← call (glGetShaderiv s GL_INFO_LOG_LENGTH 0%Z);
    log ← call (glGetShaderInfoLog s len (string_fill (Z.to_nat len) NUL));
    call (glDeleteShader s) ;;
    throw (runtime_error ("Shader compile failed: " +:+ log))
  else mret s.

(** [Shader::create_program] *)
Definition Shader_create_program (vs_src fs_src : string) : M World GLuint :=
  vs ← Shader_compile GL_VERTEX_SHADER vs_src;
  fs ← Shader_compile GL_FRAGMENT_SHADER fs_src;
  p ← call glCreateProgram;
  call (glAttachShader p vs) ;;
  call (glAttachShader p fs) ;;
  call (glLinkProgram p) ;;
  call (glDeleteShader vs) ;;
  call (glDeleteShader fs) ;;
  ok ← call (glGetProgramiv p GL_LINK_STATUS 0%Z);
  if (ok =? 0)%Z then
    len ← call (glGetProgramiv p GL_INFO_LOG_LENGTH 0%Z);
    log ← call (glGetProgramInfoLog p len (string_fill (Z.to_nat len) NUL));
    call (glDeleteProgram p) ;;
    throw (runtime_error ("Program link failed: " +:+ log))
  else mret p.

(** [Shader::get_uniform_location] *)
Definition Shader_get_uniform_location (program : GLuint) (name : string) : M World UniformLocation :=
  call (glGetUniformLocation program name).

(** ** Renderer.cpp *)

Record InstanceBuffer := mkInstanceBuffer {
  vbo : option Buffer;          (* std::unique_ptr<Buffer> *)
  instance_count : nat          (* size_t *)
}.

Record Renderer := mkRenderer {
  m_viewport_width : Z;
  m_viewport_height : Z;
  m_program : GLuint;
  m_quad_mesh : option QuadMesh;              (* std::unique_ptr<QuadMesh> *)
  m_instance_buffer : option InstanceBuffer   (* std::unique_ptr<InstanceBuffer> *)
}.

(** [Renderer::Renderer() = default] *)
Definition Renderer_new : Renderer := mkRenderer 0 0 0%N None None.

(** A member function runs on its object and the world. *)
Record Env := mkEnv { this : Renderer; world : World }.

Definition in_world {A} (m : M World A) : M Env A := fun e =>
  match m (world e) with
  | Ok a w => Ok a (mkEnv (this e) w)
  | Throw x w => Throw x (mkEnv (this e) w)
  | Undefined => Undefined
  end.

Definition set_this (f : Renderer -> Renderer) : M Env unit :=
  modify (fun e => mkEnv (f (this e)) (world e)).

(** [*p] and [p->] on a [unique_ptr]: undefined when it is null. *)
Definition deref {S A} (p : option A) : M S A :=
  match p with
  | Some a => mret a
  | None => undefined
  end.

(** The destructor call of a [unique_ptr] that is reset or reassigned. *)
Definition reset {S A} (p : option A) (destroy : A -> M S unit) : M S unit :=
  match p with
  | Some a => destroy a
  | None => mret tt
  end.

(** [(GLsizei)n] for a [size_t n]: the low 32 bits, read as signed. *)
Definition to_GLsizei (n : nat) : Z :=
  let m := (Z.of_nat n mod 2 ^ 32)%Z in
  if (m <? 2 ^ 31)%Z then m else (m - 2 ^ 32)%Z.

Definition vs_src : string := "
#version 330 core
layout(location=0) in vec2 aQuadPos;
layout(location=1) in vec4 iMeanOpacity;
layout(location=2) in vec4 iQuat;
layout(location=3) in vec4 iScaleColorX;
layout(location=4) in vec4 iColorYZPad;

uniform mat4 uView;
uniform mat4 uProj;

out vec2 vLocalPos;
out vec3 vColor;
out float vOpacity;

void main() {
    vLocalPos = aQuadPos;
    vColor = vec3(iScaleColorX.w, iColorYZPad.x, iColorYZPad.y);
    vOpacity = iMeanOpacity.w;

    mat3 camR = transpose(mat3(uView));
    vec3 right = camR[0];
    vec3 up    = camR[1];

    float eps = 0.03;
    float op  = max(vOpacity, eps);
    float r2  = 2.0 * log(op / eps);
    float r   = sqrt(max(r2, 0.0));
    r = min(r, 1.5);

    float z = max(-(uView * vec4(iMeanOpacity.xyz, 1.0)).z, 0.1);
    float maxWorld = 0.01 * z;
    vec2 s = min(iScaleColorX.xy, vec2(maxWorld));

    vec3 worldPos = iMeanOpacity.xyz +
                    right * (aQuadPos.x * s.x * r) +
                    up    * (aQuadPos.y * s.y * r);

    gl_Position = uProj * uView * vec4(worldPos, 1.0);
}
    ".

Definition fs_src : string := "
#version 330 core
in vec2 vLocalPos;
in vec3 vColor;
in float vOpacity;
out vec4 FragColor;

void main() {
    float r2 = dot(vLocalPos, vLocalPos);
    float t = 1.0 - r2;
    t = clamp(t, 0.0, 1.0);

    float alpha = vOpacity * t * t;

    if (alpha < 0.03) discard;

    FragColor = vec4(vColor * alpha, alpha);
}
    ".

(** [Renderer::create_shader_program] *)
Definition create_shader_program : M Env unit :=
  try_catch
    (p ← in_world (Shader_create_program vs_src fs_src);
     set_this (fun r => mkRenderer (m_viewport_width r) (m_viewport_height r) p
                          (m_quad_mesh r) (m_instance_buffer r)))
    (fun e =>
       in_world (fprintf_stderr ("[Renderer] Shader creation failed: " +:+ c_str (what_of e) +:+ "
")) ;;
       throw e).

(** [Renderer::init] *)
Definition init (width height : Z) : M Env unit :=
  set_this (fun r => mkRenderer width height (m_program r) (m_quad_mesh r) (m_instance_buffer r)) ;;
  create_shader_program ;;
  (* m_quad_mesh = std::make_unique<QuadMesh>(); *)
  q ← in_world QuadMesh_new;
  old_q ← gets (fun e => m_quad_mesh (this e));
  set_this (fun r => mkRenderer (m_viewport_width r) (m_viewport_height r) (m_program r)
                       (Some q) (m_instance_buffer r)) ;;
  in_world (reset old_q QuadMesh_delete) ;;
  (* m_instance_buffer = std::make_unique<InstanceBuffer>(); *)
  old_ib ← gets (fun e => m_instance_buffer (this e));
  set_this (fun r => mkRenderer (m_viewport_width r) (m_viewport_height r) (m_program r)
                       (m_quad_mesh r) (Some (mkInstanceBuffer None 0))) ;;
  in_world (reset old_ib (fun ib => reset (vbo ib) Buffer_delete)).

(** [Renderer::render_scene] *)
Definition render_scene (scene : Scene float) (view projection : mat4 float) : M Env unit :=
  let gaussians := get_gaussians scene in
  if bool_decide (gaussians = []) then mret tt
  else
    (* Convert gaussians to GPU format *)
    let instanceData := pack_instances 0%R gaussians in
    (* Update instance buffer *)
    new_vbo ← in_world Buffer_new;
    ib ← (p ← gets (fun e => m_instance_buffer (this e)); deref p);
    set_this (fun r => mkRenderer (m_viewport_width r) (m_viewport_height r) (m_program r)
                         (m_quad_mesh r) (Some (mkInstanceBuffer (Some new_vbo) (instance_count ib)))) ;;
    in_world (reset (vbo ib) Buffer_delete) ;;
    in_world (Buffer_set_data new_vbo GL_ARRAY_BUFFER (floats_of_instances instanceData) GL_DYNAMIC_DRAW) ;;
    set_this (fun r => mkRenderer (m_viewport_width r) (m_viewport_height r) (m_program r)
                         (m_quad_mesh r) (Some (mkInstanceBuffer (Some new_vbo) (length instanceData)))) ;;
    (* Setup rendering state *)
    in_world (call (glEnable GL_BLEND)) ;;
    in_world (call (glBlendFunc GL_ONE GL_ONE_MINUS_SRC_ALPHA)) ;;
    in_world (call (glEnable GL_DEPTH_TEST)) ;;
    in_world (call (glDepthMask false)) ;;
    (* Bind program and set uniforms *)
    program ← gets (fun e => m_program (this e));
    in_world (call (glUseProgram program)) ;;
    uView ← in_world (Shader_get_uniform_location program "uView");
    in_world (call (glUniformMatrix4fv uView view)) ;;
    uProj ← in_world (Shader_get_uniform_location program "uProj");
    in_world (call (glUniformMatrix4fv uProj projection)) ;;
    (* Setup VAO and render *)
    quad ← (p ← gets (fun e => m_quad_mesh (this e)); deref p);
    in_world (call (glBindVertexArray (QuadMesh_vao quad))) ;;
    (* Bind instance buffer *)
    in_world (call (glBindBuffer GL_ARRAY_BUFFER (Buffer_handle new_vbo))) ;;
    (* Define instanced attributes *)
    for_each [0; 1; 2; 3] (fun i =>
      in_world (call (glEnableVertexAttribArray (N.of_nat (i + 1)))) ;;
      in_world (call (glVertexAttribPointer (N.of_nat (i + 1)) 4 sizeof_GaussianInstanceGPU
                                            (i * sizeof_vec4))) ;;
      in_world (call (glVertexAttribDivisor (N.of_nat (i + 1)) 1))) ;;
    (* Draw *)
    ib ← (p ← gets (fun e => m_instance_buffer (this e)); deref p);
    in_world (call (glDrawArraysInstanced GL_TRIANGLES 0 6 (to_GLsizei (instance_count ib)))) ;;
    (* Cleanup state *)
    in_world (call (glDepthMask true)) ;;
    in_world (call (glDisable GL_BLEND)) ;;
    err ← in_world (call glGetError);
    if negb (N.eqb err GL_NO_ERROR)
    then in_world (fprintf_stderr ("[Renderer] GL Error: " +:+ hex err +:+ "
"))
    else mret tt.

(** [Renderer::~Renderer] *)
Definition Renderer_delete : M Env unit :=
  program ← gets (fun e => m_program (this e));
  (if negb (N.eqb program 0) then in_world (call (glDeleteProgram program)) else mret tt) ;;
  ib ← gets (fun e => m_instance_buffer (this e));
  in_world (reset ib (fun ib => reset (vbo ib) Buffer_delete)) ;;
  q ← gets (fun e => m_quad_mesh (this e));
  in_world (reset q QuadMesh_delete).

(** *** Conditions on the renderer and on the context *)

(** [init] has run: the quad mesh and the instance buffer exist. *)
Definition initialised (r : Renderer) : Prop :=
  is_Some (m_quad_mesh r) /\ is_Some (m_instance_buffer r).

(** Names held by the context refer to objects: a shader attached to a
    program exists, and so does the current program unless it is 0. *)
Definition gl_wf (st : GLState) : Prop :=
  (forall p pr s, gl_programs st !! p = Some pr -> s ∈ pr_attached pr ->
                  is_Some (gl_shaders st !! s))
  /\ (current_program (gl_bind st) = 0%N
      \/ is_Some (gl_programs st !! current_program (gl_bind st))).

(** Code that returns normally from every world. *)
Definition returns {A} (m : M World A) : Prop := forall w, wp m (fun _ _ => True) w.

(** [text] occurs in [msg]. *)
Definition contains_text (msg text : string) : Prop :=
  exists pre suf : string, msg = pre +:+ text +:+ suf.

(** The [std::string] that [Shader::compile] and [Shader::create_program]
    fill from an information log: the log and its terminating NUL, or
    nothing when there is no log. *)
Definition log_string (log : string) : string :=
  if String.eqb log "" then "" else log +:+ String NUL "".

(** The driver rejects the pipeline's shaders with the log [log]: the
    vertex shader does not compile, or the fragment shader does not, or
    the two do not link. *)
Definition build_fails (vs fs log : string) : Prop :=
  glsl_compile GL_VERTEX_SHADER vs = (false, log)
  \/ (exists vs_log,
        glsl_compile GL_VERTEX_SHADER vs = (true, vs_log)
        /\ glsl_compile GL_FRAGMENT_SHADER fs = (false, log))
  \/ (exists vs_log fs_log,
        glsl_compile GL_VERTEX_SHADER vs = (true, vs_log)
        /\ glsl_compile GL_FRAGMENT_SHADER fs = (true, fs_log)
        /\ glsl_link [(GL_VERTEX_SHADER, vs); (GL_FRAGMENT_SHADER, fs)] = (false, log)).

(** The driver builds the pipeline: both shaders compile and they link. *)
Definition build_succeeds (vs fs : string) : Prop :=
  exists vs_log fs_log log,
    glsl_compile GL_VERTEX_SHADER vs = (true, vs_log)
    /\ glsl_compile GL_FRAGMENT_SHADER fs = (true, fs_log)
    /\ glsl_link [(GL_VERTEX_SHADER, vs); (GL_FRAGMENT_SHADER, fs)] = (true, log).

(** Buffer [n] holds [data]. *)
Definition holds (n : GLuint) (data : list float) (w : World) : Prop :=
  gl_buffers (gl w) !! n = Some data.

(** The renderer can draw a frame: it is initialised, and the buffer its
    instance buffer owns, if any, exists in the context. *)
Definition frame_ready (e : Env) : Prop :=
  initialised (this e)
  /\ forall ib b, m_instance_buffer (this e) = Some ib -> vbo ib = Some b ->
                  is_Some (gl_buffers (gl (world e)) !! Buffer_m_vbo b).

(** The calls that create, delete or fill buffer objects. *)
Definition touches_buffers {A} (c : GLCall A) : bool :=
  match c with
  | glGenBuffers | glDeleteBuffers _ | glBufferData _ _ _ => true
  | _ => false
  end.

End Pipeline.

(** *** Sample drivers, worlds and scenes *)

(** A driver that accepts every shader and program, silently. *)
Definition accepting_driver : GLSL :=
  {| glsl_compile := fun _ _ => (true, ""); glsl_link := fun _ => (true, "") |}.

(** A driver whose compiler rejects every shader. *)
Definition rejecting_driver : GLSL :=
  {| glsl_compile := fun _ _ => (false, "0:1(1): error: syntax error");
     glsl_link := fun _ => (true, "") |}.

(** The world at start-up: a fresh context, nothing called or printed. *)
Definition world_initial : World := mkWorld gl_initial [] [].

Definition mat4_identity : mat4 float :=
  (Mat4 (Vec4 1 0 0 0) (Vec4 0 1 0 0) (Vec4 0 0 1 0) (Vec4 0 0 0 1))%R.

(** One opaque red splat at the origin. *)
Definition red_splat : Gaussian3D float :=
  (mkGaussian3D (Vec3 0 0 0) (Vec3 1 1 1) (mk_quat 1 0 0 0) 1 (Vec3 1 0 0))%R.

(** A renderer of the shape [init] leaves: a program, a quad mesh on a
    vertex array and a buffer, an instance buffer without storage. *)
Definition renderer_ready : Renderer :=
  mkRenderer 800 600 1%N (Some (mkQuadMesh (mkVertexArray 1%N) (mkBuffer 1%N)))
             (Some (mkInstanceBuffer None 0)).

(** ** The GLSL stages of [create_shader_program]

    The two shaders are embedded as functions of their inputs; [float] is
    [R], [log] the natural logarithm. *)

Module Glsl.
Open Scope R_scope.

Record mat3 := Mat3 { m3col0 : vec3 float; m3col1 : vec3 float; m3col2 : vec3 float }.

(** [mat3(m)]: the upper-left 3x3 block *)
Definition mat3_of (m : mat4 float) : mat3 :=
  Mat3 (xyz (col0 m)) (xyz (col1 m)) (xyz (col2 m)).

Definition transpose (m : mat3) : mat3 :=
  Mat3 (Vec3 (x3 (m3col0 m)) (x3 (m3col1 m)) (x3 (m3col2 m)))
       (Vec3 (y3 (m3col0 m)) (y3 (m3col1 m)) (y3 (m3col2 m)))
       (Vec3 (z3 (m3col0 m)) (z3 (m3col1 m)) (z3 (m3col2 m))).

Definition add3 (a b : vec3 float) : vec3 float :=
  Vec3 (x3 a + x3 b) (y3 a + y3 b) (z3 a + z3 b).
Definition scale3 (a : vec3 float) (k : float) : vec3 float :=
  Vec3 (x3 a * k) (y3 a * k) (z3 a * k).
Definition add4 (a b : vec4 float) : vec4 float :=
  Vec4 (x4 a + x4 b) (y4 a + y4 b) (z4 a + z4 b) (w4 a + w4 b).
Definition scale4 (a : vec4 float) (k : float) : vec4 float :=
  Vec4 (x4 a * k) (y4 a * k) (z4 a * k) (w4 a * k).

(** [m * v] for a column-major [mat4] *)
Definition mul_mat4_vec4 (m : mat4 float) (v : vec4 float) : vec4 float :=
  add4 (add4 (add4 (scale4 (col0 m) (x4 v)) (scale4 (col1 m) (y4 v)))
             (scale4 (col2 m) (z4 v)))
       (scale4 (col3 m) (w4 v)).

(** [a * b] for two [mat4] *)
Definition mul_mat4 (a b : mat4 float) : mat4 float :=
  Mat4 (mul_mat4_vec4 a (col0 b)) (mul_mat4_vec4 a (col1 b))
       (mul_mat4_vec4 a (col2 b)) (mul_mat4_vec4 a (col3 b)).

Definition dot2 (a b : vec2 float) : float := x2 a * x2 b + y2 a * y2 b.

(** [length(p)] on [vec2] *)
Definition length2 (p : vec2 float) : float := sqrt (dot2 p p).

(** [min(a, b)] on [vec2], component-wise *)
Definition min2 (a b : vec2 float) : vec2 float :=
  Vec2 (Rmin (x2 a) (x2 b)) (Rmin (y2 a) (y2 b)).

(** [clamp(x, lo, hi)] is [min(max(x, lo), hi)] *)
Definition clamp (x lo hi : float) : float := Rmin (Rmax x lo) hi.

(** *** Vertex stage *)

(** [float eps = 0.03;] of the vertex shader *)
Definition vs_eps : float := 0.03.

(** The opacity-derived radius:
[[
    float op  = max(vOpacity, eps);
    float r2  = 2.0 * log(op / eps);
    float r   = sqrt(max(r2, 0.0));
    r = min(r, 1.5);
]] *)
Definition vs_radius (vOpacity : float) : float :=
  let eps := vs_eps in
  let op := Rmax vOpacity eps in
  let r2 := 2.0 * ln (op / eps) in
  let r := sqrt (Rmax r2 0.0) in
  Rmin r 1.5.

(** [float z = max(-(uView * vec4(iMeanOpacity.xyz, 1.0)).z, 0.1);] *)
Definition vs_depth (uView : mat4 float) (iMeanOpacity : vec4 float) : float :=
  Rmax (- z4 (mul_mat4_vec4 uView (vec4_of (xyz iMeanOpacity) 1.0))) 0.1.

(** [[
    float maxWorld = 0.01 * z;
    vec2 s = min(iScaleColorX.xy, vec2(maxWorld));
]] *)
Definition vs_scale (uView : mat4 float) (iMeanOpacity iScaleColorX : vec4 float) : vec2 float :=
  let z := vs_depth uView iMeanOpacity in
  let maxWorld := 0.01 * z in
  min2 (xy iScaleColorX) (Vec2 maxWorld maxWorld).

Record VertexOut := mkVertexOut {
  vLocalPos : vec2 float;
  vColor : vec3 float;
  vOpacity : float;
  gl_Position : vec4 float
}.

(** [main()] of the vertex shader *)
Definition vs_main (uView uProj : mat4 float) (aQuadPos : vec2 float)
    (iMeanOpacity iQuat iScaleColorX iColorYZPad : vec4 float) : VertexOut :=
  let vLocalPos := aQuadPos in
  let vColor := Vec3 (w4 iScaleColorX) (x4 iColorYZPad) (y4 iColorYZPad) in
  let vOpacity := w4 iMeanOpacity in
  let camR := transpose (mat3_of uView) in
  let right := m3col0 camR in
  let up := m3col1 camR in
  let r := vs_radius vOpacity in
  let s := vs_scale uView iMeanOpacity iScaleColorX in
  let worldPos :=
    add3 (add3 (xyz iMeanOpacity)
               (scale3 right (x2 aQuadPos * x2 s * r)))
         (scale3 up (y2 aQuadPos * y2 s * r)) in
  mkVertexOut vLocalPos vColor vOpacity
    (mul_mat4_vec4 (mul_mat4 uProj uView) (vec4_of worldPos 1.0)).

(** The vertex shader run on the four attributes of a packed record. *)
Definition vs_instance (uView uProj : mat4 float) (aQuadPos : vec2 float)
    (inst : GaussianInstanceGPU float) : VertexOut :=
  vs_main uView uProj aQuadPos (mean_opacity inst) (quat inst) (scale_colorx inst) (coloryz_pad inst).

(** *** Fragment stage *)

(** the literal of [if (alpha < 0.03) discard;] *)
Definition fs_threshold : float := 0.03.

(** [[
    float r2 = dot(vLocalPos, vLocalPos);
    float t = 1.0 - r2;
    t = clamp(t, 0.0, 1.0);
    float alpha = vOpacity * t * t;
]] *)
Definition fs_alpha (vLocalPos : vec2 float) (vOpacity : float) : float :=
  let r2 := dot2 vLocalPos vLocalPos in
  let t := 1.0 - r2 in
  let t := clamp t 0.0 1.0 in
  vOpacity * t * t.

(** [main()] of the fragment shader: [None] is [discard], after which the
    fragment writes neither colour nor depth; otherwise [FragColor]. *)
Definition fs_main (vLocalPos : vec2 float) (vColor : vec3 float) (vOpacity : float)
    : option (vec4 float) :=
  let alpha := fs_alpha vLocalPos vOpacity in
  if Rlt_dec alpha fs_threshold then None
  else Some (vec4_of (scale3 vColor alpha) alpha).

End Glsl.

(** ** SceneIO.cpp

    [nlohmann::json] is external; a parsed document is modelled as a value
    of [json], an object as a finite map from keys to values.  A number
    converted to [float] is the real number it denotes. *)

#[warnings="-register-all"]
Inductive json :=
| JNull
| JBool (b : bool)
| JInt (n : Z)          (* number_integer, number_unsigned *)
| JFloat (x : R)        (* number_float *)
| JString (s : string)
| JArray (l : list json)
| JObject (m : gmap string json).

Module Json.
Open Scope R_scope.

(** [j.contains(key)]: false on anything but an object *)
Definition contains (j : json) (key : string) : bool :=
  match j with
  | JObject m => bool_decide (is_Some (m !! key))
  | _ => false
  end.

Definition is_array (j : json) : bool :=
  match j with JArray _ => true | _ => false end.

Definition is_number (j : json) : bool :=
  match j with JInt _ | JFloat _ => true | _ => false end.

(** [j.size()] *)
Definition size (j : json) : nat :=
  match j with
  | JNull => 0
  | JArray l => length l
  | JObject m => base.size m
  | _ => 1
  end.

(** What a range-based [for] over [j] visits. *)
Definition items (j : json) : list json :=
  match j with
  | JNull => []
  | JArray l => l
  | JObject m => snd <$> map_to_list m
  | _ => [j]
  end.

(** [j[key]] on a const value: type_error 305 unless [j] is an object,
    undefined when the key is missing. *)
Definition at_key {S} (j : json) (key : string) : M S json :=
  match j with
  | JObject m => match m !! key with
                 | Some v => mret v
                 | None => undefined
                 end
  | _ => throw (json_type_error 305)
  end.

(** [j[idx]] on a const value: type_error 305 unless [j] is an array,
    undefined when the index is out of range. *)
Definition at_index {S} (j : json) (idx : nat) : M S json :=
  match j with
  | JArray l => match l !! idx with
                | Some v => mret v
                | None => undefined
                end
  | _ => throw (json_type_error 305)
  end.

(** [j.get<float>()], also the implicit conversion to [float]:
    type_error 302 unless [j] is a number or a boolean. *)
Definition get_float {S} (j : json) : M S float :=
  match j with
  | JInt n => mret (IZR n)
  | JFloat x => mret x
  | JBool b => mret (if b then 1 else 0)
  | _ => throw (json_type_error 302)
  end.

End Json.

(** The files of the machine, by path, and the JSON parser ([in >> j]):
    [None] when the text is not JSON. *)
Class FileSystem := {
  file_contents : string -> option string;
  json_parse : string -> option json
}.

Section SceneIO.
Context `{FileSystem}.
Context {S : Type}.
Open Scope R_scope.

(** [glm::vec3(a[0], a[1], a[2])] for a JSON value [a]: the three
    elements are taken first, then converted. *)
Definition vec3_of_json (a : json) : M S (vec3 float) :=
  e0 ← Json.at_index a 0;
  e1 ← Json.at_index a 1;
  e2 ← Json.at_index a 2;
  x ← Json.get_float e0;
  y ← Json.get_float e1;
  z ← Json.get_float e2;
  mret (Vec3 x y z).

(** [glm::quat(a[0], a[1], a[2], a[3])]: the first element is w. *)
Definition quat_of_json (a : json) : M S (glm.quat float) :=
  e0 ← Json.at_index a 0;
  e1 ← Json.at_index a 1;
  e2 ← Json.at_index a 2;
  e3 ← Json.at_index a 3;
  w ← Json.get_float e0;
  x ← Json.get_float e1;
  y ← Json.get_float e2;
  z ← Json.get_float e3;
  mret (mk_quat w x y z).

(** [item.contains(key) && item[key].is_array() && item[key].size() >= n] *)
Definition has_array (item : json) (key : string) (n : nat) : M S bool :=
  if Json.contains item key then
    v ← Json.at_key item key;
    mret (Json.is_array v && bool_decide (n <= Json.size v)%nat)
  else mret false.

(** [item.contains(key) && item[key].is_number()] *)
Definition has_number (item : json) (key : string) : M S bool :=
  if Json.contains item key then
    v ← Json.at_key item key;
    mret (Json.is_number v)
  else mret false.

(** The body of the loop over [j["gaussians"]]. *)
Definition load_gaussian (item : json) : M S (Gaussian3D float) :=
  if negb (Json.contains item "color") then
    throw (runtime_error "Gaussian missing 'color' field")
  else
    (* Default values for all fields *)
    let g_mean := Vec3 0.0 0.0 0.0 in
    let g_scale := Vec3 1.0 1.0 1.0 in
    let g_rotation := mk_quat 1.0 0.0 0.0 0.0 in
    let g_opacity := 1.0 in
    g_color ← (c ← Json.at_key item "color"; vec3_of_json c);
    (* Parse optional fields if present *)
    has_mean ← has_array item "mean" 3;
    g_mean ← (if has_mean : bool then v ← Json.at_key item "mean"; vec3_of_json v
              else
                has_position ← has_array item "position" 3;
                if has_position : bool then v ← Json.at_key item "position"; vec3_of_json v
                else mret g_mean);
    has_scale ← has_array item "scale" 3;
    g_scale ← (if has_scale : bool then v ← Json.at_key item "scale"; vec3_of_json v
               else mret g_scale);
    has_rotation ← has_array item "rotation" 4;
    g_rotation ← (if has_rotation : bool then v ← Json.at_key item "rotation"; quat_of_json v
                  else mret g_rotation);
    has_opacity ← has_number item "opacity";
    g_opacity ← (if has_opacity : bool
                 then v ← Json.at_key item "opacity"; Json.get_float v
                 else mret g_opacity);
    mret (mkGaussian3D g_mean g_scale g_rotation g_opacity g_color).

(** The loop: every item is loaded and pushed back, in order. *)
Fixpoint load_gaussians (items : list json) (gaussians : list (Gaussian3D float))
    : M S (list (Gaussian3D float)) :=
  match items with
  | [] => mret gaussians
  | item :: rest =>
      g ← load_gaussian item;
      load_gaussians rest (gaussians ++ [g])
  end.

(** [SceneIO::load_scene_json]; the second operand of [||] is evaluated
    only when the first is false. *)
Definition load_scene_json (filepath : string) : M S (Scene float) :=
  match file_contents filepath with
  | None => throw (runtime_error ("Failed to open file: " +:+ filepath))
  | Some text =>
      match json_parse text with
      | None => throw json_parse_error
      | Some j =>
          let scene := mkScene [] in
          missing ← (if negb (Json.contains j "gaussians") then mret true
                     else arr ← Json.at_key j "gaussians"; mret (negb (Json.is_array arr)));
          if missing : bool then
            throw (runtime_error ("JSON missing 'gaussians' array: " +:+ filepath))
          else
            arr ← Json.at_key j "gaussians";
            gaussians ← load_gaussians (Json.items arr) [];
            mret (set_gaussians scene gaussians)
      end
  end.

End SceneIO.

(** *** The scene format, entry by entry

    What an entry of ["gaussians"] denotes, written from the format rather
    than from the loader: the reference the loader is compared with. *)

Module SceneFormat.
Open Scope R_scope.

(** The JSON values that convert to [float]. *)
Definition number (j : json) : option float :=
  match j with
  | JInt n => Some (IZR n)
  | JFloat x => Some x
  | JBool b => Some (if b then 1 else 0)
  | _ => None
  end.

(** The elements of [item[key]] when that is an array of at least [n]
    elements; [None] when the key is absent or holds anything else. *)
Definition array_field (n : nat) (item : json) (key : string) : option (list json) :=
  match item with
  | JObject m =>
      match m !! key with
      | Some (JArray l) => if bool_decide (n <= length l)%nat then Some l else None
      | _ => None
      end
  | _ => None
  end.

(** [item[key]] when that is a JSON number. *)
Definition number_field (item : json) (key : string) : option json :=
  match item with
  | JObject m =>
      match m !! key with
      | Some v => if Json.is_number v then Some v else None
      | None => None
      end
  | _ => None
  end.

Definition floats3 (l : list json) : option (vec3 float) :=
  match l with
  | a :: b :: c :: _ =>
      x ← number a; y ← number b; z ← number c; Some (Vec3 x y z)
  | _ => None
  end.

(** Four leading numbers as a rotation, w first. *)
Definition floats4 (l : list json) : option (glm.quat float) :=
  match l with
  | a :: b :: c :: d :: _ =>
      w ← number a; x ← number b; y ← number c; z ← number d; Some (mk_quat w x y z)
  | _ => None
  end.

(** The Gaussian an entry denotes: [color] is required; [mean] falls back
    on [position] and then on the origin; [scale], [rotation] and
    [opacity] fall back on their defaults.  [None] when [color] is missing
    or is not three numbers, or when an array that is consulted holds
    something that is not a number. *)
Definition expected_gaussian (item : json) : option (Gaussian3D float) :=
  g_color ← array_field 3 item "color" ≫= floats3;
  g_mean ← match array_field 3 item "mean" with
           | Some l => floats3 l
           | None => match array_field 3 item "position" with
                     | Some l => floats3 l
                     | None => Some (Vec3 0 0 0)
                     end
           end;
  g_scale ← match array_field 3 item "scale" with
            | Some l => floats3 l
            | None => Some (Vec3 1 1 1)
            end;
  g_rotation ← match array_field 4 item "rotation" with
               | Some l => floats4 l
               | None => Some (mk_quat 1 0 0 0)
               end;
  g_opacity ← match number_field item "opacity" with
              | Some v => number v
              | None => Some 1
              end;
  Some (mkGaussian3D g_mean g_scale g_rotation g_opacity g_color).

End SceneFormat.

(** *** Sample documents *)

Definition json_object (fields : list (string * json)) : json :=
  JObject (list_to_map fields).

(** An entry that has only a colour. *)
Definition entry_color_only : json :=
  json_object [("color", JArray [JInt 1; JInt 0; JInt 0])].

(** An entry in the older format: ["position"] instead of ["mean"]. *)
Definition entry_with_position : json :=
  json_object [("color", JArray [JInt 1; JInt 0; JInt 0]);
               ("position", JArray [JInt 1; JInt 2; JInt 3])].

Definition entry_with_position_and_opacity : json :=
  json_object [("color", JArray [JInt 0; JInt 1; JInt 0]);
               ("position", JArray [JInt 1; JInt 2; JInt 3]);
               ("opacity", JFloat 0.5)].

(** An entry whose colour has a single component, and an empty entry. *)
Definition entry_short_color : json :=
  json_object [("color", JArray [JInt 1])].

Definition entry_empty : json := json_object [].

(** An entry whose ["mean"] has the right shape and the wrong contents. *)
Definition entry_with_text_mean : json :=
  json_object [("color", JArray [JInt 1; JInt 0; JInt 0]);
               ("mean", JArray [JString "a"; JString "b"; JString "c"])].

Definition sample_document : json :=
  json_object [("format", JString "gaussian3d_v1");
               ("gaussians", JArray [entry_color_only; entry_with_position_and_opacity])].

(** The text of [scene.json]; [q] is the double quote. *)
Definition sample_text : string :=
  let q := String (ascii_of_nat 34) "" in
  "{" +:+ q +:+ "format" +:+ q +:+ ": " +:+ q +:+ "gaussian3d_v1" +:+ q +:+ ", "
  +:+ q +:+ "gaussians" +:+ q +:+ ": [{" +:+ q +:+ "color" +:+ q +:+ ": [1, 0, 0]}, {"
  +:+ q +:+ "color" +:+ q +:+ ": [0, 1, 0], " +:+ q +:+ "position" +:+ q +:+ ": [1, 2, 3], "
  +:+ q +:+ "opacity" +:+ q +:+ ": 0.5}]}".

(** A machine with that one file, and the parser on it. *)
Definition sample_files : FileSystem :=
  {| file_contents := fun path => if String.eqb path "scene.json" then Some sample_text else None;
     json_parse := fun text => if String.eqb text sample_text then Some sample_document else None |}.

(** ** SceneIO.cpp: saving

    [j.dump(2)] and the opening of the output file are external: the text
    a document is written as, and whether a path can be opened for
    writing. *)

Class FileWriter := {
  json_dump : json -> nat -> string;
  can_open_for_writing : string -> bool
}.

Section SceneSave.
Context `{FileWriter}.

(** [{a, b, c}] assigned to a JSON value: an array of three numbers. *)
Definition json_of_floats (l : list float) : json := JArray (JFloat <$> l).

(** The body of the loop of [save_scene_json]: [item] starts null and
    every [item[key] = value] adds a field. *)
Definition json_of_gaussian (g : Gaussian3D float) : json :=
  let item : gmap string json := ∅ in
  let item := <["mean" := json_of_floats [x3 (mean g); y3 (mean g); z3 (mean g)]]> item in
  let item := <["scale" := json_of_floats [x3 (scale g); y3 (scale g); z3 (scale g)]]> item in
  let item := <["rotation" := json_of_floats [qx (rotation g); qy (rotation g);
                                               qz (rotation g); qw (rotation g)]]> item in
  let item := <["opacity" := JFloat (opacity g)]> item in
  let item := <["color" := json_of_floats [x3 (color g); y3 (color g); z3 (color g)]]> item in
  JObject item.

(** The document [save_scene_json] builds: [j["gaussians"]] starts as an
    empty array and every Gaussian is pushed back. *)
Definition json_of_scene (scene : Scene float) : json :=
  let gaussians :=
    fold_left (fun arr g => arr ++ [json_of_gaussian g]) (get_gaussians scene) [] in
  JObject (<["gaussians" := JArray gaussians]> ∅).

(** [SceneIO::save_scene_json], on the files of the machine by path. *)
Definition save_scene_json (filepath : string) (scene : Scene float)
    : M (gmap string string) unit :=
  let j := json_of_scene scene in
  if negb (can_open_for_writing filepath) then
    throw (runtime_error ("Failed to open file for writing: " +:+ filepath))
  else modify (insert filepath (json_dump j 2)).

End SceneSave.

(** What a Gaussian becomes when it is saved and loaded again: the
    rotation is written x, y, z, w and read back w, x, y, z. *)
Definition reloaded (g : Gaussian3D float) : Gaussian3D float :=
  mkGaussian3D (mean g) (scale g)
               (mk_quat (qx (rotation g)) (qy (rotation g)) (qz (rotation g)) (qw (rotation g)))
               (opacity g) (color g).

(** ** App.cpp: loading a scene *)

Record App := mkApp {
  m_scene : option (Scene float);     (* std::unique_ptr<Scene> *)
  m_scene_path : string;
  app_stdout : list string;
  app_stderr : list string
}.

(** [printf("%zu", n)] *)
Definition decimal (n : nat) : string :=
  DecimalString.NilZero.string_of_uint (Nat.to_uint n).

Section AppLoad.
Context `{FileSystem}.

(** [App::load_scene]: the scene is loaded before [*m_scene] is assigned. *)
Definition App_load_scene (filepath : string) : M App bool :=
  try_catch
    (scene ← load_scene_json filepath;
     _ ← (p ← gets m_scene; deref p);
     modify (fun a => mkApp (Some scene) (m_scene_path a) (app_stdout a) (app_stderr a)) ;;
     modify (fun a => mkApp (m_scene a) filepath (app_stdout a) (app_stderr a)) ;;
     count ← (p ← gets m_scene; s ← deref p; mret (gaussian_count s));
     modify (fun a => mkApp (m_scene a) (m_scene_path a)
                            (app_stdout a ++ ["[App] Loaded " +:+ decimal count
                                              +:+ " gaussians from " +:+ c_str filepath +:+ "
"])
                            (app_stderr a)) ;;
     mret true)
    (fun e =>
       modify (fun a => mkApp (m_scene a) (m_scene_path a) (app_stdout a)
                              (app_stderr a ++ ["[App] Scene load error: "
                                                +:+ c_str (what_of e) +:+ "
"])) ;;
       mret false).

End AppLoad.


(** Code that leaves the state it runs in as it found it, whether it
    returns or throws. *)
Definition reads_only {S A} (m : M S A) : Prop :=
  forall s, match m s with
            | Ok _ s' => s' = s
            | Throw _ s' => s' = s
            | Undefined => True
            end.

(** An application after [App::init]: an empty scene, nothing loaded. *)
Definition app_started : App := mkApp (Some (mkScene [])) "" [] [].

(** A writer for which every path opens. *)
Definition sample_writer : FileWriter :=
  {| json_dump := fun _ _ => "saved scene"; can_open_for_writing := fun _ => true |}.

(** A machine on which [out.json] holds what [sample_writer] wrote for the
    scene of one red splat. *)
Definition sample_saved_files : FileSystem :=
  {| file_contents := fun path => if String.eqb path "out.json" then Some "saved scene" else None;
     json_parse := fun text => if String.eqb text "saved scene"
                               then Some (json_of_scene (mkScene [red_splat])) else None |}.

(** ** Camera.cpp

    The functions of glm the camera uses, by their definitions in glm
    (geometric.hpp, trigonometric.hpp, common.hpp and
    gtc/matrix_transform.hpp, right-handed, depth from -1 to 1), on real
    numbers; the constant of [glm::radians] is pi / 180. *)

Section GlmFunctions.
Open Scope R_scope.

Definition glm_radians (degrees : float) : float := degrees * (PI / 180).

Definition glm_clamp (x minVal maxVal : float) : float := Rmin (Rmax x minVal) maxVal.

Definition glm_dot (a b : vec3 float) : float := x3 a * x3 b + y3 a * y3 b + z3 a * z3 b.

Definition glm_cross (x y : vec3 float) : vec3 float :=
  Vec3 (y3 x * z3 y - y3 y * z3 x)
       (z3 x * x3 y - z3 y * x3 x)
       (x3 x * y3 y - x3 y * y3 x).

Definition glm_inversesqrt (x : float) : float := 1 / sqrt x.

(** [v * inversesqrt(dot(v, v))] *)
Definition glm_normalize (v : vec3 float) : vec3 float :=
  Glsl.scale3 v (glm_inversesqrt (glm_dot v v)).

Definition glm_sub (a b : vec3 float) : vec3 float :=
  Vec3 (x3 a - x3 b) (y3 a - y3 b) (z3 a - z3 b).



End GlmFunctions.

Record Camera := mkCamera {
  position : vec3 float;
  pitch : float;         (* degrees *)
  yaw : float;           (* degrees *)
  fov : float;
  znear : float;
  zfar : float;
  speed : float;
  sensitivity : float
}.

Section CameraMethods.
Open Scope R_scope.

(** [Camera::Camera()] *)
Definition Camera_new : Camera :=
  mkCamera (Vec3 0 0.5 4) 0 (-90) 60 0.1 100 2.5 0.1.

Definition Camera_forward (c : Camera) : vec3 float :=
  let yaw_rad := glm_radians (yaw c) in
  let pitch_rad := glm_radians (pitch c) in
  glm_normalize (Vec3 (cos yaw_rad * cos pitch_rad)
                      (sin pitch_rad)
                      (sin yaw_rad * cos pitch_rad)).

Definition Camera_right (c : Camera) : vec3 float :=
  glm_normalize (glm_cross (Camera_forward c) (Vec3 0 1 0)).

Definition Camera_up (c : Camera) : vec3 float :=
  glm_normalize (glm_cross (Camera_right c) (Camera_forward c)).



Definition with_position (p : vec3 float) (c : Camera) : Camera :=
  mkCamera p (pitch c) (yaw c) (fov c) (znear c) (zfar c) (speed c) (sensitivity c).

Definition Camera_on_mouse_move (dx dy : float) (c : Camera) : Camera :=
  let yaw := yaw c + dx * sensitivity c in
  let pitch := pitch c - dy * sensitivity c in
  let pitch := glm_clamp pitch (-89) 89 in
  mkCamera (position c) pitch yaw (fov c) (znear c) (zfar c) (speed c) (sensitivity c).

Definition Camera_on_keyboard (W A S D Q E : bool) (dt : float) (c : Camera) : Camera :=
  let velocity := speed c * dt in
  let c := if W then with_position (Glsl.add3 (position c) (Glsl.scale3 (Camera_forward c) velocity)) c
           else c in
  let c := if S then with_position (glm_sub (position c) (Glsl.scale3 (Camera_forward c) velocity)) c
           else c in
  let c := if A then with_position (glm_sub (position c) (Glsl.scale3 (Camera_right c) velocity)) c
           else c in
  let c := if D then with_position (Glsl.add3 (position c) (Glsl.scale3 (Camera_right c) velocity)) c
           else c in
  let c := if Q then with_position (glm_sub (position c) (Glsl.scale3 (Camera_up c) velocity)) c
           else c in
  let c := if E then with_position (Glsl.add3 (position c) (Glsl.scale3 (Camera_up c) velocity)) c
           else c in
  c.

(** What [App::handle_input] passes to the camera in one frame. *)
Inductive CameraInput :=
| MouseMove (dx dy : float)
| Keyboard (W A S D Q E : bool) (dt : float).

Definition Camera_input (c : Camera) (i : CameraInput) : Camera :=
  match i with
  | MouseMove dx dy => Camera_on_mouse_move dx dy c
  | Keyboard w a s d q e dt => Camera_on_keyboard w a s d q e dt c
  end.

(** The pitch stays short of straight up and straight down. *)
Definition pitch_in_range (c : Camera) : Prop := -89 <= pitch c <= 89.


End CameraMethods.

(** The camera after the inputs of some frames, starting from
    [Camera::Camera()]. *)
Definition Camera_after (inputs : list CameraInput) : Camera :=
  fold_left Camera_input inputs Camera_new.

(** A key as a factor: 1 when it is down. *)
Definition key (b : bool) : float := if b then 1%R else 0%R.

(** ** Time.cpp

    The static members of [Time] as a record; a reading of
    [high_resolution_clock::now()] is its time in seconds. *)

Record Time := mkTime {
  s_delta_time : float;
  s_fps : float;
  s_elapsed : float;
  s_last_time : float
}.

Section TimeMethods.
Open Scope R_scope.

(** [Time::init], at the clock reading [now] *)
Definition Time_init (now : float) : Time := mkTime 0 0 0 now.

(** [Time::tick], at the clock reading [now] *)
Definition Time_tick (now : float) (t : Time) : Time :=
  let s_delta_time := now - s_last_time t in
  let s_last_time := now in
  let s_fps :=
    if Rlt_dec 0 s_delta_time then
      let instantaneous_fps := 1 / s_delta_time in
      if Req_dec_T (s_fps t) 0 then instantaneous_fps
      else 0.9 * s_fps t + 0.1 * instantaneous_fps
    else s_fps t in
  mkTime s_delta_time s_fps (s_elapsed t + s_delta_time) s_last_time.

(** [Time::init] at [start] and then one [Time::tick] for each reading. *)
Definition Time_run (start : float) (readings : list float) : Time :=
  fold_left (fun t now => Time_tick now t) readings (Time_init start).


End TimeMethods.

(** ** Vertex fetch and the objects of the renderer *)

(** The stride of an attribute in bytes; 0 stands for tightly packed
    floats. *)
Definition effective_stride (a : VertexAttrib) : nat :=
  if Nat.eqb (va_stride a) 0 then va_size a * sizeof_float else va_stride a.

(** What a draw call fetches for the attribute [i] of the vertex array
    [vao], for the vertex [vertex] of the instance [instance]: [va_size]
    floats at the byte [va_offset + stride * e] of the attribute's buffer,
    where [e] is the vertex when the divisor is 0 and [instance / divisor]
    otherwise.  [None] when the attribute is not enabled or the floats are
    not in the buffer's store. *)
Definition fetch_attrib (st : GLState) (vao : GLuint) (i : N) (vertex instance : nat)
    : option (list float) :=
  attribs ← gl_vertex_arrays st !! vao;
  a ← attribs !! i;
  if va_enabled a then
    data ← gl_buffers st !! va_buffer a;
    let e := if Nat.eqb (va_divisor a) 0 then vertex else (instance / va_divisor a)%nat in
    let first := ((va_offset a + effective_stride a * e) / sizeof_float)%nat in
    let fetched := take (va_size a) (drop first data) in
    if bool_decide (length fetched = va_size a) then Some fetched else None
  else None.

(** The attribute [QuadMesh::QuadMesh()] sets up at location 0, and the
    attribute [render_scene] sets up at location [i + 1], on buffer [n]. *)
Definition quad_attrib (n : GLuint) : VertexAttrib :=
  mkVertexAttrib true 2 (2 * sizeof_float) 0 0 n.
Definition instanced_attrib (i : nat) (n : GLuint) : VertexAttrib :=
  mkVertexAttrib true 4 sizeof_GaussianInstanceGPU (i * sizeof_vec4) 1 n.

(** The calls that read or write buffers, vertex arrays or their
    bindings. *)
Definition touches_geometry {A} (c : GLCall A) : bool :=
  match c with
  | glGenVertexArrays | glDeleteVertexArrays _ | glBindVertexArray _
  | glGenBuffers | glDeleteBuffers _ | glBindBuffer _ _ | glBufferData _ _ _
  | glEnableVertexAttribArray _ | glVertexAttribPointer _ _ _ _ | glVertexAttribDivisor _ _ =>
      true
  | _ => false
  end.

(** The calls that can create, change or delete program objects. *)
Definition touches_programs {A} (c : GLCall A) : bool :=
  match c with
  | glUseProgram _ | glUniformMatrix4fv _ _ | glCreateProgram | glAttachShader _ _
  | glLinkProgram _ | glDeleteProgram _ => true
  | _ => false
  end.

(** The buffers, the vertex arrays and the two bindings of a world. *)
Definition geometry (w : World)
    : gmap N (list float) * gmap N (gmap N VertexAttrib) * GLuint * GLuint :=
  (gl_buffers (gl w), gl_vertex_arrays (gl w),
   vertex_array (gl_bind (gl w)), array_buffer (gl_bind (gl w))).

Definition geom (B : gmap N (list float)) (V : gmap N (gmap N VertexAttrib)) (v b : GLuint)
    (w : World) : Prop :=
  geometry w = (B, V, v, b).

(** The program objects of a world. *)
Definition programs (w : World) : gmap N ProgramObj := gl_programs (gl w).

(** Code that leaves an aspect [f] of the world as it is, whether it
    returns or throws. *)
Definition keeps {X A} (f : World -> X) (m : M World A) : Prop :=
  forall w, match m w with
            | Ok _ w' => f w' = f w
            | Throw _ w' => f w' = f w
            | Undefined => True
            end.

(** What a destructor that tests its name for 0 leaves of a store, and of
    a binding. *)
Definition released {X} (name : GLuint) (store : gmap N X) : gmap N X :=
  if N.eqb name 0 then store else delete name store.
Definition unbound (name bound : GLuint) : GLuint :=
  if N.eqb name 0 then bound else if N.eqb bound name then 0%N else bound.

(** The objects the renderer owns exist in the context, and the instance
    buffer is not the buffer of the quad. *)
Definition owns_objects (e : Env) : Prop :=
  (forall q, m_quad_mesh (this e) = Some q ->
             is_Some (gl_vertex_arrays (gl (world e)) !! QuadMesh_vao q)
             /\ is_Some (gl_buffers (gl (world e)) !! QuadMesh_vbo q))
  /\ (forall ib b, m_instance_buffer (this e) = Some ib -> vbo ib = Some b ->
                   is_Some (gl_buffers (gl (world e)) !! Buffer_m_vbo b)
                   /\ forall q, m_quad_mesh (this e) = Some q ->
                                Buffer_m_vbo b <> QuadMesh_vbo q).

(** The program objects of a world and the program in use. *)
Definition shading (w : World) : gmap N ProgramObj * GLuint :=
  (programs w, current_program (gl_bind (gl w))).

(** Program [p] is the object [pr], and [cp] is the program in use. *)
Definition program_is (p : GLuint) (pr : ProgramObj) (cp : GLuint) (w : World) : Prop :=
  programs w !! p = Some pr /\ current_program (gl_bind (gl w)) = cp.

Definition with_uniform (name : string) (m : mat4 float) (pr : ProgramObj) : ProgramObj :=
  mkProgramObj (pr_attached pr) (pr_link_status pr) (pr_info_log pr) (pr_delete_status pr)
               (<[name := m]> (pr_uniforms pr)).

(** ** The vertex stage of a draw call

    A draw call runs the vertex shader of the program in use once for
    every vertex of every instance: the inputs are fetched by location
    from the bound vertex array, the uniforms are read by name from the
    program object.  For the program built from [vs_src] that is
    [Glsl.vs_main]. *)

Definition as_vec2 (l : list float) : option (vec2 float) :=
  match l with
  | [x; y] => Some (Vec2 x y)
  | _ => None
  end.

Definition as_vec4 (l : list float) : option (vec4 float) :=
  match l with
  | [x; y; z; w] => Some (Vec4 x y z w)
  | _ => None
  end.

(** Corner [vertex] of the quad, as [quadVerts] lists it. *)
Definition quad_corner (vertex : nat) : option (vec2 float) :=
  as_vec2 (take 2 (drop (2 * vertex) quadVerts)).

Definition run_vertex_shader (st : GLState) (vertex instance : nat) : option Glsl.VertexOut :=
  let vao := vertex_array (gl_bind st) in
  pr ← gl_programs st !! current_program (gl_bind st);
  uView ← pr_uniforms pr !! "uView";
  uProj ← pr_uniforms pr !! "uProj";
  aQuadPos ← fetch_attrib st vao 0 vertex instance ≫= as_vec2;
  iMeanOpacity ← fetch_attrib st vao 1 vertex instance ≫= as_vec4;
  iQuat ← fetch_attrib st vao 2 vertex instance ≫= as_vec4;
  iScaleColorX ← fetch_attrib st vao 3 vertex instance ≫= as_vec4;
  iColorYZPad ← fetch_attrib st vao 4 vertex instance ≫= as_vec4;
  Some (Glsl.vs_main uView uProj aQuadPos iMeanOpacity iQuat iScaleColorX iColorYZPad).

(** A context that holds a quad mesh on vertex array 1 and buffer 1, as
    [renderer_ready] names them. *)
Definition world_ready : World :=
  mkWorld (mkGLState (mkRenderState false GL_ONE GL_ZERO false true) (mkBindings 0 0 0)%N
                     {[1%N := quadVerts]} {[1%N := {[0%N := quad_attrib 1%N]}]} ∅ ∅ GL_NO_ERROR)
          [] [].

(** The draw calls of a trace, in order, by their instance counts. *)
Definition draw_count (ev : GLEvent) : option Z :=
  match ev with
  | gl_event c =>
      match c with
      | glDrawArraysInstanced _ _ _ instancecount => Some instancecount
      | _ => None
      end
  end.

Definition draw_calls (w : World) : list Z := omap draw_count (gl_trace w).

Definition is_draw {A} (c : GLCall A) : bool :=
  match c with
  | glDrawArraysInstanced _ _ _ _ => true
  | _ => false
  end.

(* ===================================================================== *)
(** * Part II: properties                                                 *)
(* ===================================================================== *)

(** ** The instance packer *)

Section PackingFacts.
Context {F : Type} (zero : F).

(** The [push_back] loop started from any prefix appends the packed
    records in order. *)
Lemma pack_loop_from (gaussians : list (Gaussian3D F)) (acc : list (GaussianInstanceGPU F)) :
  fold_left (fun instanceData g => instanceData ++ [pack_instance zero g]) gaussians acc
  = acc ++ map (pack_instance zero) gaussians.
Proof.
  revert acc. induction gaussians as [|g gs IH]; intros acc; simpl.
  - by rewrite app_nil_r.
  - by rewrite IH, <- app_assoc.
Qed.

Lemma pack_instances_map (gaussians : list (Gaussian3D F)) :
  pack_instances zero gaussians = map (pack_instance zero) gaussians.
Proof. unfold pack_instances. by rewrite pack_loop_from. Qed.

Lemma pack_instances_length (gaussians : list (Gaussian3D F)) :
  length (pack_instances zero gaussians) = length gaussians.
Proof. by rewrite pack_instances_map, length_map. Qed.

Lemma pack_instances_nil_iff (gaussians : list (Gaussian3D F)) :
  pack_instances zero gaussians = [] <-> gaussians = [].
Proof.
  rewrite pack_instances_map. destruct gaussians; simpl; split; congruence.
Qed.

(** Sixteen floats per record. *)
Lemma floats_of_instance_length (inst : GaussianInstanceGPU F) :
  length (floats_of_instance inst) = 16.
Proof. reflexivity. Qed.

Lemma floats_of_instances_length (data : list (GaussianInstanceGPU F)) :
  length (floats_of_instances data) = 16 * length data.
Proof.
  induction data as [|inst data IH]; [done|].
  change (floats_of_instances (inst :: data))
    with (floats_of_instance inst ++ floats_of_instances data).
  rewrite length_app, IH, floats_of_instance_length. cbn [length]. lia.
Qed.

(** Record [i] of an uploaded buffer is read back whole. *)
Lemma instance_at_floats (data : list (GaussianInstanceGPU F)) (i : nat) :
  instance_at (floats_of_instances data) i = data !! i.
Proof.
  revert i. induction data as [|inst data IH]; intros i.
  - unfold instance_at, vec4_at, floats_of_instances. simpl. by rewrite !drop_nil.
  - destruct i as [|i].
    + destruct inst as [[] [] [] []]. reflexivity.
    + change ((inst :: data) !! S i) with (data !! i).
      rewrite <- (IH i). unfold instance_at, vec4_at.
      change (floats_of_instances (inst :: data))
        with (floats_of_instance inst ++ floats_of_instances data).
      replace (16 * S i) with (16 + 16 * i) by lia.
      rewrite <- !Nat.add_assoc.
      rewrite !(drop_app_add' (floats_of_instance inst) _ 16) by reflexivity.
      reflexivity.
Qed.

(** C1. The packing step of [render_scene] yields one record per Gaussian,
    in scene order, and record [i] is the layout
    (mean.xyz, opacity), (rotation.xyzw), (scale.xyz, color.r),
    (color.g, color.b, 0, 0) of Gaussian [i]; nothing is filtered or
    reordered, whatever the opacity. *)
Theorem pack_instances_spec (gaussians : list (Gaussian3D F)) :
  length (pack_instances zero gaussians) = length gaussians
  /\ (forall i : nat,
        pack_instances zero gaussians !! i
        = (fun g => {| mean_opacity := Vec4 (x3 (mean g)) (y3 (mean g)) (z3 (mean g)) (opacity g);
                       quat := Vec4 (qx (rotation g)) (qy (rotation g)) (qz (rotation g)) (qw (rotation g));
                       scale_colorx := Vec4 (x3 (scale g)) (y3 (scale g)) (z3 (scale g)) (x3 (color g));
                       coloryz_pad := Vec4 (y3 (color g)) (z3 (color g)) zero zero |})
          <$> gaussians !! i)
  /\ (forall i : nat,
        instance_at (floats_of_instances (pack_instances zero gaussians)) i
        = pack_instances zero gaussians !! i).
Proof.
  split; [apply pack_instances_length|]. split.
  - intros i. rewrite pack_instances_map, list_lookup_fmap. reflexivity.
  - intros i. apply instance_at_floats.
Qed.

(** C3. Packing a Gaussian into the 64-byte layout (sixteen floats) and
    reading the four groups back gives the Gaussian again, field for
    field. *)
Theorem pack_unpack_roundtrip (g : Gaussian3D F) :
  unpack_instance (pack_instance zero g) = g
  /\ unpack_instance <$> instance_at (floats_of_instance (pack_instance zero g)) 0 = Some g.
Proof.
  destruct g as [[] [] [] ? []]. split; reflexivity.
Qed.

(** Packing loses nothing: distinct Gaussians have distinct records. *)
Lemma pack_instance_inj (g1 g2 : Gaussian3D F) :
  pack_instance zero g1 = pack_instance zero g2 -> g1 = g2.
Proof.
  intros Heq. apply (f_equal unpack_instance) in Heq.
  destruct g1 as [[] [] [] ? []], g2 as [[] [] [] ? []]. exact Heq.
Qed.

End PackingFacts.

(** A fully transparent record is packed like any other. *)
Example pack_transparent :
  pack_instances 0%Z
    [ mkGaussian3D (Vec3 1 2 3) (Vec3 4 5 6) (mk_quat 7 8 9 10) 0 (Vec3 11 12 13);
      mkGaussian3D (Vec3 0 0 0) (Vec3 1 1 1) (mk_quat 1 0 0 0) 1 (Vec3 1 0 0) ]%Z
  = [ mkGaussianInstanceGPU (Vec4 1 2 3 0) (Vec4 8 9 10 7) (Vec4 4 5 6 11) (Vec4 12 13 0 0);
      mkGaussianInstanceGPU (Vec4 0 0 0 1) (Vec4 0 0 0 1) (Vec4 1 1 1 1) (Vec4 0 0 0 0) ]%Z.
Proof. reflexivity. Qed.

(** ** The GLSL stages *)

Module GlslFacts.
Import Glsl.
Open Scope R_scope.

Lemma vs_radius_unfold (op : float) :
  vs_radius op = Rmin (sqrt (Rmax (2 * ln (Rmax op 0.03 / 0.03)) 0)) 1.5.
Proof.
  unfold vs_radius, vs_eps. do 3 f_equal; lra.
Qed.

(** [op / eps] is at least 1 once [op] is clamped from below by [eps]. *)
Lemma clamped_ratio_ge_1 (op : float) : 1 <= Rmax op 0.03 / 0.03.
Proof.
  pose proof (Rmax_r op 0.03) as Hr.
  apply Rmult_le_reg_r with 0.03; [lra|].
  unfold Rdiv. rewrite Rmult_assoc, Rinv_l; lra.
Qed.

Lemma ln_le_mono (x y : R) : 0 < x -> x <= y -> ln x <= ln y.
Proof.
  intros Hx [Hlt | ->]; [|lra].
  left. by apply ln_increasing.
Qed.

Lemma vs_radius_mono (a b : float) : a <= b -> vs_radius a <= vs_radius b.
Proof.
  intros Hab. rewrite !vs_radius_unfold.
  apply Rle_min_compat_r, sqrt_le_1_alt, Rle_max_compat_r.
  apply Rmult_le_compat_l; [lra|].
  apply ln_le_mono.
  - pose proof (clamped_ratio_ge_1 a). lra.
  - apply Rmult_le_compat_r; [lra|]. by apply Rle_max_compat_r.
Qed.

Lemma vs_radius_at_or_below_eps (op : float) : op <= 0.03 -> vs_radius op = 0.
Proof.
  intros Hop. rewrite vs_radius_unfold.
  rewrite (Rmax_right op 0.03) by lra.
  replace (0.03 / 0.03) with 1 by lra.
  rewrite ln_1, Rmult_0_r, (Rmax_left 0 0) by lra.
  rewrite sqrt_0. apply Rmin_left. lra.
Qed.

(** [ln (100 / 3)] is above 2, since [e * e <= 9]. *)
Lemma ln_ratio_full_opacity : 2 <= ln (1 / 0.03).
Proof.
  rewrite <- (ln_exp 2). apply ln_le_mono; [apply exp_pos|].
  replace 2 with (1 + 1) by lra. rewrite exp_plus.
  pose proof exp_le_3 as H3. pose proof (exp_pos 1) as Hp. nra.
Qed.

Lemma vs_radius_full_opacity : vs_radius 1 = 1.5.
Proof.
  rewrite vs_radius_unfold.
  rewrite (Rmax_left 1 0.03) by lra.
  pose proof ln_ratio_full_opacity as Hln.
  rewrite (Rmax_left _ 0) by lra.
  apply Rmin_right.
  rewrite <- (sqrt_square 1.5) by lra.
  apply sqrt_le_1_alt. lra.
Qed.

(** C2. The vertex-stage radius is
    r = min(sqrt(max(2 ln(max(opacity, 0.03) / 0.03), 0)), 1.5); it is
    non-decreasing in opacity, it is the cap 1.5 at opacity 1, and it is 0
    at opacity 0.03 and at every opacity below. *)
Theorem vs_radius_spec :
  (forall op : float,
     vs_radius op = Rmin (sqrt (Rmax (2 * ln (Rmax op 0.03 / 0.03)) 0)) 1.5)
  /\ (forall a b : float, a <= b -> vs_radius a <= vs_radius b)
  /\ vs_radius 1 = 1.5
  /\ vs_radius 0.03 = 0
  /\ (forall op : float, op < 0.03 -> vs_radius op = 0).
Proof.
  split; [exact vs_radius_unfold|].
  split; [exact vs_radius_mono|].
  split; [exact vs_radius_full_opacity|].
  split.
  - apply vs_radius_at_or_below_eps. lra.
  - intros op Hop. apply vs_radius_at_or_below_eps. lra.
Qed.

(** The radius at two opacities below the cap, and one below [eps]. *)
Lemma vs_radius_spec_witness :
  vs_radius 0.5 <= vs_radius 1 /\ vs_radius 0.01 = 0.
Proof.
  destruct vs_radius_spec as (_ & Hmono & _ & _ & Hbelow).
  split; [apply Hmono; lra | apply Hbelow; lra].
Defined.

(** The radius never leaves [0, 1.5]. *)
Lemma vs_radius_range (op : float) : 0 <= vs_radius op <= 1.5.
Proof.
  rewrite vs_radius_unfold. split.
  - apply Rmin_glb; [apply sqrt_pos | lra].
  - apply Rmin_r.
Qed.

(** *** Depth and world-size clamp *)

Lemma mul_mat4_vec4_z (m : mat4 float) (v : vec4 float) :
  z4 (mul_mat4_vec4 m v)
  = z4 (col0 m) * x4 v + z4 (col1 m) * y4 v + z4 (col2 m) * z4 v + z4 (col3 m) * w4 v.
Proof. reflexivity. Qed.

(** C7. The vertex stage takes the depth
    z = max(-(view * vec4(mean, 1)).z, 0.1), which is at least 0.1, and
    clamps the billboard scale to min(scale.xy, 0.01 z): neither component
    of the clamped scale exceeds 0.01 z. *)
Theorem vs_depth_scale_spec (uView : mat4 float) (iMeanOpacity iScaleColorX : vec4 float) :
  let z := vs_depth uView iMeanOpacity in
  let s := vs_scale uView iMeanOpacity iScaleColorX in
  z = Rmax (- (z4 (col0 uView) * x4 iMeanOpacity + z4 (col1 uView) * y4 iMeanOpacity
               + z4 (col2 uView) * z4 iMeanOpacity + z4 (col3 uView) * 1)) 0.1
  /\ 0.1 <= z
  /\ s = Vec2 (Rmin (x4 iScaleColorX) (0.01 * z)) (Rmin (y4 iScaleColorX) (0.01 * z))
  /\ x2 s <= 0.01 * z
  /\ y2 s <= 0.01 * z.
Proof.
  cbv zeta. unfold vs_scale, vs_depth.
  rewrite mul_mat4_vec4_z. cbn [x4 y4 z4 w4 x3 y3 z3 xyz vec4_of xy min2 x2 y2].
  split; [f_equal; lra|].
  split; [apply Rmax_r|].
  split; [reflexivity|].
  split; apply Rmin_r.
Qed.

(** The billboard the vertex stage builds is positioned with exactly this
    radius and this clamped scale. *)
Lemma vs_main_position (uView uProj : mat4 float) (aQuadPos : vec2 float)
    (iMeanOpacity iQuat iScaleColorX iColorYZPad : vec4 float) :
  let r := vs_radius (w4 iMeanOpacity) in
  let s := vs_scale uView iMeanOpacity iScaleColorX in
  let right := Vec3 (x4 (col0 uView)) (x4 (col1 uView)) (x4 (col2 uView)) in
  let up := Vec3 (y4 (col0 uView)) (y4 (col1 uView)) (y4 (col2 uView)) in
  gl_Position (vs_main uView uProj aQuadPos iMeanOpacity iQuat iScaleColorX iColorYZPad)
  = mul_mat4_vec4 (mul_mat4 uProj uView)
      (vec4_of (add3 (add3 (xyz iMeanOpacity) (scale3 right (x2 aQuadPos * x2 s * r)))
                     (scale3 up (y2 aQuadPos * y2 s * r))) 1).
Proof. cbv zeta. unfold vs_main. cbn [gl_Position]. do 2 f_equal. lra. Qed.

(** The vertex stage hands the fragment stage the colour and opacity the
    packer stored. *)
Lemma vs_instance_varyings (uView uProj : mat4 float) (aQuadPos : vec2 float)
    (g : Gaussian3D float) :
  let out := vs_instance uView uProj aQuadPos (pack_instance 0 g) in
  vLocalPos out = aQuadPos /\ vColor out = color g /\ vOpacity out = opacity g.
Proof. destruct g as [[] [] [] ? []]. cbv zeta. by repeat split. Qed.

(** *** Fragment stage *)

Lemma dot2_self_nonneg (p : vec2 float) : 0 <= dot2 p p.
Proof. unfold dot2. nra. Qed.

Lemma fs_alpha_unfold (p : vec2 float) (op : float) :
  fs_alpha p op = op * clamp (1 - dot2 p p) 0 1 * clamp (1 - dot2 p p) 0 1.
Proof. unfold fs_alpha. do 2 f_equal; unfold clamp; do 3 f_equal; lra. Qed.

Lemma fs_alpha_center (op : float) : fs_alpha (Vec2 0 0) op = op.
Proof.
  rewrite fs_alpha_unfold. unfold clamp, dot2. cbn [x2 y2].
  replace (1 - (0 * 0 + 0 * 0)) with 1 by lra.
  rewrite (Rmax_left 1 0), (Rmin_left 1 1) by lra. lra.
Qed.

Lemma fs_alpha_outside (p : vec2 float) (op : float) : 1 <= length2 p -> fs_alpha p op = 0.
Proof.
  unfold length2. intros Hlen.
  pose proof (dot2_self_nonneg p) as Hd.
  assert (1 <= dot2 p p) as H1.
  { rewrite <- (sqrt_sqrt (dot2 p p)) by done.
    pose proof (sqrt_pos (dot2 p p)). nra. }
  rewrite fs_alpha_unfold. unfold clamp.
  rewrite (Rmax_right (1 - dot2 p p) 0), (Rmin_left 0 1) by lra. lra.
Qed.

Lemma fs_main_discard_iff (p : vec2 float) (c : vec3 float) (op : float) :
  fs_main p c op = None <-> fs_alpha p op < 0.03.
Proof.
  unfold fs_main, fs_threshold. destruct (Rlt_dec (fs_alpha p op) 0.03); split; intros; done.
Qed.

Lemma fs_main_keep (p : vec2 float) (c : vec3 float) (op : float) :
  0.03 <= fs_alpha p op ->
  fs_main p c op
  = Some (Vec4 (x3 c * fs_alpha p op) (y3 c * fs_alpha p op) (z3 c * fs_alpha p op) (fs_alpha p op)).
Proof.
  intros Hge. unfold fs_main, fs_threshold.
  destruct (Rlt_dec (fs_alpha p op) 0.03); [lra | reflexivity].
Qed.

(** C4. The fragment alpha is opacity * t * t with
    t = clamp(1 - dot(localPos, localPos), 0, 1); at the quad center it is
    the opacity itself, and wherever |localPos| >= 1 it is 0 and the
    fragment is discarded. *)
Theorem fs_alpha_spec :
  (forall (p : vec2 float) (op : float),
     fs_alpha p op = op * clamp (1 - dot2 p p) 0 1 * clamp (1 - dot2 p p) 0 1)
  /\ (forall op : float, fs_alpha (Vec2 0 0) op = op)
  /\ (forall (p : vec2 float) (c : vec3 float) (op : float),
        1 <= length2 p -> fs_alpha p op = 0 /\ fs_main p c op = None).
Proof.
  split; [exact fs_alpha_unfold|]. split; [exact fs_alpha_center|].
  intros p c op Hlen. pose proof (fs_alpha_outside p op Hlen) as H0.
  split; [done|]. apply fs_main_discard_iff. lra.
Qed.

(** The corner (1, 1) of the quad is outside the unit disc. *)
Lemma fs_alpha_spec_witness :
  fs_alpha (Vec2 1 1) 1 = 0 /\ fs_main (Vec2 1 1) (Vec3 1 0 0) 1 = None.
Proof.
  destruct fs_alpha_spec as (_ & _ & Hout). apply Hout.
  unfold length2, dot2. cbn [x2 y2].
  rewrite <- sqrt_1 at 1. apply sqrt_le_1_alt. lra.
Defined.

(** C5. A fragment is discarded exactly when its alpha is strictly below
    0.03; at alpha = 0.03 it is kept and written premultiplied; and the
    threshold is the [eps] of the vertex-stage radius. *)
Theorem fs_discard_spec :
  (forall (p : vec2 float) (c : vec3 float) (op : float),
     fs_main p c op = None <-> fs_alpha p op < 0.03)
  /\ (forall (p : vec2 float) (c : vec3 float) (op : float),
        fs_alpha p op = 0.03 ->
        fs_main p c op = Some (Vec4 (x3 c * 0.03) (y3 c * 0.03) (z3 c * 0.03) 0.03))
  /\ fs_threshold = vs_eps.
Proof.
  split; [exact fs_main_discard_iff|]. split; [|reflexivity].
  intros p c op Heq. rewrite fs_main_keep by lra. by rewrite Heq.
Qed.

(** At the center, opacity 0.03 is kept and opacity 0.02 is discarded. *)
Lemma fs_discard_spec_witness :
  fs_main (Vec2 0 0) (Vec3 1 0 0) 0.03 = Some (Vec4 (1 * 0.03) (0 * 0.03) (0 * 0.03) 0.03)
  /\ fs_main (Vec2 0 0) (Vec3 1 0 0) 0.02 = None.
Proof.
  destruct fs_discard_spec as (Hiff & Hkeep & _). split.
  - apply (Hkeep (Vec2 0 0) (Vec3 1 0 0) 0.03). apply fs_alpha_center.
  - apply Hiff. rewrite fs_alpha_center. lra.
Defined.

(** The scene of one opaque red splat at the origin, seen through the
    identity view: the billboard has the capped radius, sits at depth 0.1,
    and its center fragment is kept, red at full alpha. *)
Example red_splat_center :
  let inst := pack_instance 0 red_splat in
  let out := vs_instance mat4_identity mat4_identity (Vec2 0 0) inst in
  vs_radius (vOpacity out) = 1.5
  /\ vs_depth mat4_identity (mean_opacity inst) = 0.1
  /\ fs_main (vLocalPos out) (vColor out) (vOpacity out) = Some (Vec4 1 0 0 1).
Proof.
  cbv zeta. split; [exact vs_radius_full_opacity|]. split.
  - unfold vs_depth. rewrite mul_mat4_vec4_z. cbn. apply Rmax_right. lra.
  - cbn [vs_instance vs_main vLocalPos vColor vOpacity pack_instance red_splat mean_opacity
         scale_colorx coloryz_pad vec4_of w4 x4 y4 opacity color x3 y3 z3 mean].
    rewrite fs_main_keep; rewrite fs_alpha_center; [|lra].
    cbn [x3 y3 z3]. do 2 f_equal; lra.
Qed.

End GlslFacts.

(** ** Reasoning rules for the monad *)

Section Rules.
Context {S : Type}.

Lemma wp_elim {A} (m : M S A) (Q : A -> S -> Prop) (s : S) :
  wp m Q s -> exists a s', m s = Ok a s' /\ Q a s'.
Proof. unfold wp. destruct (m s); [eauto | done | done]. Qed.

Lemma wp_mono {A} (m : M S A) (Q Q' : A -> S -> Prop) (s : S) :
  (forall a s', Q a s' -> Q' a s') -> wp m Q s -> wp m Q' s.
Proof. unfold wp. destruct (m s); eauto. Qed.

Lemma wp_ret {A} (a : A) (Q : A -> S -> Prop) (s : S) : Q a s -> wp (mret a) Q s.
Proof. done. Qed.

Lemma wp_bind {A B} (m : M S A) (f : A -> M S B) (Q : B -> S -> Prop) (s : S) :
  wp m (fun a s' => wp (f a) Q s') s -> wp (m ≫= f) Q s.
Proof. unfold wp, mbind, M_bind. by destruct (m s). Qed.

Lemma wp_gets {A} (f : S -> A) (Q : A -> S -> Prop) (s : S) : Q (f s) s -> wp (gets f) Q s.
Proof. done. Qed.

Lemma wp_modify (f : S -> S) (Q : unit -> S -> Prop) (s : S) : Q tt (f s) -> wp (modify f) Q s.
Proof. done. Qed.

Lemma wp_deref {A} (a : A) (Q : A -> S -> Prop) (s : S) : Q a s -> wp (deref (Some a)) Q s.
Proof. done. Qed.

Lemma throws_elim {A} (m : M S A) (Q : exn -> S -> Prop) (s : S) :
  throws m Q s -> exists e s', m s = Throw e s' /\ Q e s'.
Proof. unfold throws. destruct (m s); [done | eauto | done]. Qed.

Lemma throws_throw {A} (e : exn) (Q : exn -> S -> Prop) (s : S) :
  Q e s -> throws (throw e : M S A) Q s.
Proof. done. Qed.

(** A bind throws when its first part does, or when the first part returns
    and the rest throws. *)
Lemma throws_bind_l {A B} (m : M S A) (f : A -> M S B) (Q : exn -> S -> Prop) (s : S) :
  throws m Q s -> throws (m ≫= f) Q s.
Proof. unfold throws, mbind, M_bind. by destruct (m s). Qed.

Lemma throws_bind_r {A B} (m : M S A) (f : A -> M S B) (Q : exn -> S -> Prop) (s : S) :
  wp m (fun a s' => throws (f a) Q s') s -> throws (m ≫= f) Q s.
Proof. unfold wp, throws, mbind, M_bind. by destruct (m s). Qed.

End Rules.

(** ** The renderer *)

Section PipelineFacts.
Context `{GLSL}.

(** A GL call always returns. *)
Lemma wp_call {A} (c : GLCall A) (Q : A -> World -> Prop) (w : World) :
  Q (fst (gl_step c (gl w)))
    (mkWorld (snd (gl_step c (gl w))) (gl_trace w ++ [gl_event c]) (stderr w)) ->
  wp (call c) Q w.
Proof. done. Qed.

Lemma wp_in_world {A} (m : M World A) (Q : A -> Env -> Prop) (e : Env) :
  wp m (fun a w => Q a (mkEnv (this e) w)) (world e) -> wp (in_world m) Q e.
Proof. unfold wp, in_world. by destruct (m (world e)). Qed.

Lemma wp_in_world_returns {A} (m : M World A) (Q : A -> Env -> Prop) (e : Env) :
  returns m -> (forall a w, Q a (mkEnv (this e) w)) -> wp (in_world m) Q e.
Proof.
  intros Hm HQ. apply wp_in_world. eapply wp_mono; [|apply Hm]. intros a w _. apply HQ.
Qed.

Lemma returns_call {A} (c : GLCall A) : returns (call c).
Proof. intros w. done. Qed.

Lemma returns_bind {A B} (m : M World A) (f : A -> M World B) :
  returns m -> (forall a, returns (f a)) -> returns (m ≫= f).
Proof.
  intros Hm Hf w. apply wp_bind. eapply wp_mono; [|apply Hm]. intros a w' _. apply Hf.
Qed.

Lemma returns_ret {A} (a : A) : returns (mret a).
Proof. intros w. done. Qed.

Lemma returns_Buffer_new : returns Buffer_new.
Proof. apply returns_bind; [apply returns_call | intros; apply returns_ret]. Qed.

Lemma returns_Buffer_delete (b : Buffer) : returns (Buffer_delete b).
Proof. unfold Buffer_delete. case (negb _); [apply returns_call | apply returns_ret]. Qed.

Lemma returns_reset {A} (p : option A) (destroy : A -> M World unit) :
  (forall a, returns (destroy a)) -> returns (reset p destroy).
Proof. intros Hd. destruct p; [apply Hd | apply returns_ret]. Qed.

Lemma returns_Buffer_set_data (b : Buffer) target data usage :
  returns (Buffer_set_data b target data usage).
Proof. apply returns_bind; [apply returns_call | intros; apply returns_call]. Qed.

Lemma returns_fprintf_stderr (text : string) : returns (fprintf_stderr text).
Proof. intros w. done. Qed.

(** C6. On a scene with no record [render_scene] returns at once: the
    renderer, the GL context, the trace of GL calls and [stderr] are as
    they were, whatever the matrices; so nothing is packed, no buffer is
    created or filled, no render state changes and nothing is drawn. *)
Theorem render_scene_empty (scene : Scene float) (view projection : mat4 float) (e : Env) :
  gaussian_count scene = 0 ->
  render_scene scene view projection e = Ok tt e.
Proof.
  destruct scene as [[|g gs]]; [reflexivity | discriminate].
Qed.

(** C8. On a scene with records [render_scene], run on an initialised
    renderer, returns with depth writes enabled and blending disabled:
    what it set up for compositing does not reach later draw calls. *)
Theorem render_scene_restores (scene : Scene float) (view projection : mat4 float) (e : Env) :
  get_gaussians scene <> [] ->
  initialised (this e) ->
  exists e' : Env,
    render_scene scene view projection e = Ok tt e'
    /\ depth_mask (gl_render (gl (world e'))) = true
    /\ blend (gl_render (gl (world e'))) = false.
Proof.
  intros Hne [[q Hq] [ib Hib]].
  cut (wp (render_scene scene view projection)
          (fun _ e' => depth_mask (gl_render (gl (world e'))) = true
                       /\ blend (gl_render (gl (world e'))) = false) e).
  { intros Hwp. apply wp_elim in Hwp as ([] & e' & ? & ?). eauto. }
  unfold render_scene. rewrite bool_decide_eq_false_2 by done.
  destruct e as [r w]. cbn [this] in Hq, Hib.
  apply wp_bind, wp_in_world_returns; [apply returns_Buffer_new|]. intros new_vbo w1.
  apply wp_bind, wp_bind, wp_gets. cbn [this m_instance_buffer]. rewrite Hib. apply wp_deref.
  apply wp_bind, wp_modify. cbn [this world].
  apply wp_bind, wp_in_world_returns; [apply returns_reset, returns_Buffer_delete|]. intros _ w2.
  apply wp_bind, wp_in_world_returns; [apply returns_Buffer_set_data|]. intros _ w3.
  apply wp_bind, wp_modify. cbn [this world].
  do 4 (apply wp_bind, wp_in_world_returns; [apply returns_call|]; intros _ ?).
  apply wp_bind, wp_gets.
  apply wp_bind, wp_in_world_returns; [apply returns_call|]. intros _ ?.
  do 2 (apply wp_bind, wp_in_world_returns; [apply returns_call|]; intros ? ?;
        apply wp_bind, wp_in_world_returns; [apply returns_call|]; intros _ ?).
  apply wp_bind, wp_bind, wp_gets. cbn [this m_quad_mesh]. rewrite Hq. apply wp_deref.
  do 2 (apply wp_bind, wp_in_world_returns; [apply returns_call|]; intros _ ?).
  cbn [for_each].
  apply wp_bind.
  do 4 (apply wp_bind;
        do 2 (apply wp_bind, wp_in_world_returns; [apply returns_call|]; intros _ ?);
        apply wp_in_world_returns; [apply returns_call|]; intros _ ?).
  apply wp_ret.
  apply wp_bind, wp_bind, wp_gets. cbn [this m_instance_buffer]. apply wp_deref.
  apply wp_bind, wp_in_world_returns; [apply returns_call|]; intros _ w'.
  (* Cleanup state *)
  apply wp_bind, wp_in_world, wp_call. cbn [world this].
  apply wp_bind, wp_in_world, wp_call. cbn [world this].
  apply wp_bind, wp_in_world, wp_call. cbn [world this].
  case (negb _).
  - apply wp_in_world. by cbv.
  - by cbv.
Qed.

(** *** Strings read from information logs *)

Lemma substring_all (s : string) : substring 0 (String.length s) s = s.
Proof. induction s as [|c s IH]; simpl; [done | by rewrite IH]. Qed.

Lemma substring_none (n : nat) (s : string) : substring n 0 s = "".
Proof. revert s. induction n as [|n IH]; intros [|c s]; simpl; auto. Qed.

Lemma string_fill_length (n : nat) (c : ascii) : String.length (string_fill n c) = n.
Proof. induction n as [|n IH]; simpl; [done | by rewrite IH]. Qed.

Lemma append_empty_r (s : string) : s +:+ "" = s.
Proof.
  induction s as [|c s IH]; [done|].
  change (String c (s +:+ "") = String c s). by rewrite IH.
Qed.

Lemma append_assoc (a b c : string) : (a +:+ b) +:+ c = a +:+ b +:+ c.
Proof.
  induction a as [|x a IH]; [done|].
  change (String x ((a +:+ b) +:+ c) = String x (a +:+ b +:+ c)). by rewrite IH.
Qed.

(** Reading a log into a buffer of [GL_INFO_LOG_LENGTH] NULs gives the
    log and its terminator. *)
Lemma write_info_log_full (log : string) :
  write_info_log log (info_log_length log)
                 (string_fill (Z.to_nat (info_log_length log)) NUL)
  = log_string log.
Proof.
  unfold write_info_log, info_log_length, log_string.
  destruct (String.eqb log "") eqn:Hlog; [reflexivity|].
  rewrite Nat2Z.id.
  destruct (Z.leb_spec (Z.of_nat (String.length log + 1)) 0) as [Hle|_]; [lia|].
  replace (String.length log + 1 - 1)%nat with (String.length log) by lia.
  rewrite Nat.min_id. unfold string_take, string_drop.
  rewrite substring_all, string_fill_length, Nat.sub_diag, substring_none. reflexivity.
Qed.

Lemma log_string_contains (prefix log : string) :
  contains_text (prefix +:+ log_string log) log.
Proof.
  unfold log_string. destruct (String.eqb_spec log "") as [->|_].
  - exists prefix, "". reflexivity.
  - exists prefix, (String NUL ""). reflexivity.
Qed.

(** What [printf("%s")] shows of such a message still holds the log, as
    long as neither holds a NUL of its own. *)
Lemma c_str_app_NUL (a b : string) : NUL_free a -> c_str (a +:+ String NUL b) = a.
Proof.
  induction a as [|c a IH]; simpl; [done|]. intros [Hc Ha].
  destruct (Ascii.eqb_spec c NUL); [done|]. by rewrite IH.
Qed.

Lemma c_str_NUL_free (a : string) : NUL_free a -> c_str a = a.
Proof.
  induction a as [|c a IH]; simpl; [done|]. intros [Hc Ha].
  destruct (Ascii.eqb_spec c NUL); [done|]. by rewrite IH.
Qed.

Lemma NUL_free_app (a b : string) : NUL_free a -> NUL_free b -> NUL_free (a +:+ b).
Proof. induction a as [|c a IH]; simpl; [done|]. intros [? ?] ?. auto. Qed.

Lemma c_str_log_string (prefix log : string) :
  NUL_free prefix -> NUL_free log -> c_str (prefix +:+ log_string log) = prefix +:+ log.
Proof.
  intros Hp Hl. unfold log_string. destruct (String.eqb_spec log "") as [->|_].
  - apply c_str_NUL_free, NUL_free_app; done.
  - rewrite <- append_assoc. apply c_str_app_NUL, NUL_free_app; done.
Qed.

(** *** Object names *)

Lemma fresh_object_spec (st : GLState) :
  fresh_object st <> 0%N
  /\ gl_shaders st !! fresh_object st = None
  /\ gl_programs st !! fresh_object st = None.
Proof.
  unfold fresh_object.
  pose proof (is_fresh ({[0%N]} ∪ dom (gl_shaders st) ∪ dom (gl_programs st) : gset N)) as Hf.
  repeat split.
  - set_solver.
  - apply not_elem_of_dom. set_solver.
  - apply not_elem_of_dom. set_solver.
Qed.

Lemma attached_somewhere_true (progs : gmap N ProgramObj) (s : GLuint) :
  attached_somewhere progs s = true
  <-> exists p pr, progs !! p = Some pr /\ s ∈ pr_attached pr.
Proof.
  unfold attached_somewhere. rewrite existsb_exists. split.
  - intros ([p pr] & Hin & Hs). exists p, pr. split.
    + by apply elem_of_map_to_list, list_elem_of_In.
    + by apply bool_decide_eq_true in Hs.
  - intros (p & pr & Hp & Hs). exists (p, pr). split.
    + by apply list_elem_of_In, elem_of_map_to_list.
    + by apply bool_decide_eq_true.
Qed.

Lemma attached_somewhere_false (progs : gmap N ProgramObj) (s : GLuint) :
  (forall p pr, progs !! p = Some pr -> s ∉ pr_attached pr) ->
  attached_somewhere progs s = false.
Proof.
  intros Hno. apply not_true_is_false. rewrite attached_somewhere_true.
  intros (p & pr & Hp & Hs). by apply (Hno p pr).
Qed.

(** In a well-formed context, a name without a shader is attached to no
    program. *)
Lemma not_attached (st : GLState) (s : GLuint) :
  gl_wf st -> gl_shaders st !! s = None -> attached_somewhere (gl_programs st) s = false.
Proof.
  intros [Hwf _] Hs. apply attached_somewhere_false. intros p pr Hp Hin.
  destruct (Hwf p pr s Hp Hin) as [sh Hsh]. congruence.
Qed.

(** *** [Shader::compile] *)

Ltac gl_call := cbn [gl_step fst snd gl gl_trace stderr].

Lemma Shader_compile_ok (type : GLshader) (src log : string) (w : World) :
  glsl_compile type src = (true, log) ->
  wp (Shader_compile type src)
     (fun s w' => s = fresh_object (gl w)
                  /\ gl w' = with_shaders (insert s (mkShaderObj type src true log false)) (gl w)
                  /\ stderr w' = stderr w) w.
Proof.
  intros Hc. unfold Shader_compile.
  apply wp_bind, wp_call. gl_call. set (s := fresh_object (gl w)).
  apply wp_bind, wp_call. gl_call.
  apply wp_bind, wp_call. gl_call.
  apply wp_bind, wp_call. gl_call.
  cbn [gl_shaders with_shaders].
  rewrite !lookup_alter_eq, lookup_insert_eq. cbn [fmap option_fmap option_map sh_compile_status sh_type sh_source].
  rewrite Hc. cbn [fst Z_of_bool Z.eqb].
  apply wp_ret. split; [done|]. split; [|done].
  destruct (gl w). unfold with_shaders. cbn. f_equal.
  rewrite !alter_insert_eq. cbn. by rewrite Hc.
Qed.

Lemma Shader_compile_throws (type : GLshader) (src log : string) (w : World) :
  glsl_compile type src = (false, log) ->
  gl_wf (gl w) ->
  throws (Shader_compile type src)
         (fun e w' => e = runtime_error ("Shader compile failed: " +:+ log_string log)
                      /\ gl w' = gl w /\ stderr w' = stderr w) w.
Proof.
  intros Hc Hwf. unfold Shader_compile.
  destruct (fresh_object_spec (gl w)) as (_ & Hfresh & _).
  apply throws_bind_r, wp_call. gl_call. set (s := fresh_object (gl w)) in *.
  apply throws_bind_r, wp_call. gl_call.
  apply throws_bind_r, wp_call. gl_call.
  apply throws_bind_r, wp_call. gl_call.
  cbn [gl_shaders with_shaders].
  rewrite !lookup_alter_eq, lookup_insert_eq. cbn [fmap option_fmap option_map sh_compile_status sh_type sh_source].
  rewrite Hc. cbn [fst Z_of_bool Z.eqb].
  apply throws_bind_r, wp_call. gl_call.
  cbn [gl_shaders with_shaders].
  rewrite !lookup_alter_eq, lookup_insert_eq. cbn [fmap option_fmap option_map sh_info_log sh_type sh_source snd].
  rewrite Hc. cbn [snd].
  apply throws_bind_r, wp_call. gl_call.
  cbn [gl_shaders with_shaders].
  rewrite !lookup_alter_eq, lookup_insert_eq. cbn [fmap option_fmap option_map sh_info_log sh_type sh_source snd].
  rewrite Hc. cbn [snd]. rewrite write_info_log_full.
  apply throws_bind_r, wp_call. gl_call.
  cbn [gl_programs with_shaders].
  rewrite (not_attached (gl w) s Hwf Hfresh).
  apply throws_throw. split; [done|]. split; [|done].
  destruct (gl w). unfold with_shaders. cbn in *. f_equal.
  rewrite !delete_alter_eq, delete_insert_eq. by apply delete_id.
Qed.

Lemma gl_wf_new_shader (st : GLState) (s : GLuint) (sh : ShaderObj) :
  gl_wf st -> gl_wf (with_shaders (insert s sh) st).
Proof.
  intros [Hatt Hcur]. split; [|exact Hcur].
  intros p pr s' Hp Hin. cbn [gl_shaders gl_programs with_shaders] in *.
  destruct (decide (s = s')) as [->|Hne].
  - rewrite lookup_insert_eq. eauto.
  - rewrite lookup_insert_ne by done. eauto.
Qed.

Ltac gl_fields :=
  unfold with_render, with_bind, with_buffers, with_vertex_arrays, with_shaders, with_programs,
         with_error;
  cbn [gl_render gl_bind gl_buffers gl_vertex_arrays gl_shaders gl_programs gl_error
       current_program vertex_array array_buffer].

Tactic Notation "gl_fields" "in" "*" :=
  unfold with_render, with_bind, with_buffers, with_vertex_arrays, with_shaders, with_programs,
         with_error in *;
  cbn [gl_render gl_bind gl_buffers gl_vertex_arrays gl_shaders gl_programs gl_error
       current_program vertex_array array_buffer] in *.

Lemma attached_insert (progs : gmap N ProgramObj) (p : GLuint) (pr : ProgramObj) (s : GLuint) :
  s ∈ pr_attached pr -> attached_somewhere (<[p := pr]> progs) s = true.
Proof.
  intros Hs. apply attached_somewhere_true. exists p, pr. by rewrite lookup_insert_eq.
Qed.

(** *** [Shader::create_program] *)

(** The vertex shader does not compile. *)
Lemma Shader_create_program_vs_fails (vs_src fs_src log : string) (w : World) :
  glsl_compile GL_VERTEX_SHADER vs_src = (false, log) ->
  gl_wf (gl w) ->
  throws (Shader_create_program vs_src fs_src)
         (fun e w' => e = runtime_error ("Shader compile failed: " +:+ log_string log)
                      /\ gl w' = gl w /\ stderr w' = stderr w) w.
Proof.
  intros Hc Hwf. unfold Shader_create_program.
  apply throws_bind_l. by apply Shader_compile_throws.
Qed.

(** The fragment shader does not compile: the vertex shader compiled
    before it is left in the context. *)
Lemma Shader_create_program_fs_fails (vs_src fs_src vs_log log : string) (w : World) :
  glsl_compile GL_VERTEX_SHADER vs_src = (true, vs_log) ->
  glsl_compile GL_FRAGMENT_SHADER fs_src = (false, log) ->
  gl_wf (gl w) ->
  throws (Shader_create_program vs_src fs_src)
         (fun e w' => e = runtime_error ("Shader compile failed: " +:+ log_string log)
                      /\ gl w' = with_shaders
                                   (insert (fresh_object (gl w))
                                           (mkShaderObj GL_VERTEX_SHADER vs_src true vs_log false))
                                   (gl w)
                      /\ stderr w' = stderr w) w.
Proof.
  intros Hvs Hfs Hwf. unfold Shader_create_program.
  apply throws_bind_r.
  eapply wp_mono; [|by apply Shader_compile_ok].
  intros vs w1 (-> & Hgl & Herr). cbv beta.
  apply throws_bind_l.
  pose proof (Shader_compile_throws GL_FRAGMENT_SHADER fs_src log w1 Hfs) as Hthrow.
  rewrite Hgl, Herr in Hthrow. apply Hthrow. by apply gl_wf_new_shader.
Qed.

(** The program does not link: program and shaders are gone again. *)
Lemma Shader_create_program_link_fails (vs_src fs_src vs_log fs_log log : string) (w : World) :
  glsl_compile GL_VERTEX_SHADER vs_src = (true, vs_log) ->
  glsl_compile GL_FRAGMENT_SHADER fs_src = (true, fs_log) ->
  glsl_link [(GL_VERTEX_SHADER, vs_src); (GL_FRAGMENT_SHADER, fs_src)] = (false, log) ->
  gl_wf (gl w) ->
  throws (Shader_create_program vs_src fs_src)
         (fun e w' => e = runtime_error ("Program link failed: " +:+ log_string log)
                      /\ gl w' = gl w /\ stderr w' = stderr w) w.
Proof.
  intros Hvs Hfs Hlink Hwf. unfold Shader_create_program.
  apply throws_bind_r.
  eapply wp_mono; [|by apply Shader_compile_ok].
  intros vs w1 (-> & Hgl1 & Herr1). cbv beta.
  apply throws_bind_r.
  eapply wp_mono; [|by apply Shader_compile_ok].
  intros fs w2 (-> & Hgl2 & Herr2). cbv beta.
  destruct (fresh_object_spec (gl w)) as (_ & Hvs_sh & Hvs_pr).
  destruct (fresh_object_spec (gl w1)) as (_ & Hfs_sh & Hfs_pr).
  destruct (fresh_object_spec (gl w2)) as (Hp_0 & Hp_sh & Hp_pr).
  pose proof (not_attached (gl w) _ Hwf Hvs_sh) as Hvs_att.
  pose proof (not_attached (gl w) (fresh_object (gl w1)) Hwf) as Hfs_att.
  rewrite Hgl2 in Hp_sh, Hp_pr. rewrite Hgl1 in Hfs_sh, Hfs_pr, Hp_sh, Hp_pr.
  destruct Hwf as [Hatt Hcur].
  destruct w as [st tr err], w1 as [st1 tr1 err1], w2 as [st2 tr2 err2].
  cbn [gl stderr] in *. subst st2 st1 err2 err1.
  set (vs := fresh_object st) in *.
  set (fs := fresh_object (with_shaders _ st)) in *.
  set (p := fresh_object (with_shaders _ (with_shaders _ st))) in *.
  destruct st as [rs bind bufs vaos shs progs glerr].
  gl_fields in *.
  apply lookup_insert_None in Hfs_sh as [Hfs_sh Hne_vs_fs].
  apply lookup_insert_None in Hp_sh as [Hp_sh Hne_fs_p].
  apply lookup_insert_None in Hp_sh as [Hp_sh Hne_vs_p].
  (* glCreateProgram *)
  apply throws_bind_r, wp_call. gl_call. unfold fresh_object. gl_fields.
  change (fresh _) with p.
  (* glAttachShader p vs *)
  apply throws_bind_r, wp_call. gl_call. gl_fields.
  rewrite lookup_insert_ne, lookup_insert_eq by done. gl_fields.
  rewrite alter_insert_eq. cbn [pr_attached pr_link_status pr_info_log pr_delete_status pr_uniforms app].
  (* glAttachShader p fs *)
  apply throws_bind_r, wp_call. gl_call. gl_fields.
  rewrite lookup_insert_eq. gl_fields.
  rewrite alter_insert_eq. cbn [pr_attached pr_link_status pr_info_log pr_delete_status pr_uniforms app].
  (* glLinkProgram p *)
  apply throws_bind_r, wp_call. gl_call. gl_fields.
  rewrite alter_insert_eq. unfold attached_sources. gl_fields.
  cbn [pr_attached pr_link_status pr_info_log pr_delete_status pr_uniforms omap list_omap].
  rewrite lookup_insert_ne, !lookup_insert_eq by done.
  cbn [mbind option_bind sh_type sh_source]. rewrite Hlink. cbn [fst snd].
  (* glDeleteShader vs; glDeleteShader fs *)
  apply throws_bind_r, wp_call. gl_call. gl_fields.
  rewrite attached_insert by (cbn [pr_attached]; rewrite !elem_of_cons; auto).
  apply throws_bind_r, wp_call. gl_call. gl_fields.
  rewrite attached_insert by (cbn [pr_attached]; rewrite !elem_of_cons; auto).
  (* glGetProgramiv, glGetProgramInfoLog *)
  apply throws_bind_r, wp_call. gl_call. gl_fields.
  rewrite lookup_insert_eq. cbn [pr_link_status Z_of_bool Z.eqb].
  apply throws_bind_r, wp_call. gl_call. gl_fields.
  rewrite lookup_insert_eq. cbn [pr_info_log].
  apply throws_bind_r, wp_call. gl_call. gl_fields.
  rewrite lookup_insert_eq. cbn [pr_info_log]. rewrite write_info_log_full.
  (* glDeleteProgram p *)
  apply throws_bind_r, wp_call. gl_call. gl_fields.
  assert (N.eqb (current_program bind) p = false) as ->.
  { apply N.eqb_neq. intros Heq. destruct Hcur as [H0|[pr Hpr]]; congruence. }
  unfold remove_program. gl_fields.
  rewrite lookup_insert_eq, delete_insert_eq, (delete_id progs p) by done.
  cbn [pr_attached foldr].
  match goal with |- context [delete fs ?m] => set (shs' := m) end.
  assert (exists sh, shs' !! vs = Some sh /\ sh_delete_status sh = true) as (? & -> & ->).
  { subst shs'. rewrite lookup_alter_ne, lookup_alter_eq, lookup_insert_ne, lookup_insert_eq by done.
    eexists. split; reflexivity. }
  assert (exists sh, shs' !! fs = Some sh /\ sh_delete_status sh = true) as (? & -> & ->).
  { subst shs'. rewrite lookup_alter_eq, lookup_alter_ne, lookup_insert_eq by done.
    eexists. split; reflexivity. }
  rewrite Hvs_att, Hfs_att by done. cbn [negb andb].
  apply throws_throw. subst shs'. split; [done|]. split; [|done]. cbn [gl]. f_equal.
  apply map_eq. intros k.
  destruct (decide (k = vs)) as [->|Hk1]; [by rewrite lookup_delete_eq|].
  rewrite lookup_delete_ne by done.
  destruct (decide (k = fs)) as [->|Hk2]; [by rewrite lookup_delete_eq|].
  by rewrite lookup_delete_ne, !lookup_alter_ne, !lookup_insert_ne by done.
Qed.

(** *** [Renderer::create_shader_program] and [Renderer::init] *)

Lemma throws_in_world {A} (m : M World A) (Q : exn -> Env -> Prop) (e : Env) :
  throws m (fun x w => Q x (mkEnv (this e) w)) (world e) -> throws (in_world m) Q e.
Proof. unfold throws, in_world. by destruct (m (world e)). Qed.

Lemma throws_try_catch {S A} (body : M S A) (handler : exn -> M S A)
    (Q : exn -> S -> Prop) (s : S) :
  throws body (fun x s' => throws (handler x) Q s') s -> throws (try_catch body handler) Q s.
Proof. unfold throws, try_catch. by destruct (body s). Qed.

Lemma throws_mono {S A} (m : M S A) (Q Q' : exn -> S -> Prop) (s : S) :
  (forall x s', Q x s' -> Q' x s') -> throws m Q s -> throws m Q' s.
Proof. unfold throws. destruct (m s); eauto. Qed.

(** Whatever fails, [Shader::create_program] throws a [runtime_error]
    that carries the log, and the object that failed is deleted: the
    context is as before, but for a vertex shader that had compiled when
    the fragment shader did not. *)
Lemma Shader_create_program_fails (vs fs log : string) (w : World) :
  build_fails vs fs log ->
  gl_wf (gl w) ->
  throws (Shader_create_program vs fs)
    (fun x w' =>
       (exists prefix, x = runtime_error (prefix +:+ log_string log))
       /\ (gl w' = gl w
           \/ exists vs_log,
                glsl_compile GL_VERTEX_SHADER vs = (true, vs_log)
                /\ gl w' = with_shaders
                             (insert (fresh_object (gl w))
                                     (mkShaderObj GL_VERTEX_SHADER vs true vs_log false))
                             (gl w))
       /\ stderr w' = stderr w) w.
Proof.
  intros [Hvs | [(vs_log & Hvs & Hfs) | (vs_log & fs_log & Hvs & Hfs & Hlink)]] Hwf.
  - eapply throws_mono; [|by apply Shader_create_program_vs_fails].
    intros x w' (-> & Hgl & Herr). eauto.
  - eapply throws_mono; [|by eapply Shader_create_program_fs_fails].
    intros x w' (-> & Hgl & Herr). eauto 8.
  - eapply throws_mono; [|by eapply Shader_create_program_link_fails].
    intros x w' (-> & Hgl & Herr). eauto.
Qed.

(** [create_shader_program] rethrows what [Shader::create_program] threw,
    after printing it, whatever the renderer it runs on. *)
Lemma create_shader_program_rethrows (x : exn) (w w1 : World) (r : Renderer) :
  Shader_create_program vs_src fs_src w = Throw x w1 ->
  create_shader_program (mkEnv r w)
  = Throw x (mkEnv r (mkWorld (gl w1) (gl_trace w1)
                        (stderr w1 ++ ["[Renderer] Shader creation failed: "
                                       +:+ c_str (what_of x) +:+ "
"]))).
Proof.
  intros Hthrow. unfold create_shader_program, try_catch, mbind, M_bind, in_world.
  cbn [world this]. rewrite Hthrow. reflexivity.
Qed.

(** C9. When a shader does not compile or the program does not link,
    [create_shader_program] throws a [runtime_error] whose message contains
    the driver's log; it has printed the message to [stderr], it has not
    assigned [m_program], and the shader or program object that failed is
    deleted.  [init] throws the same exception and creates neither the
    quad mesh nor the instance buffer. *)
Theorem shader_failure_is_fatal (log : string) (e : Env) :
  build_fails vs_src fs_src log ->
  gl_wf (gl (world e)) ->
  exists (msg : string) (e' : Env),
    create_shader_program e = Throw (runtime_error msg) e'
    /\ contains_text msg log
    /\ this e' = this e
    /\ stderr (world e')
       = stderr (world e) ++ ["[Renderer] Shader creation failed: " +:+ c_str msg +:+ "
"]
    /\ (gl (world e') = gl (world e)
        \/ exists vs_log,
             glsl_compile GL_VERTEX_SHADER vs_src = (true, vs_log)
             /\ gl (world e')
                = with_shaders
                    (insert (fresh_object (gl (world e)))
                            (mkShaderObj GL_VERTEX_SHADER vs_src true vs_log false))
                    (gl (world e)))
    /\ forall width height : Z,
         init width height e
         = Throw (runtime_error msg)
             (mkEnv (mkRenderer width height (m_program (this e)) (m_quad_mesh (this e))
                                (m_instance_buffer (this e)))
                    (world e')).
Proof.
  intros Hfail Hwf. destruct e as [r w]. cbn [world this] in *.
  destruct (throws_elim _ _ _ (Shader_create_program_fails _ _ _ w Hfail Hwf))
    as (x & w1 & Hthrow & (prefix & ->) & Hgl & Herr).
  pose proof (fun r => create_shader_program_rethrows _ w w1 r Hthrow) as Hre.
  eexists _, _. split; [apply (Hre r)|].
  cbn [world this gl stderr what_of].
  split; [apply log_string_contains|].
  split; [done|].
  split; [by rewrite Herr|].
  split; [exact Hgl|].
  intros width height. unfold init.
  unfold mbind at 1, M_bind at 1, set_this at 1, modify at 1. cbn [this world m_program m_quad_mesh m_instance_buffer].
  unfold mbind at 1, M_bind at 1. by rewrite Hre.
Qed.

(** *** What [render_scene] leaves in the context *)

Lemma remove_program_buffers (p : GLuint) (st : GLState) :
  gl_buffers (remove_program p st) = gl_buffers st.
Proof. unfold remove_program. by destruct (gl_programs st !! p). Qed.

(** Only three calls touch buffer objects. *)
Lemma gl_step_keeps_buffers {A} (c : GLCall A) (st : GLState) :
  touches_buffers c = false -> gl_buffers (snd (gl_step c st)) = gl_buffers st.
Proof.
  destruct c; intros Ht; try discriminate; cbn [gl_step snd]; try reflexivity.
  - destruct (gl_programs st !! _) as [pr|]; [|reflexivity].
    destruct (_ && _); [by rewrite remove_program_buffers | reflexivity].
  - by destruct u.
  - by destruct (N.eqb _ _).
  - by destruct g.
  - by destruct (attached_somewhere _ _).
  - by destruct (gl_shaders st !! _).
  - destruct (N.eqb _ _); [reflexivity | by rewrite remove_program_buffers].
Qed.

(** A call made with a property of the world in hand, and the property
    it establishes. *)
Lemma wp_call_inv {A} (c : GLCall A) (P P' : World -> Prop) (Q : A -> Env -> Prop) (e : Env) :
  P (world e) ->
  (forall w, P w -> P' (mkWorld (snd (gl_step c (gl w))) (gl_trace w ++ [gl_event c]) (stderr w))) ->
  (forall a w', P' w' -> Q a (mkEnv (this e) w')) ->
  wp (in_world (call c)) Q e.
Proof. intros HP Hstep HQ. apply wp_in_world, wp_call. apply HQ, Hstep, HP. Qed.

Lemma holds_call {A} (c : GLCall A) (n : GLuint) (data : list float) (w : World) :
  touches_buffers c = false ->
  holds n data w ->
  holds n data (mkWorld (snd (gl_step c (gl w))) (gl_trace w ++ [gl_event c]) (stderr w)).
Proof. unfold holds. intros Ht Hn. cbn [gl]. by rewrite gl_step_keeps_buffers. Qed.

Lemma Buffer_new_fresh (w : World) :
  wp Buffer_new (fun b w' => gl_buffers (gl w) !! Buffer_m_vbo b = None /\ holds (Buffer_m_vbo b) [] w') w.
Proof.
  unfold Buffer_new. apply wp_bind, wp_call. cbn [gl_step fst snd]. apply wp_ret.
  cbn [Buffer_m_vbo]. unfold holds. cbn [gl gl_buffers with_buffers]. split.
  - apply not_elem_of_dom.
    pose proof (is_fresh ({[0%N]} ∪ dom (gl_buffers (gl w)) : gset N)). set_solver.
  - by rewrite lookup_insert_eq.
Qed.

Lemma Buffer_delete_other (b : Buffer) (n : GLuint) (data : list float) (w : World) :
  Buffer_m_vbo b <> n -> holds n data w ->
  wp (Buffer_delete b) (fun _ w' => holds n data w') w.
Proof.
  intros Hne Hn. unfold Buffer_delete. destruct (negb _); [|by apply wp_ret].
  apply wp_call. unfold holds in *. cbn [gl_step snd gl].
  destruct (N.eqb _ _); cbn [gl_buffers with_buffers with_bind]; by rewrite lookup_delete_ne.
Qed.

Lemma Buffer_set_data_holds (n : GLuint) (old data : list float) (usage : GLusage) (w : World) :
  holds n old w ->
  wp (Buffer_set_data (mkBuffer n) GL_ARRAY_BUFFER data usage) (fun _ w' => holds n data w') w.
Proof.
  intros Hn. unfold Buffer_set_data, Buffer_bind. cbn [Buffer_m_vbo].
  apply wp_bind, wp_call. cbn [gl_step fst snd gl gl_trace stderr].
  apply wp_call. unfold holds in *. cbn [gl_step fst snd gl].
  cbn [gl_buffers with_buffers with_bind gl_bind set_array_buffer array_buffer].
  by rewrite lookup_alter_eq, Hn.
Qed.

(** A call that leaves buffer [n] alone. *)
Ltac frame n data :=
  apply (wp_call_inv _ (holds n data) (holds n data));
    [ assumption
    | intros ? ?; by apply holds_call
    | cbn [this world]; intros ? ? ? ].

(** On a scene with records, [render_scene] leaves the packed records in
    a new buffer owned by the renderer, counts them, and draws that many
    instances of the quad; the renderer is ready for the next frame. *)
Lemma render_scene_uploads (scene : Scene float) (view projection : mat4 float) (e : Env) :
  get_gaussians scene <> [] ->
  frame_ready e ->
  exists (e' : Env) (b : Buffer),
    render_scene scene view projection e = Ok tt e'
    /\ frame_ready e'
    /\ m_instance_buffer (this e')
       = Some (mkInstanceBuffer (Some b) (length (get_gaussians scene)))
    /\ holds (Buffer_m_vbo b)
             (floats_of_instances (pack_instances 0%R (get_gaussians scene))) (world e')
    /\ gl_event (glDrawArraysInstanced GL_TRIANGLES 0 6
                   (to_GLsizei (length (get_gaussians scene))))
       ∈ gl_trace (world e').
Proof.
  intros Hne [[[q Hq] [ib Hib]] Hlive].
  specialize (Hlive ib).
  set (data := floats_of_instances (pack_instances 0%R (get_gaussians scene))).
  set (draw := gl_event (glDrawArraysInstanced GL_TRIANGLES 0 6
                           (to_GLsizei (length (get_gaussians scene))))).
  cut (wp (render_scene scene view projection)
          (fun _ e' => exists b,
             m_quad_mesh (this e') = Some q
             /\ m_instance_buffer (this e')
                = Some (mkInstanceBuffer (Some b) (length (get_gaussians scene)))
             /\ holds (Buffer_m_vbo b) data (world e')
             /\ draw ∈ gl_trace (world e')) e).
  { intros Hwp. apply wp_elim in Hwp as ([] & e' & ? & b & Hq' & Hib' & Hholds & ?).
    exists e', b. split; [done|]. split; [|done].
    split; [split; [rewrite Hq' | rewrite Hib']; eauto|].
    intros ib' b'. rewrite Hib'. intros [= <-] [= <-]. unfold holds in Hholds. eauto. }
  unfold render_scene. rewrite bool_decide_eq_false_2 by done.
  destruct e as [r w]. cbn [this world] in Hq, Hib, Hlive.
  pose proof (fun b => Hlive b Hib) as Hown. clear Hlive.
  (* Update instance buffer *)
  apply wp_bind, wp_in_world. eapply wp_mono; [|apply Buffer_new_fresh].
  intros [n] w1 [Hfresh Hn]. cbn [world this Buffer_m_vbo] in *.
  apply wp_bind, wp_bind, wp_gets. cbn [this m_instance_buffer]. rewrite Hib. apply wp_deref.
  apply wp_bind, wp_modify. cbn [this world].
  apply wp_bind, wp_in_world. cbn [world].
  assert (wp (reset (vbo ib) Buffer_delete) (fun _ w' => holds n [] w') w1) as Hreset.
  { destruct (vbo ib) as [old|] eqn:Hold; [|by apply wp_ret].
    apply Buffer_delete_other; [|done].
    intros Heq. destruct (Hown old eq_refl) as [? Hl]. rewrite Heq in Hl. congruence. }
  eapply wp_mono; [|apply Hreset]. intros ? w2 Hn2. cbv beta.
  apply wp_bind, wp_in_world. cbn [world].
  eapply wp_mono; [|by eapply (Buffer_set_data_holds n [] data)]. intros ? w3 Hn3. cbv beta.
  apply wp_bind, wp_modify. cbn [this world m_viewport_width m_viewport_height m_program
                                  m_quad_mesh].
  rewrite pack_instances_length.
  (* Setup rendering state, program, uniforms, vertex array, attributes *)
  do 4 (apply wp_bind; frame n data).
  apply wp_bind, wp_gets.
  do 5 (apply wp_bind; frame n data).
  apply wp_bind, wp_bind, wp_gets. cbn [this m_quad_mesh]. rewrite Hq. apply wp_deref.
  do 2 (apply wp_bind; frame n data).
  cbn [for_each].
  apply wp_bind.
  do 4 (apply wp_bind; do 2 (apply wp_bind; frame n data); frame n data).
  apply wp_ret.
  (* Draw *)
  apply wp_bind, wp_bind, wp_gets. cbn [this m_instance_buffer]. apply wp_deref.
  cbn [instance_count].
  pose (drawn := fun w : World => holds n data w /\ draw ∈ gl_trace w).
  assert (forall A (c : GLCall A) (w : World),
            touches_buffers c = false -> drawn w ->
            drawn (mkWorld (snd (gl_step c (gl w))) (gl_trace w ++ [gl_event c]) (stderr w)))
    as Hdrawn.
  { intros A c w0 Ht [Hh Hd]. split; [by apply holds_call|].
    cbn [gl_trace]. apply elem_of_app. by left. }
  apply wp_bind, (wp_call_inv _ (holds n data) drawn); [assumption | |].
  { intros w0 Hh. split; [by apply holds_call|].
    cbn [gl_trace]. apply elem_of_app. right. by apply list_elem_of_singleton. }
  cbn [this world]. intros ? ? ?.
  (* Cleanup state *)
  do 3 (apply wp_bind, (wp_call_inv _ drawn drawn);
        [assumption | intros ? ?; by apply Hdrawn | cbn [this world]; intros ? ? ?]).
  destruct (negb _).
  - apply wp_in_world. cbn [world this]. eexists. split; [reflexivity|]. by split.
  - apply wp_ret. cbn [world this]. eexists. split; [reflexivity|]. by split.
Qed.

(** *** The pipeline builds *)

(** When both shaders compile and the program links, [Shader::create_program]
    returns a new, linked program that holds the two shaders. *)
Lemma Shader_create_program_ok (vs_src fs_src : string) (w : World) :
  build_succeeds vs_src fs_src ->
  wp (Shader_create_program vs_src fs_src)
     (fun p w' => p <> 0%N
                  /\ gl_programs (gl w) !! p = None
                  /\ (exists pr, gl_programs (gl w') !! p = Some pr /\ pr_link_status pr = true)
                  /\ stderr w' = stderr w) w.
Proof.
  intros (vs_log & fs_log & log & Hvs & Hfs & Hlink). unfold Shader_create_program.
  apply wp_bind. eapply wp_mono; [|by apply Shader_compile_ok].
  intros vs w1 (-> & Hgl1 & Herr1). cbv beta.
  apply wp_bind. eapply wp_mono; [|by apply Shader_compile_ok].
  intros fs w2 (-> & Hgl2 & Herr2). cbv beta.
  destruct (fresh_object_spec (gl w1)) as (_ & Hfs_sh & _).
  destruct (fresh_object_spec (gl w2)) as (Hp_0 & Hp_sh & Hp_pr).
  rewrite Hgl2 in Hp_sh, Hp_pr. rewrite Hgl1 in Hfs_sh, Hp_sh, Hp_pr.
  destruct w as [st tr err], w1 as [st1 tr1 err1], w2 as [st2 tr2 err2].
  cbn [gl stderr] in *. subst st2 st1 err2 err1.
  set (vs := fresh_object st) in *.
  set (fs := fresh_object (with_shaders _ st)) in *.
  set (p := fresh_object (with_shaders _ (with_shaders _ st))) in *.
  destruct st as [rs bind bufs vaos shs progs glerr].
  gl_fields in *.
  apply lookup_insert_None in Hfs_sh as [Hfs_sh Hne_vs_fs].
  apply lookup_insert_None in Hp_sh as [Hp_sh Hne_fs_p].
  apply lookup_insert_None in Hp_sh as [Hp_sh Hne_vs_p].
  apply wp_bind, wp_call. gl_call. unfold fresh_object. gl_fields.
  change (fresh _) with p.
  apply wp_bind, wp_call. gl_call. gl_fields.
  rewrite lookup_insert_ne, lookup_insert_eq by done. gl_fields.
  rewrite alter_insert_eq. cbn [pr_attached pr_link_status pr_info_log pr_delete_status pr_uniforms app].
  apply wp_bind, wp_call. gl_call. gl_fields.
  rewrite lookup_insert_eq. gl_fields.
  rewrite alter_insert_eq. cbn [pr_attached pr_link_status pr_info_log pr_delete_status pr_uniforms app].
  apply wp_bind, wp_call. gl_call. gl_fields.
  rewrite alter_insert_eq. unfold attached_sources. gl_fields.
  cbn [pr_attached pr_link_status pr_info_log pr_delete_status pr_uniforms omap list_omap].
  rewrite lookup_insert_ne, !lookup_insert_eq by done.
  cbn [mbind option_bind sh_type sh_source]. rewrite Hlink. cbn [fst snd].
  apply wp_bind, wp_call. gl_call. gl_fields.
  rewrite attached_insert by (cbn [pr_attached]; rewrite !elem_of_cons; auto).
  apply wp_bind, wp_call. gl_call. gl_fields.
  rewrite attached_insert by (cbn [pr_attached]; rewrite !elem_of_cons; auto).
  apply wp_bind, wp_call. gl_call. gl_fields.
  rewrite lookup_insert_eq. cbn [pr_link_status Z_of_bool Z.eqb].
  apply wp_ret. cbn [gl gl_programs stderr].
  split; [done|]. split; [done|]. split; [|done].
  rewrite lookup_insert_eq. eauto.
Qed.

Lemma wp_try_catch {S A} (body : M S A) (handler : exn -> M S A)
    (Q : A -> S -> Prop) (s : S) :
  wp body Q s -> wp (try_catch body handler) Q s.
Proof. unfold wp, try_catch. by destruct (body s). Qed.

Lemma returns_VertexArray_new : returns VertexArray_new.
Proof. apply returns_bind; [apply returns_call | intros; apply returns_ret]. Qed.

Lemma returns_VertexArray_delete (v : VertexArray) : returns (VertexArray_delete v).
Proof. unfold VertexArray_delete. case (negb _); [apply returns_call | apply returns_ret]. Qed.

Lemma returns_QuadMesh_new : returns QuadMesh_new.
Proof.
  unfold QuadMesh_new.
  apply returns_bind; [apply returns_VertexArray_new | intros vao].
  apply returns_bind; [apply returns_Buffer_new | intros vbo].
  repeat (apply returns_bind; [first [apply returns_call | apply returns_Buffer_set_data] | intros _]).
  apply returns_ret.
Qed.

Lemma returns_QuadMesh_delete (q : QuadMesh) : returns (QuadMesh_delete q).
Proof.
  apply returns_bind; [apply returns_Buffer_delete | intros _; apply returns_VertexArray_delete].
Qed.

(** With a driver that builds the pipeline, [init] returns and leaves the
    renderer ready to draw, with a program of its own. *)
Lemma init_initialises (width height : Z) (e : Env) :
  build_succeeds vs_src fs_src ->
  wp (init width height)
     (fun _ e' => frame_ready e'
                  /\ m_program (this e') <> 0%N
                  /\ m_viewport_width (this e') = width
                  /\ m_viewport_height (this e') = height) e.
Proof.
  intros Hbuild. destruct e as [r w]. unfold init.
  apply wp_bind, wp_modify. cbn [this world].
  apply wp_bind. unfold create_shader_program.
  apply wp_try_catch, wp_bind, wp_in_world. cbn [world this].
  eapply wp_mono; [|by apply Shader_create_program_ok].
  intros p w1 (Hp & _). cbv beta. apply wp_modify. cbn [this world].
  apply wp_bind, wp_in_world_returns; [apply returns_QuadMesh_new|]. intros q w2.
  apply wp_bind, wp_gets. cbn [this world m_quad_mesh].
  apply wp_bind, wp_modify. cbn [this world].
  apply wp_bind, wp_in_world_returns; [apply returns_reset, returns_QuadMesh_delete|].
  intros _ w3.
  apply wp_bind, wp_gets. cbn [this world].
  apply wp_bind, wp_modify. cbn [this world].
  apply wp_in_world_returns.
  { apply returns_reset. intros ib. apply returns_reset, returns_Buffer_delete. }
  intros _ w4. cbn [this m_program m_viewport_width m_viewport_height m_quad_mesh
                      m_instance_buffer].
  unfold frame_ready, initialised. cbn [this m_quad_mesh m_instance_buffer].
  repeat split; eauto. by intros ib b [= <-].
Qed.

(** Start-up followed by a first frame. *)
Lemma first_frame (width height : Z) (scene : Scene float) (view projection : mat4 float)
    (e : Env) :
  build_succeeds vs_src fs_src ->
  get_gaussians scene <> [] ->
  exists (e1 e2 : Env) (b : Buffer),
    init width height e = Ok tt e1
    /\ render_scene scene view projection e1 = Ok tt e2
    /\ m_instance_buffer (this e2)
       = Some (mkInstanceBuffer (Some b) (length (get_gaussians scene)))
    /\ holds (Buffer_m_vbo b)
             (floats_of_instances (pack_instances 0%R (get_gaussians scene))) (world e2).
Proof.
  intros Hbuild Hne.
  destruct (wp_elim _ _ _ (init_initialises width height e Hbuild))
    as ([] & e1 & Hinit & Hready & _).
  destruct (render_scene_uploads scene view projection e1 Hne Hready)
    as (e2 & b & Hrender & _ & Hib & Hholds & _).
  eauto 8.
Qed.

End PipelineFacts.

(** An empty scene, rendered before [init] has even run. *)
Lemma render_scene_empty_witness :
  @render_scene accepting_driver (mkScene []) mat4_identity mat4_identity
                (mkEnv Renderer_new world_initial)
  = Ok tt (mkEnv Renderer_new world_initial).
Proof.
  apply (@render_scene_empty accepting_driver (mkScene [])). reflexivity.
Defined.

(** One red splat on a ready renderer. *)
Lemma render_scene_restores_witness :
  exists e' : Env,
    @render_scene accepting_driver (mkScene [red_splat]) mat4_identity mat4_identity
                  (mkEnv renderer_ready world_initial) = Ok tt e'
    /\ depth_mask (gl_render (gl (world e'))) = true
    /\ blend (gl_render (gl (world e'))) = false.
Proof.
  apply (@render_scene_restores accepting_driver (mkScene [red_splat])).
  - discriminate.
  - split; eexists; reflexivity.
Defined.

(** A fresh context is well formed. *)
Lemma gl_wf_initial : gl_wf gl_initial.
Proof.
  split; [|by left]. intros p pr s Hp. cbn in Hp. by rewrite lookup_empty in Hp.
Qed.

(** Start-up on a driver that rejects the vertex shader. *)
Lemma shader_failure_is_fatal_witness :
  exists (msg : string) (e' : Env),
    @create_shader_program rejecting_driver (mkEnv Renderer_new world_initial)
    = Throw (runtime_error msg) e'
    /\ contains_text msg "0:1(1): error: syntax error".
Proof.
  destruct (@shader_failure_is_fatal rejecting_driver "0:1(1): error: syntax error"
              (mkEnv Renderer_new world_initial))
    as (msg & e' & Hthrow & Hmsg & _).
  - left. reflexivity.
  - exact gl_wf_initial.
  - exists msg, e'. by split.
Defined.

(** ** The scene loader *)

Section SceneIOFacts.
Context `{FileSystem}.
Context {S : Type}.
Import SceneFormat.
Open Scope R_scope.

Lemma lit_0 : 0.0 = 0.
Proof. lra. Qed.

Lemma lit_1 : 1.0 = 1.
Proof. lra. Qed.

Lemma get_float_number (j : json) (x : float) (s : S) :
  number j = Some x -> Json.get_float j s = Ok x s.
Proof. destruct j; intros [= <-]; reflexivity. Qed.

Lemma vec3_of_json_floats (l : list json) (v : vec3 float) (s : S) :
  floats3 l = Some v -> vec3_of_json (JArray l) s = Ok v s.
Proof.
  destruct l as [|a [|b [|c l]]]; try discriminate. cbn [floats3].
  destruct (number a) as [x|] eqn:Ha; [|discriminate].
  destruct (number b) as [y|] eqn:Hb; [|discriminate].
  destruct (number c) as [z|] eqn:Hc; [|discriminate].
  intros [= <-]. unfold vec3_of_json, mbind, M_bind. cbn.
  by rewrite (get_float_number a x), (get_float_number b y), (get_float_number c z).
Qed.

Lemma quat_of_json_floats (l : list json) (q : glm.quat float) (s : S) :
  floats4 l = Some q -> quat_of_json (JArray l) s = Ok q s.
Proof.
  destruct l as [|a [|b [|c [|d l]]]]; try discriminate. cbn [floats4].
  destruct (number a) as [w|] eqn:Ha; [|discriminate].
  destruct (number b) as [x|] eqn:Hb; [|discriminate].
  destruct (number c) as [y|] eqn:Hc; [|discriminate].
  destruct (number d) as [z|] eqn:Hd; [|discriminate].
  intros [= <-]. unfold quat_of_json, mbind, M_bind. cbn.
  by rewrite (get_float_number a w), (get_float_number b x), (get_float_number c y),
       (get_float_number d z).
Qed.

Lemma has_array_some (n : nat) (item : json) (key : string) (l : list json) (s : S) :
  array_field n item key = Some l ->
  has_array item key n s = Ok true s /\ Json.at_key item key s = Ok (JArray l) s.
Proof.
  unfold array_field, has_array, Json.contains, Json.at_key.
  destruct item as [| | | | | |m]; try discriminate.
  destruct (m !! key) as [v|] eqn:Hv; [|discriminate].
  destruct v as [| | | | |l'|]; try discriminate.
  case_bool_decide as Hlen; [|discriminate]. intros [= ->].
  rewrite bool_decide_eq_true_2 by eauto.
  unfold mbind, M_bind. cbn. by rewrite bool_decide_eq_true_2.
Qed.

Lemma has_array_none (n : nat) (item : json) (key : string) (s : S) :
  array_field n item key = None -> has_array item key n s = Ok false s.
Proof.
  unfold array_field, has_array, Json.contains, Json.at_key.
  destruct item as [| | | | | |m]; try reflexivity.
  destruct (m !! key) as [v|] eqn:Hv.
  - rewrite bool_decide_eq_true_2 by eauto. unfold mbind, M_bind. cbn.
    destruct v as [| | | | |l'|]; try reflexivity.
    case_bool_decide as Hlen; [discriminate|]. intros _.
    cbn. by rewrite bool_decide_eq_false_2.
  - intros _. rewrite bool_decide_eq_false_2; [reflexivity|]. by intros [? ?].
Qed.

Lemma has_number_some (item : json) (key : string) (v : json) (s : S) :
  number_field item key = Some v ->
  has_number item key s = Ok true s /\ Json.at_key item key s = Ok v s.
Proof.
  unfold number_field, has_number, Json.contains, Json.at_key.
  destruct item as [| | | | | |m]; try discriminate.
  destruct (m !! key) as [v'|] eqn:Hv; [|discriminate].
  destruct (Json.is_number v') eqn:Hnum; [|discriminate]. intros [= ->].
  rewrite bool_decide_eq_true_2 by eauto.
  unfold mbind, M_bind. cbn. by rewrite Hnum.
Qed.

Lemma has_number_none (item : json) (key : string) (s : S) :
  number_field item key = None -> has_number item key s = Ok false s.
Proof.
  unfold number_field, has_number, Json.contains, Json.at_key.
  destruct item as [| | | | | |m]; try reflexivity.
  destruct (m !! key) as [v|] eqn:Hv.
  - rewrite bool_decide_eq_true_2 by eauto. unfold mbind, M_bind. cbn.
    destruct (Json.is_number v); [discriminate | reflexivity].
  - intros _. rewrite bool_decide_eq_false_2; [reflexivity|]. by intros [? ?].
Qed.

Lemma contains_array_field (n : nat) (item : json) (key : string) (l : list json) :
  array_field n item key = Some l -> Json.contains item key = true.
Proof.
  unfold array_field, Json.contains.
  destruct item as [| | | | | |m]; try discriminate.
  destruct (m !! key) as [v|] eqn:Hv; [|discriminate]. intros _.
  apply bool_decide_eq_true_2. eauto.
Qed.

(** An optional array field, read with a fallback. *)
Lemma optional_vec3 (item : json) (key : string) (fallback : M S (vec3 float))
    (v : vec3 float) (s : S) :
  match array_field 3 item key with
  | Some l => floats3 l = Some v
  | None => fallback s = Ok v s
  end ->
  (has_array item key 3
   ≫= fun b : bool => if b then Json.at_key item key ≫= vec3_of_json else fallback) s
  = Ok v s.
Proof.
  unfold mbind, M_bind. destruct (array_field 3 item key) as [l|] eqn:Hf; intros Hv.
  - destruct (has_array_some _ _ _ _ s Hf) as [-> ->]. by apply vec3_of_json_floats.
  - by rewrite (has_array_none _ _ _ s Hf).
Qed.

Lemma bind_optional_vec3 {B} (item : json) (key : string) (fallback : M S (vec3 float))
    (k : vec3 float -> M S B) (v : vec3 float) (s : S) :
  match array_field 3 item key with
  | Some l => floats3 l = Some v
  | None => fallback s = Ok v s
  end ->
  (has_array item key 3
   ≫= fun b : bool =>
        (if b then Json.at_key item key ≫= vec3_of_json else fallback) ≫= k) s
  = k v s.
Proof.
  intros Hv. pose proof (optional_vec3 item key fallback v s Hv) as Hopt.
  unfold mbind, M_bind in *. destruct (has_array item key 3 s) as [b s'| |]; try discriminate.
  destruct b; by rewrite Hopt.
Qed.

Lemma bind_optional_quat {B} (item : json) (key : string) (fallback : glm.quat float)
    (k : glm.quat float -> M S B) (q : glm.quat float) (s : S) :
  match array_field 4 item key with
  | Some l => floats4 l = Some q
  | None => fallback = q
  end ->
  (has_array item key 4
   ≫= fun b : bool =>
        (if b then Json.at_key item key ≫= quat_of_json else mret fallback) ≫= k) s
  = k q s.
Proof.
  unfold mbind, M_bind. destruct (array_field 4 item key) as [l|] eqn:Hf; intros Hq.
  - destruct (has_array_some _ _ _ _ s Hf) as [-> ->]. by rewrite (quat_of_json_floats _ _ _ Hq).
  - rewrite (has_array_none _ _ _ s Hf). by subst.
Qed.

Lemma bind_optional_number {B} (item : json) (key : string) (fallback : float)
    (k : float -> M S B) (x : float) (s : S) :
  match number_field item key with
  | Some v => number v = Some x
  | None => fallback = x
  end ->
  (has_number item key
   ≫= fun b : bool =>
        (if b then Json.at_key item key ≫= Json.get_float else mret fallback) ≫= k) s
  = k x s.
Proof.
  unfold mbind, M_bind. destruct (number_field item key) as [v|] eqn:Hf; intros Hx.
  - destruct (has_number_some _ _ _ s Hf) as [-> ->]. by rewrite (get_float_number _ _ _ Hx).
  - rewrite (has_number_none _ _ s Hf). by subst.
Qed.

(** The loader returns the Gaussian the entry denotes. *)
Lemma load_gaussian_expected (item : json) (g : Gaussian3D float) (s : S) :
  expected_gaussian item = Some g -> load_gaussian item s = Ok g s.
Proof.
  unfold expected_gaussian. intros Hexp.
  destruct (array_field 3 item "color") as [c|] eqn:Hc; [|discriminate]. cbn in Hexp.
  destruct (floats3 c) as [g_color|] eqn:Hcol; [|discriminate]. cbn in Hexp.
  unfold load_gaussian. rewrite (contains_array_field _ _ _ _ Hc). cbn [negb].
  destruct (has_array_some _ _ _ _ s Hc) as [_ Hcolor].
  unfold mbind at 1, M_bind at 1. unfold mbind at 1, M_bind at 1.
  rewrite Hcolor, (vec3_of_json_floats _ _ _ Hcol).
  destruct (match array_field 3 item "mean" with Some l => _ | None => _ end)
    as [g_mean|] eqn:Hmean; [|discriminate]. cbn in Hexp.
  destruct (match array_field 3 item "scale" with Some l => _ | None => _ end)
    as [g_scale|] eqn:Hscale; [|discriminate]. cbn in Hexp.
  destruct (match array_field 4 item "rotation" with Some l => _ | None => _ end)
    as [g_rotation|] eqn:Hrot; [|discriminate]. cbn in Hexp.
  destruct (match number_field item "opacity" with Some v => _ | None => _ end)
    as [g_opacity|] eqn:Hop; [|discriminate]. cbn in Hexp.
  injection Hexp as <-.
  rewrite (bind_optional_vec3 item "mean" _ _ g_mean); cycle 1.
  { destruct (array_field 3 item "mean"); [done|].
    apply optional_vec3.
    destruct (array_field 3 item "position"); [done|].
    injection Hmean as <-. by rewrite lit_0. }
  rewrite (bind_optional_vec3 item "scale" _ _ g_scale); cycle 1.
  { destruct (array_field 3 item "scale"); [done|]. injection Hscale as <-. by rewrite lit_1. }
  rewrite (bind_optional_quat item "rotation" _ _ g_rotation); cycle 1.
  { destruct (array_field 4 item "rotation"); [done|]. injection Hrot as <-.
    by rewrite lit_0, lit_1. }
  rewrite (bind_optional_number item "opacity" _ _ g_opacity); cycle 1.
  { destruct (number_field item "opacity"); [done|]. injection Hop as <-. by rewrite lit_1. }
  reflexivity.
Qed.

Lemma load_gaussian_missing_color (item : json) (s : S) :
  Json.contains item "color" = false ->
  load_gaussian item s = Throw (runtime_error "Gaussian missing 'color' field") s.
Proof. intros Hc. unfold load_gaussian. by rewrite Hc. Qed.

(** The loop over entries that all denote Gaussians pushes them back in
    order. *)
Lemma load_gaussians_expected (items : list json) (gs acc : list (Gaussian3D float)) (s : S) :
  mapM expected_gaussian items = Some gs ->
  load_gaussians items acc s = Ok (acc ++ gs) s.
Proof.
  rewrite mapM_Some. intros Hall. revert acc.
  induction Hall as [|item g items gs Hg _ IH]; intros acc; cbn [load_gaussians].
  - by rewrite app_nil_r.
  - unfold mbind, M_bind. rewrite (load_gaussian_expected _ _ _ Hg).
    rewrite IH. by rewrite <- app_assoc.
Qed.

(** The loop stops at the first entry without a colour. *)
Lemma load_gaussians_missing_color (pre post : list json) (item : json)
    (gs acc : list (Gaussian3D float)) (s : S) :
  mapM expected_gaussian pre = Some gs ->
  Json.contains item "color" = false ->
  load_gaussians (pre ++ item :: post) acc s
  = Throw (runtime_error "Gaussian missing 'color' field") s.
Proof.
  rewrite mapM_Some. intros Hall Hc. revert acc.
  induction Hall as [|item' g items gs' Hg _ IH]; intros acc; cbn [load_gaussians app].
  - unfold mbind, M_bind. by rewrite (load_gaussian_missing_color _ _ Hc).
  - unfold mbind at 1, M_bind at 1. rewrite (load_gaussian_expected _ _ _ Hg). apply IH.
Qed.

(** However the other entries look, an entry without a colour keeps the
    loop from returning. *)
Lemma load_gaussians_never_returns (items : list json) (acc : list (Gaussian3D float)) (s : S) :
  Exists (fun item => Json.contains item "color" = false) items ->
  forall gs s', load_gaussians items acc s <> Ok gs s'.
Proof.
  intros Hex. revert acc s.
  induction Hex as [item items Hc | item items _ IH]; intros acc s gs s';
    cbn [load_gaussians]; unfold mbind, M_bind.
  - by rewrite (load_gaussian_missing_color _ _ Hc).
  - destruct (load_gaussian item s) as [g s1| |]; [apply IH | done | done].
Qed.

(** [load_scene_json] on a file that parses. *)
Lemma load_scene_json_no_array (filepath text : string) (j : json) (s : S) :
  file_contents filepath = Some text ->
  json_parse text = Some j ->
  array_field 0 j "gaussians" = None ->
  load_scene_json filepath s
  = Throw (runtime_error ("JSON missing 'gaussians' array: " +:+ filepath)) s.
Proof.
  intros Hfile Hparse Harr. unfold load_scene_json. rewrite Hfile, Hparse.
  unfold array_field in Harr. unfold mbind, M_bind, Json.contains, Json.at_key.
  destruct j as [| | | | | |m]; try reflexivity.
  destruct (m !! "gaussians") as [v|] eqn:Hv.
  - rewrite bool_decide_eq_true_2 by eauto. cbn.
    destruct v; try reflexivity. by rewrite bool_decide_eq_true_2 in Harr by lia.
  - rewrite bool_decide_eq_false_2; [reflexivity|]. by intros [? ?].
Qed.

Lemma load_scene_json_array (filepath text : string) (j : json) (items : list json) (s : S) :
  file_contents filepath = Some text ->
  json_parse text = Some j ->
  array_field 0 j "gaussians" = Some items ->
  load_scene_json filepath s
  = (load_gaussians items [] ≫= fun gaussians => mret (mkScene gaussians)) s.
Proof.
  intros Hfile Hparse Harr. unfold load_scene_json. rewrite Hfile, Hparse.
  unfold array_field in Harr. unfold mbind at 1 2 3, M_bind at 1 2 3, Json.contains, Json.at_key.
  destruct j as [| | | | | |m]; try discriminate.
  destruct (m !! "gaussians") as [v|] eqn:Hv; [|discriminate].
  destruct v as [| | | | |l|]; try discriminate.
  rewrite bool_decide_eq_true_2 in Harr by lia.
  injection Harr as ->.
  cbn [negb orb Json.is_array].
  rewrite bool_decide_eq_true_2 by eauto. reflexivity.
Qed.

(** What the defaults are, and that values are taken as they are. *)
Lemma expected_gaussian_fields (item : json) (g : Gaussian3D float) :
  expected_gaussian item = Some g ->
  (array_field 3 item "color" ≫= floats3 = Some (color g))
  /\ (array_field 3 item "mean" = None -> array_field 3 item "position" = None ->
      mean g = Vec3 0 0 0)
  /\ (array_field 3 item "scale" = None -> scale g = Vec3 1 1 1)
  /\ (array_field 4 item "rotation" = None -> rotation g = Quat 0 0 0 1)
  /\ (number_field item "opacity" = None -> opacity g = 1)
  /\ (forall l, array_field 3 item "mean" = Some l -> floats3 l = Some (mean g))
  /\ (forall l, array_field 3 item "mean" = None -> array_field 3 item "position" = Some l ->
                floats3 l = Some (mean g))
  /\ (forall l, array_field 3 item "scale" = Some l -> floats3 l = Some (scale g))
  /\ (forall l, array_field 4 item "rotation" = Some l -> floats4 l = Some (rotation g))
  /\ (forall v, number_field item "opacity" = Some v -> number v = Some (opacity g)).
Proof.
  unfold expected_gaussian.
  destruct (array_field 3 item "color") as [c|]; cbn; [|discriminate].
  destruct (floats3 c) as [g_color|]; cbn; [|discriminate].
  destruct (match array_field 3 item "mean" with Some l => _ | None => _ end)
    as [g_mean|] eqn:Hmean; cbn; [|discriminate].
  destruct (match array_field 3 item "scale" with Some l => _ | None => _ end)
    as [g_scale|] eqn:Hscale; cbn; [|discriminate].
  destruct (match array_field 4 item "rotation" with Some l => _ | None => _ end)
    as [g_rotation|] eqn:Hrot; cbn; [|discriminate].
  destruct (match number_field item "opacity" with Some v => _ | None => _ end)
    as [g_opacity|] eqn:Hop; cbn; [|discriminate].
  intros Hexp.
  injection Hexp as <-. cbn [mean scale rotation opacity color].
  repeat split.
  - intros Hm Hp. rewrite Hm, Hp in Hmean. congruence.
  - intros Hs. rewrite Hs in Hscale. congruence.
  - intros Hr. rewrite Hr in Hrot. unfold mk_quat in Hrot. congruence.
  - intros Ho. rewrite Ho in Hop. congruence.
  - intros l Hm. by rewrite Hm in Hmean.
  - intros l Hm Hp. by rewrite Hm, Hp in Hmean.
  - intros l Hs. by rewrite Hs in Hscale.
  - intros l Hr. by rewrite Hr in Hrot.
  - intros v Ho. by rewrite Ho in Hop.
Qed.

(** C10, as the loader has it.  [load_scene_json] throws when the document
    has no ["gaussians"] array; it never returns when an entry has no
    ["color"], and throws for the first such entry when the entries before
    it load.  An entry whose ["color"] is an array of at least three
    numbers, and whose consulted arrays hold numbers, loads with: [mean]
    from ["mean"], else from ["position"], else (0,0,0); [scale] (1,1,1),
    [rotation] the identity (w = 1) and [opacity] 1 when the field is
    absent or is not an array of enough elements, respectively not a
    number; every value that is read is stored as it is. *)
Theorem load_scene_json_spec :
  (forall (filepath text : string) (j : json) (s : S),
     file_contents filepath = Some text ->
     json_parse text = Some j ->
     array_field 0 j "gaussians" = None ->
     load_scene_json filepath s
     = Throw (runtime_error ("JSON missing 'gaussians' array: " +:+ filepath)) s)
  /\ (forall (filepath text : string) (j : json) (items : list json) (s : S),
        file_contents filepath = Some text ->
        json_parse text = Some j ->
        array_field 0 j "gaussians" = Some items ->
        Exists (fun item => Json.contains item "color" = false) items ->
        forall scene s', load_scene_json filepath s <> Ok scene s')
  /\ (forall (filepath text : string) (j : json) (pre post : list json) (item : json)
             (gs : list (Gaussian3D float)) (s : S),
        file_contents filepath = Some text ->
        json_parse text = Some j ->
        array_field 0 j "gaussians" = Some (pre ++ item :: post) ->
        mapM expected_gaussian pre = Some gs ->
        Json.contains item "color" = false ->
        load_scene_json filepath s
        = Throw (runtime_error "Gaussian missing 'color' field") s)
  /\ (forall (filepath text : string) (j : json) (items : list json)
             (gs : list (Gaussian3D float)) (s : S),
        file_contents filepath = Some text ->
        json_parse text = Some j ->
        array_field 0 j "gaussians" = Some items ->
        mapM expected_gaussian items = Some gs ->
        load_scene_json filepath s = Ok (mkScene gs) s)
  /\ (forall (item : json) (g : Gaussian3D float) (s : S),
        expected_gaussian item = Some g ->
        load_gaussian item s = Ok g s
        /\ (array_field 3 item "color" ≫= floats3 = Some (color g))
        /\ (array_field 3 item "mean" = None -> array_field 3 item "position" = None ->
            mean g = Vec3 0 0 0)
        /\ (array_field 3 item "scale" = None -> scale g = Vec3 1 1 1)
        /\ (array_field 4 item "rotation" = None -> rotation g = Quat 0 0 0 1)
        /\ (number_field item "opacity" = None -> opacity g = 1)
        /\ (forall l, array_field 3 item "mean" = Some l -> floats3 l = Some (mean g))
        /\ (forall l, array_field 3 item "mean" = None ->
                      array_field 3 item "position" = Some l -> floats3 l = Some (mean g))
        /\ (forall l, array_field 3 item "scale" = Some l -> floats3 l = Some (scale g))
        /\ (forall l, array_field 4 item "rotation" = Some l -> floats4 l = Some (rotation g))
        /\ (forall v, number_field item "opacity" = Some v -> number v = Some (opacity g))).
Proof.
  split; [exact load_scene_json_no_array|].
  split.
  { intros filepath text j items s Hfile Hparse Harr Hex scene s'.
    rewrite (load_scene_json_array _ _ _ _ s Hfile Hparse Harr).
    unfold mbind, M_bind.
    destruct (load_gaussians items [] s) as [gs s1| |] eqn:Hload; try done.
    by destruct (load_gaussians_never_returns items [] s Hex gs s1). }
  split.
  { intros filepath text j pre post item gs s Hfile Hparse Harr Hpre Hc.
    rewrite (load_scene_json_array _ _ _ _ s Hfile Hparse Harr).
    unfold mbind, M_bind.
    by rewrite (load_gaussians_missing_color pre post item gs [] s Hpre Hc). }
  split.
  { intros filepath text j items gs s Hfile Hparse Harr Hall.
    rewrite (load_scene_json_array _ _ _ _ s Hfile Hparse Harr).
    unfold mbind, M_bind.
    by rewrite (load_gaussians_expected items gs [] s Hall). }
  intros item g s Hexp. split; [by apply load_gaussian_expected|].
  by apply expected_gaussian_fields.
Qed.

End SceneIOFacts.

(** The claim as first stated fails on the loader: an entry with a colour
    and no ["mean"] takes its mean from ["position"], not the default; an
    entry whose ["mean"] holds three strings is not given the default mean
    either, the loader throws; and an entry without a colour that comes
    after one whose colour is too short is never reached, the loader has
    indexed that colour out of range by then. *)
Lemma load_defaults_counterexample :
  Json.contains entry_with_position "color" = true
  /\ Json.contains entry_with_position "mean" = false
  /\ (exists g : Gaussian3D float,
        load_gaussian entry_with_position tt = Ok g tt
        /\ mean g = Vec3 1 2 3 /\ mean g <> Vec3 0 0 0)%R
  /\ Json.contains entry_with_text_mean "color" = true
  /\ load_gaussian entry_with_text_mean tt = Throw (json_type_error 302) tt
  /\ Json.contains entry_empty "color" = false
  /\ load_gaussians [entry_short_color; entry_empty] [] tt = Undefined.
Proof.
  split; [reflexivity|]. split; [reflexivity|]. split.
  - eexists. split; [vm_compute; reflexivity|]. split; [reflexivity|].
    cbn [mean]. intros [= Hx _ _]. lra.
  - repeat split; reflexivity.
Qed.

(** [scene.json] loads into its two Gaussians, in order. *)
Lemma load_scene_json_spec_witness :
  @load_scene_json sample_files unit "scene.json" tt
  = Ok (mkScene [ mkGaussian3D (Vec3 0 0 0) (Vec3 1 1 1) (Quat 0 0 0 1) 1 (Vec3 1 0 0);
                  mkGaussian3D (Vec3 1 2 3) (Vec3 1 1 1) (Quat 0 0 0 1) 0.5 (Vec3 0 1 0) ]%R) tt.
Proof.
  destruct (@load_scene_json_spec sample_files unit) as (_ & _ & _ & Hload & _).
  apply (Hload "scene.json" sample_text sample_document
               [entry_color_only; entry_with_position_and_opacity]);
    reflexivity.
Defined.

(* ===================================================================== *)
(** * Part III: further properties of the code                            *)
(* ===================================================================== *)

(** ** The two stages together *)

Module GlslMore.
Import Glsl.
Open Scope R_scope.

Lemma clamp_unit_range (x : float) : 0 <= clamp x 0 1 <= 1.
Proof.
  unfold clamp. split.
  - apply Rmin_glb; [apply Rmax_r | lra].
  - apply Rmin_r.
Qed.

Lemma clamp_unit_mono (x y : float) : x <= y -> clamp x 0 1 <= clamp y 0 1.
Proof. intros Hxy. unfold clamp. by apply Rle_min_compat_r, Rle_max_compat_r. Qed.

(** Between 0 and the opacity, for a non-negative opacity. *)
Lemma fs_alpha_range (p : vec2 float) (op : float) :
  0 <= op -> 0 <= fs_alpha p op <= op.
Proof.
  intros Hop. rewrite GlslFacts.fs_alpha_unfold.
  pose proof (clamp_unit_range (1 - dot2 p p)) as [Hp0 Hp1].
  set (t := clamp (1 - dot2 p p) 0 1) in *.
  assert (0 <= t * t <= 1) as [Htt0 Htt1] by nra.
  rewrite !Rmult_assoc. split; nra.
Qed.

(** Below 0.03 for an opacity below 0.03. *)
Lemma fs_alpha_faint (p : vec2 float) (op : float) : op < 0.03 -> fs_alpha p op < 0.03.
Proof.
  intros Hop. destruct (Rle_dec 0 op) as [Hpos|Hneg].
  - pose proof (fs_alpha_range p op Hpos). lra.
  - rewrite GlslFacts.fs_alpha_unfold.
    pose proof (clamp_unit_range (1 - dot2 p p)) as [H0 H1].
    set (t := clamp (1 - dot2 p p) 0 1) in *.
    assert (0 <= t * t) by nra. rewrite Rmult_assoc. nra.
Qed.

(** X1.  For a non-negative opacity the fragment alpha lies between 0 and the
    opacity, and it does not grow with the distance from the quad
    center. *)
Theorem fs_alpha_falloff (p q : vec2 float) (op : float) :
  0 <= op ->
  0 <= fs_alpha p op <= op
  /\ (dot2 p p <= dot2 q q -> fs_alpha q op <= fs_alpha p op).
Proof.
  intros Hop. split; [by apply fs_alpha_range|].
  rewrite !GlslFacts.fs_alpha_unfold.
  pose proof (clamp_unit_range (1 - dot2 p p)) as [Hp0 Hp1].
  pose proof (clamp_unit_range (1 - dot2 q q)) as [Hq0 Hq1].
  set (t := clamp (1 - dot2 p p) 0 1) in *. set (u := clamp (1 - dot2 q q) 0 1) in *.
  rewrite !Rmult_assoc.
  intros Hpq.
  assert (u <= t) as Hle by (apply clamp_unit_mono; lra).
  assert (u * u <= t * t) by nra.
  nra.
Qed.

Lemma fs_alpha_falloff_witness :
  0 <= fs_alpha (Vec2 0 0) 1 <= 1
  /\ (dot2 (Vec2 0 0) (Vec2 0 0) <= dot2 (Vec2 1 0) (Vec2 1 0) ->
      fs_alpha (Vec2 1 0) 1 <= fs_alpha (Vec2 0 0) 1).
Proof. apply (fs_alpha_falloff (Vec2 0 0) (Vec2 1 0) 1). lra. Defined.


(** X3.  A fragment that is written lies strictly inside the unit disc of its
    quad, carries an alpha of at least 0.03 and a colour multiplied by that
    alpha; for an opacity of at most 1 the alpha is at most 1. *)
Theorem fs_main_written (p : vec2 float) (c : vec3 float) (op : float) (out : vec4 float) :
  fs_main p c op = Some out ->
  dot2 p p < 1
  /\ 0.03 <= w4 out
  /\ xyz out = Vec3 (x3 c * w4 out) (y3 c * w4 out) (z3 c * w4 out)
  /\ (op <= 1 -> w4 out <= 1).
Proof.
  unfold fs_main, fs_threshold.
  destruct (Rlt_dec (fs_alpha p op) 0.03) as [|Hge]; [discriminate|].
  intros [= <-]. cbn [w4 xyz x4 y4 z4 vec4_of scale3 x3 y3 z3].
  assert (0.03 <= fs_alpha p op) as Ha by lra.
  pose proof (clamp_unit_range (1 - dot2 p p)) as [H0 H1].
  repeat split; try done.
  - destruct (Rlt_dec (dot2 p p) 1) as [|Hout]; [done|].
    rewrite GlslFacts.fs_alpha_unfold in Ha. unfold clamp in Ha.
    rewrite (Rmax_right (1 - dot2 p p) 0), (Rmin_left 0 1) in Ha by lra. lra.
  - intros Hop. destruct (Rle_dec 0 op) as [Hpos|Hneg].
    + pose proof (fs_alpha_range p op Hpos). lra.
    + pose proof (fs_alpha_faint p op). lra.
Qed.

Lemma fs_main_written_witness :
  dot2 (Vec2 0 0) (Vec2 0 0) < 1
  /\ 0.03 <= w4 (Vec4 (1 * fs_alpha (Vec2 0 0) 1) (0 * fs_alpha (Vec2 0 0) 1)
                      (0 * fs_alpha (Vec2 0 0) 1) (fs_alpha (Vec2 0 0) 1)).
Proof.
  destruct (fs_main_written (Vec2 0 0) (Vec3 1 0 0) 1
              (Vec4 (1 * fs_alpha (Vec2 0 0) 1) (0 * fs_alpha (Vec2 0 0) 1)
                    (0 * fs_alpha (Vec2 0 0) 1) (fs_alpha (Vec2 0 0) 1)))
    as (Hin & Ha & _).
  - apply GlslFacts.fs_main_keep. rewrite GlslFacts.fs_alpha_center. lra.
  - by split.
Defined.

(** X4.  For a splat of non-negative scale, the billboard corner is moved from
    the mean by at most 0.015 times the depth along each camera axis: the
    clamped scale is within [0, 0.01 z] and the radius within [0, 1.5]. *)
Theorem vs_extent_bound (uView : mat4 float) (aQuadPos : vec2 float)
    (iMeanOpacity iScaleColorX : vec4 float) :
  -1 <= x2 aQuadPos <= 1 -> -1 <= y2 aQuadPos <= 1 ->
  0 <= x4 iScaleColorX -> 0 <= y4 iScaleColorX ->
  let z := vs_depth uView iMeanOpacity in
  let s := vs_scale uView iMeanOpacity iScaleColorX in
  let r := vs_radius (w4 iMeanOpacity) in
  Rabs (x2 aQuadPos * x2 s * r) <= 0.015 * z
  /\ Rabs (y2 aQuadPos * y2 s * r) <= 0.015 * z.
Proof.
  intros Hqx Hqy Hsx Hsy. cbv zeta.
  pose proof (GlslFacts.vs_radius_range (w4 iMeanOpacity)) as [Hr0 Hr1].
  assert (0.1 <= vs_depth uView iMeanOpacity) as Hz by apply Rmax_r.
  unfold vs_scale. cbn [min2 xy x2 y2].
  set (z := vs_depth uView iMeanOpacity) in *.
  set (r := vs_radius (w4 iMeanOpacity)) in *.
  assert (forall q a : R, -1 <= q <= 1 -> 0 <= a ->
                          Rabs (q * Rmin a (0.01 * z) * r) <= 0.015 * z) as Hbound.
  { intros q a Hq Ha.
    assert (0 <= Rmin a (0.01 * z) <= 0.01 * z) as [Hm0 Hm1].
    { split; [apply Rmin_glb; lra | apply Rmin_r]. }
    set (m := Rmin a (0.01 * z)) in *.
    assert (0 <= m * r <= 0.015 * z) as [Hmr0 Hmr1] by nra.
    rewrite Rmult_assoc. apply Rabs_le. split; nra. }
  split; by apply Hbound.
Qed.

Lemma vs_extent_bound_witness :
  let z := vs_depth mat4_identity (Vec4 0 0 0 1) in
  let s := vs_scale mat4_identity (Vec4 0 0 0 1) (Vec4 1 1 1 1) in
  let r := vs_radius 1 in
  Rabs (1 * x2 s * r) <= 0.015 * z /\ Rabs (1 * y2 s * r) <= 0.015 * z.
Proof.
  apply (vs_extent_bound mat4_identity (Vec2 1 1) (Vec4 0 0 0 1) (Vec4 1 1 1 1));
    cbn [x2 y2 x4 y4]; lra.
Defined.

End GlslMore.

(** ** Saving and loading scenes *)

Section SceneRoundTrip.
Context `{FileWriter}.
Import SceneFormat.

Lemma expected_saved_gaussian (g : Gaussian3D float) :
  expected_gaussian (json_of_gaussian g) = Some (reloaded g).
Proof. destruct g as [[] [] [] ? []]. reflexivity. Qed.

Lemma saved_loop_from (gs : list (Gaussian3D float)) (acc : list json) :
  fold_left (fun arr g => arr ++ [json_of_gaussian g]) gs acc
  = acc ++ (json_of_gaussian <$> gs).
Proof.
  revert acc. induction gs as [|g gs IH]; intros acc; cbn [fold_left fmap list_fmap].
  - by rewrite app_nil_r.
  - by rewrite IH, <- app_assoc.
Qed.

Lemma expected_saved_gaussians (gs : list (Gaussian3D float)) :
  mapM expected_gaussian (json_of_gaussian <$> gs) = Some (reloaded <$> gs).
Proof.
  apply mapM_Some. induction gs as [|g gs IH]; constructor; [|done].
  apply expected_saved_gaussian.
Qed.

Lemma save_then_load (filepath : string) (scene : Scene float) (files : gmap string string) :
  can_open_for_writing filepath = true ->
  save_scene_json filepath scene files = Ok tt (<[filepath := json_dump (json_of_scene scene) 2]> files)
  /\ forall (fs : FileSystem) (S : Type) (s : S),
       @file_contents fs filepath = Some (json_dump (json_of_scene scene) 2) ->
       @json_parse fs (json_dump (json_of_scene scene) 2) = Some (json_of_scene scene) ->
       @load_scene_json fs S filepath s = Ok (mkScene (reloaded <$> get_gaussians scene)) s.
Proof.
  intros Hopen. unfold save_scene_json. rewrite Hopen. cbn [negb].
  split; [reflexivity|]. intros fs S s Hread Hparse.
  rewrite (load_scene_json_array _ _ _ (json_of_gaussian <$> get_gaussians scene) s Hread Hparse).
  - unfold mbind, M_bind.
    by rewrite (load_gaussians_expected _ _ [] s (expected_saved_gaussians _)).
  - unfold array_field, json_of_scene. rewrite lookup_insert_eq, saved_loop_from. reflexivity.
Qed.

(** X5.  A scene that is saved and then loaded comes back with as many
    Gaussians, in order, each with its mean, scale, opacity and colour,
    and with the components of its rotation moved round: what was saved as
    x, y, z, w is read as w, x, y, z. *)
Theorem save_load_scene (filepath : string) (scene : Scene float)
    (files : gmap string string) :
  can_open_for_writing filepath = true ->
  exists files' : gmap string string,
    save_scene_json filepath scene files = Ok tt files'
    /\ (forall (fs : FileSystem) (S : Type) (s : S),
          (forall text, files' !! filepath = Some text ->
                        @file_contents fs filepath = Some text
                        /\ @json_parse fs text = Some (json_of_scene scene)) ->
          exists scene' : Scene float,
            @load_scene_json fs S filepath s = Ok scene' s
            /\ gaussian_count scene' = gaussian_count scene
            /\ forall i g, get_gaussians scene !! i = Some g ->
                  exists g', get_gaussians scene' !! i = Some g'
                             /\ mean g' = mean g /\ scale g' = scale g
                             /\ opacity g' = opacity g /\ color g' = color g
                             /\ rotation g' = Quat (qy (rotation g)) (qz (rotation g))
                                                    (qw (rotation g)) (qx (rotation g))).
Proof.
  intros Hopen. destruct (save_then_load filepath scene files Hopen) as [Hsave Hload].
  eexists. split; [exact Hsave|].
  intros fs S s Hfile.
  destruct (Hfile _ (lookup_insert_eq _ _ _)) as [Hread Hparse].
  exists (mkScene (reloaded <$> get_gaussians scene)).
  split; [by apply Hload|]. split.
  - unfold gaussian_count, get_gaussians. cbn [m_gaussians]. by rewrite length_fmap.
  - intros i g Hi. exists (reloaded g). split; [|by destruct g as [? ? [] ? ?]].
    unfold get_gaussians in *. cbn [m_gaussians]. by rewrite list_lookup_fmap, Hi.
Qed.

Lemma reloaded_fixed (g : Gaussian3D float) :
  reloaded g = g
  <-> qx (rotation g) = qy (rotation g) /\ qy (rotation g) = qz (rotation g)
      /\ qz (rotation g) = qw (rotation g).
Proof.
  destruct g as [m s [x y z w] o c]. unfold reloaded, mk_quat. cbn. split.
  - intros [= -> -> ->]. done.
  - intros (-> & -> & ->). done.
Qed.

Lemma reloaded_all_fixed (gs : list (Gaussian3D float)) :
  reloaded <$> gs = gs
  <-> Forall (fun g => qx (rotation g) = qy (rotation g)
                       /\ qy (rotation g) = qz (rotation g)
                       /\ qz (rotation g) = qw (rotation g)) gs.
Proof.
  split.
  - intros Heq. induction gs as [|g gs IH]; [constructor|].
    injection Heq as Hg Hgs. constructor; [by apply reloaded_fixed | by apply IH].
  - intros Hall. induction gs as [|g gs IH]; [reflexivity|].
    inversion Hall as [|? ? Hg Hgs]; subst. rewrite fmap_cons.
    f_equal; [by apply reloaded_fixed | by apply IH].
Qed.

(** X6.  The scene that comes back from a save and a load is the scene that
    was saved only when, in every Gaussian, the four components of the
    rotation are equal; a scene with an identity rotation (0, 0, 0, 1)
    does not come back. *)
Theorem save_load_identity_iff (filepath : string) (scene : Scene float)
    (files : gmap string string) (fs : FileSystem) (S : Type) (s : S) :
  can_open_for_writing filepath = true ->
  @file_contents fs filepath = Some (json_dump (json_of_scene scene) 2) ->
  @json_parse fs (json_dump (json_of_scene scene) 2) = Some (json_of_scene scene) ->
  exists (files' : gmap string string) (scene' : Scene float),
    save_scene_json filepath scene files = Ok tt files'
    /\ files' !! filepath = Some (json_dump (json_of_scene scene) 2)
    /\ @load_scene_json fs S filepath s = Ok scene' s
    /\ (scene' = scene
        <-> Forall (fun g => qx (rotation g) = qy (rotation g)
                             /\ qy (rotation g) = qz (rotation g)
                             /\ qz (rotation g) = qw (rotation g)) (get_gaussians scene)).
Proof.
  intros Hopen Hread Hparse.
  destruct (save_then_load filepath scene files Hopen) as [Hsave Hload].
  eexists _, _. split; [exact Hsave|]. split; [apply lookup_insert_eq|].
  split; [by apply Hload|].
  rewrite <- reloaded_all_fixed. destruct scene as [gs].
  unfold get_gaussians. cbn [m_gaussians]. split; [by intros [= ->] | by intros ->].
Qed.

End SceneRoundTrip.

(** The red splat is saved to [out.json] and read back with its rotation
    moved round: the identity (0, 0, 0, 1) becomes (0, 0, 1, 0). *)
Lemma save_load_scene_witness :
  exists files' : gmap string string,
    @save_scene_json sample_writer "out.json" (mkScene [red_splat]) ∅ = Ok tt files'
    /\ @load_scene_json sample_saved_files unit "out.json" tt
       = Ok (mkScene [(mkGaussian3D (Vec3 0 0 0) (Vec3 1 1 1) (Quat 0 0 1 0) 1 (Vec3 1 0 0))%R]) tt.
Proof.
  destruct (@save_load_scene sample_writer "out.json" (mkScene [red_splat]) ∅ eq_refl)
    as (files' & Hsave & Hload).
  exists files'. split; [exact Hsave|].
  destruct (Hload sample_saved_files unit tt) as (scene' & Hscene' & _).
  - intros text Htext. injection Hsave as <-.
    rewrite lookup_insert_eq in Htext. injection Htext as <-. by split.
  - rewrite Hscene'. by injection Hscene' as <-.
Defined.

(** The red splat, with its identity rotation, does not survive the round
    trip. *)
Lemma save_load_identity_iff_witness :
  exists (files' : gmap string string) (scene' : Scene float),
    @save_scene_json sample_writer "out.json" (mkScene [red_splat]) ∅ = Ok tt files'
    /\ @load_scene_json sample_saved_files unit "out.json" tt = Ok scene' tt
    /\ scene' <> mkScene [red_splat].
Proof.
  destruct (@save_load_identity_iff sample_writer "out.json" (mkScene [red_splat]) ∅
              sample_saved_files unit tt eq_refl eq_refl eq_refl)
    as (files' & scene' & Hsave & _ & Hload & Hiff).
  exists files', scene'. split; [exact Hsave|]. split; [exact Hload|].
  intros Heq. apply Hiff in Heq. inversion Heq as [|? ? (_ & _ & Hzw) _]; subst.
  cbn in Hzw. lra.
Defined.
Section LoaderExact.
Context `{FileSystem}.
Context {S : Type}.
Import SceneFormat.

Lemma get_float_outcome (j : json) (s : S) :
  Json.get_float j s
  = match number j with Some x => Ok x s | None => Throw (json_type_error 302) s end.
Proof. by destruct j. Qed.

(** What [glm::vec3(a[0], a[1], a[2])] does on any JSON value. *)
Lemma vec3_of_json_outcome (v : json) (s : S) :
  vec3_of_json v s
  = match v with
    | JArray (a :: b :: c :: l) =>
        match floats3 (a :: b :: c :: l) with
        | Some r => Ok r s
        | None => Throw (json_type_error 302) s
        end
    | JArray _ => Undefined
    | _ => Throw (json_type_error 305) s
    end.
Proof.
  destruct v as [| | | | |l|]; try reflexivity.
  destruct l as [|a [|b [|c l]]]; try reflexivity.
  unfold vec3_of_json, mbind, M_bind. cbn. rewrite !get_float_outcome.
  destruct (number a); cbn; [|done]. rewrite get_float_outcome.
  destruct (number b); cbn; [|done]. rewrite get_float_outcome.
  by destruct (number c).
Qed.

Lemma quat_of_json_array (l : list json) (s : S) :
  (4 <= length l)%nat ->
  quat_of_json (JArray l) s
  = match floats4 l with Some q => Ok q s | None => Throw (json_type_error 302) s end.
Proof.
  destruct l as [|a [|b [|c [|d l]]]]; cbn [length]; try lia. intros _.
  unfold quat_of_json, mbind, M_bind. cbn. rewrite !get_float_outcome.
  destruct (number a); cbn; [|done]. rewrite get_float_outcome.
  destruct (number b); cbn; [|done]. rewrite get_float_outcome.
  destruct (number c); cbn; [|done]. rewrite get_float_outcome.
  by destruct (number d).
Qed.

Lemma array_field_length (n : nat) (item : json) (key : string) (l : list json) :
  array_field n item key = Some l -> (n <= length l)%nat.
Proof.
  unfold array_field. destruct item; try discriminate.
  destruct (_ !! key) as [[]|]; try discriminate.
  case_bool_decide; [by intros [= <-] | discriminate].
Qed.

(** An optional array field followed by the rest of the loader. *)
Lemma bind_optional_vec3_outcome {B} (item : json) (key : string)
    (fallback : M S (vec3 float)) (k : vec3 float -> M S B) (s : S) :
  (has_array item key 3
   ≫= fun b : bool =>
        (if b then Json.at_key item key ≫= vec3_of_json else fallback) ≫= k) s
  = match array_field 3 item key with
    | Some l => match floats3 l with
                | Some r => k r s
                | None => Throw (json_type_error 302) s
                end
    | None => (fallback ≫= k) s
    end.
Proof.
  unfold mbind, M_bind. destruct (array_field 3 item key) as [l|] eqn:Hf.
  - destruct (has_array_some _ _ _ _ s Hf) as [-> ->].
    pose proof (array_field_length _ _ _ _ Hf) as Hlen.
    rewrite vec3_of_json_outcome.
    destruct l as [|a [|b [|c l]]]; cbn [length] in Hlen; try lia.
    by destruct (floats3 _).
  - by rewrite (has_array_none _ _ _ s Hf).
Qed.

Lemma optional_vec3_outcome (item : json) (key : string) (fallback : vec3 float) (s : S) :
  (has_array item key 3
   ≫= fun b : bool => if b then Json.at_key item key ≫= vec3_of_json else mret fallback) s
  = match array_field 3 item key with
    | Some l => match floats3 l with
                | Some r => Ok r s
                | None => Throw (json_type_error 302) s
                end
    | None => Ok fallback s
    end.
Proof.
  unfold mbind, M_bind. destruct (array_field 3 item key) as [l|] eqn:Hf.
  - destruct (has_array_some _ _ _ _ s Hf) as [-> ->].
    pose proof (array_field_length _ _ _ _ Hf) as Hlen.
    rewrite vec3_of_json_outcome.
    destruct l as [|a [|b [|c l]]]; cbn [length] in Hlen; try lia.
    by destruct (floats3 _).
  - by rewrite (has_array_none _ _ _ s Hf).
Qed.

Lemma bind_optional_quat_outcome {B} (item : json) (key : string)
    (fallback : glm.quat float) (k : glm.quat float -> M S B) (s : S) :
  (has_array item key 4
   ≫= fun b : bool =>
        (if b then Json.at_key item key ≫= quat_of_json else mret fallback) ≫= k) s
  = match array_field 4 item key with
    | Some l => match floats4 l with
                | Some q => k q s
                | None => Throw (json_type_error 302) s
                end
    | None => k fallback s
    end.
Proof.
  unfold mbind, M_bind. destruct (array_field 4 item key) as [l|] eqn:Hf.
  - destruct (has_array_some _ _ _ _ s Hf) as [-> ->].
    rewrite quat_of_json_array by (by eapply array_field_length).
    by destruct (floats4 l).
  - by rewrite (has_array_none _ _ _ s Hf).
Qed.

Lemma bind_optional_number_outcome {B} (item : json) (key : string) (fallback : float)
    (k : float -> M S B) (s : S) :
  (has_number item key
   ≫= fun b : bool =>
        (if b then Json.at_key item key ≫= Json.get_float else mret fallback) ≫= k) s
  = match number_field item key with
    | Some v => match number v with
                | Some x => k x s
                | None => Throw (json_type_error 302) s
                end
    | None => k fallback s
    end.
Proof.
  unfold mbind, M_bind. destruct (number_field item key) as [v|] eqn:Hf.
  - destruct (has_number_some _ _ _ s Hf) as [-> ->]. rewrite get_float_outcome.
    by destruct (number v).
  - by rewrite (has_number_none _ _ s Hf).
Qed.

(** The colour of an entry is read only when it is an array of at
    least three numbers. *)
Lemma color_outcome (item : json) (r : vec3 float) (s s' : S) :
  Json.contains item "color" = true ->
  (Json.at_key item "color" ≫= vec3_of_json) s = Ok r s' ->
  exists l, array_field 3 item "color" = Some l /\ floats3 l = Some r /\ s' = s.
Proof.
  unfold Json.contains, Json.at_key, array_field.
  destruct item as [| | | | | |m]; try discriminate.
  destruct (m !! "color") as [v|];
    [intros _ | by rewrite bool_decide_eq_false_2 by (by intros [? ?])].
  unfold mbind at 1, M_bind at 1. cbn [mret M_ret].
  rewrite vec3_of_json_outcome.
  destruct v as [| | | | |l|]; try discriminate.
  destruct l as [|a [|b [|c l]]]; try discriminate.
  cbn [length]. rewrite bool_decide_eq_true_2 by lia.
  destruct (floats3 (a :: b :: c :: l)) as [r'|] eqn:Hf; [|discriminate].
  intros Heq. exists (a :: b :: c :: l). inversion Heq; subst. by rewrite Hf.
Qed.

(** The optional fields after the mean. *)
Lemma load_gaussian_tail (item : json) (g_mean g_color : vec3 float)
    (g : Gaussian3D float) (s s' : S) :
  (has_array item "scale" 3
   ≫= fun has_scale : bool =>
     (if has_scale then Json.at_key item "scale" ≫= vec3_of_json
      else mret (Vec3 1 1 1))
     ≫= fun g_scale =>
       has_array item "rotation" 4
       ≫= fun has_rotation : bool =>
         (if has_rotation then Json.at_key item "rotation" ≫= quat_of_json
          else mret (mk_quat 1 0 0 0))
         ≫= fun g_rotation =>
           has_number item "opacity"
           ≫= fun has_opacity : bool =>
             (if has_opacity then Json.at_key item "opacity" ≫= Json.get_float
              else mret 1)
             ≫= fun g_opacity =>
               mret (mkGaussian3D g_mean g_scale g_rotation g_opacity g_color)) s
  = Ok g s' ->
  (g_scale ← match array_field 3 item "scale" with
             | Some l => floats3 l
             | None => Some (Vec3 1 1 1)
             end;
   g_rotation ← match array_field 4 item "rotation" with
                | Some l => floats4 l
                | None => Some (mk_quat 1 0 0 0)
                end;
   g_opacity ← match number_field item "opacity" with
               | Some v => number v
               | None => Some 1
               end;
   Some (mkGaussian3D g_mean g_scale g_rotation g_opacity g_color)) = Some g
  /\ s' = s.
Proof.
  rewrite bind_optional_vec3_outcome.
  assert (forall g_scale : vec3 float,
    (has_array item "rotation" 4
     ≫= fun has_rotation : bool =>
       (if has_rotation then Json.at_key item "rotation" ≫= quat_of_json
        else mret (mk_quat 1 0 0 0))
       ≫= fun g_rotation =>
         has_number item "opacity"
         ≫= fun has_opacity : bool =>
           (if has_opacity then Json.at_key item "opacity" ≫= Json.get_float
            else mret 1)
           ≫= fun g_opacity =>
             mret (mkGaussian3D g_mean g_scale g_rotation g_opacity g_color)) s
    = Ok g s' ->
    (g_rotation ← match array_field 4 item "rotation" with
                  | Some l => floats4 l
                  | None => Some (mk_quat 1 0 0 0)
                  end;
     g_opacity ← match number_field item "opacity" with
                 | Some v => number v
                 | None => Some 1
                 end;
     Some (mkGaussian3D g_mean g_scale g_rotation g_opacity g_color)) = Some g
    /\ s' = s) as Hrot.
  { intros g_scale. rewrite bind_optional_quat_outcome.
    assert (forall g_rotation : glm.quat float,
      (has_number item "opacity"
       ≫= fun has_opacity : bool =>
         (if has_opacity then Json.at_key item "opacity" ≫= Json.get_float
          else mret 1)
         ≫= fun g_opacity =>
           mret (mkGaussian3D g_mean g_scale g_rotation g_opacity g_color)) s
      = Ok g s' ->
      (g_opacity ← match number_field item "opacity" with
                   | Some v => number v
                   | None => Some 1
                   end;
       Some (mkGaussian3D g_mean g_scale g_rotation g_opacity g_color)) = Some g
      /\ s' = s) as Hop.
    { intros g_rotation. rewrite bind_optional_number_outcome.
      destruct (number_field item "opacity") as [v|].
      - destruct (number v); [|discriminate]. cbn. intros Heq. by inversion Heq.
      - cbn. intros Heq. by inversion Heq. }
    destruct (array_field 4 item "rotation") as [l|].
    - destruct (floats4 l); [|discriminate]. cbn [mbind option_bind]. apply Hop.
    - cbn [mbind option_bind]. apply Hop. }
  destruct (array_field 3 item "scale") as [l|].
  - destruct (floats3 l); [|discriminate]. cbn [mbind option_bind]. apply Hrot.
  - unfold mbind at 1, M_bind at 1. cbn [mret M_ret].
    cbn [mbind option_bind]. apply Hrot.
Qed.

(** The loader returns for an entry exactly when the entry denotes a
    Gaussian, it returns that Gaussian, and it leaves the state it runs in
    alone: an entry that lacks a colour of three numbers, or that holds a
    non-number in an array that is consulted, never loads. *)
Lemma load_gaussian_exact (item : json) (g : Gaussian3D float) (s s' : S) :
  load_gaussian item s = Ok g s' <-> expected_gaussian item = Some g /\ s' = s.
Proof.
  split; [|by intros [Hexp ->]; apply load_gaussian_expected].
  unfold load_gaussian, expected_gaussian. rewrite lit_0, lit_1.
  destruct (Json.contains item "color") eqn:Hc; cbn [negb]; [|discriminate].
  unfold mbind at 1, M_bind at 1.
  destruct ((Json.at_key item "color" ≫= vec3_of_json) s) as [g_color s1| |] eqn:Hcol;
    try discriminate.
  apply (color_outcome _ _ _ _ Hc) in Hcol as (l & Harr & Hfl & ->).
  rewrite Harr. cbn [mbind option_bind]. rewrite Hfl. cbn [mbind option_bind].
  rewrite bind_optional_vec3_outcome.
  destruct (array_field 3 item "mean") as [lm|].
  - destruct (floats3 lm); [|discriminate]. cbn [mbind option_bind].
    apply load_gaussian_tail.
  - unfold mbind at 1, M_bind at 1. rewrite optional_vec3_outcome.
    destruct (array_field 3 item "position") as [lp|].
    + destruct (floats3 lp); [|discriminate]. cbn [mbind option_bind].
      apply load_gaussian_tail.
    + cbn [mbind option_bind]. apply load_gaussian_tail.
Qed.

(** The loop returns exactly when every entry denotes a Gaussian. *)
Lemma load_gaussians_exact (items : list json) (acc gs : list (Gaussian3D float)) (s s' : S) :
  load_gaussians items acc s = Ok gs s'
  <-> exists gs', mapM expected_gaussian items = Some gs' /\ gs = acc ++ gs' /\ s' = s.
Proof.
  split; [|by intros (gs' & Hall & -> & ->); apply load_gaussians_expected].
  revert acc s. induction items as [|item items IH]; intros acc s; cbn [load_gaussians].
  - intros Heq. exists []. inversion Heq. by rewrite app_nil_r.
  - unfold mbind at 1, M_bind at 1.
    destruct (load_gaussian item s) as [g s1| |] eqn:Hitem; try discriminate.
    apply load_gaussian_exact in Hitem as [Hg ->].
    intros (gs' & Hall & -> & ->)%IH. exists (g :: gs'). split; [|by rewrite <- app_assoc].
    apply mapM_Some. constructor; [done | by apply mapM_Some].
Qed.

Lemma load_scene_json_returns (filepath : string) (scene : Scene float) (s s' : S) :
  load_scene_json filepath s = Ok scene s'
  <-> exists (text : string) (j : json) (items : list json) (gs : list (Gaussian3D float)),
        file_contents filepath = Some text
        /\ json_parse text = Some j
        /\ array_field 0 j "gaussians" = Some items
        /\ mapM expected_gaussian items = Some gs
        /\ scene = mkScene gs
        /\ gaussian_count scene = length items
        /\ s' = s.
Proof.
  split.
  - destruct (file_contents filepath) as [text|] eqn:Hfile;
      [|unfold load_scene_json; by rewrite Hfile].
    destruct (json_parse text) as [j|] eqn:Hparse;
      [|unfold load_scene_json; by rewrite Hfile, Hparse].
    destruct (array_field 0 j "gaussians") as [items|] eqn:Harr;
      [|by rewrite (load_scene_json_no_array _ _ _ s Hfile Hparse Harr)].
    rewrite (load_scene_json_array _ _ _ _ s Hfile Hparse Harr).
    unfold mbind, M_bind.
    destruct (load_gaussians items [] s) as [gs s1| |] eqn:Hloop; try discriminate.
    apply load_gaussians_exact in Hloop as (gs' & Hall & -> & ->).
    intros Heq. inversion Heq; subst. exists text, j, items, gs'.
    repeat split; try done.
    apply mapM_Some in Hall. cbn. symmetry. by eapply Forall2_length.
  - intros (text & j & items & gs & Hfile & Hparse & Harr & Hall & -> & _ & ->).
    rewrite (load_scene_json_array _ _ _ _ s Hfile Hparse Harr).
    unfold mbind, M_bind. by rewrite (load_gaussians_expected _ _ [] s Hall).
Qed.

(** X7.  [load_scene_json] returns a scene exactly when the file can be read,
    parses to a document whose ["gaussians"] is an array, and every entry
    of that array denotes a Gaussian.  The scene then holds one Gaussian
    for each entry, in the order of the file; no entry is skipped, and one
    entry that does not load fails the whole file. *)
Theorem load_scene_json_exact (filepath : string) (scene : Scene float) (s s' : S) :
  load_scene_json filepath s = Ok scene s'
  <-> exists (text : string) (j : json) (items : list json) (gs : list (Gaussian3D float)),
        file_contents filepath = Some text
        /\ json_parse text = Some j
        /\ array_field 0 j "gaussians" = Some items
        /\ mapM expected_gaussian items = Some gs
        /\ scene = mkScene gs
        /\ gaussian_count scene = length items
        /\ s' = s.
Proof. apply load_scene_json_returns. Qed.

End LoaderExact.

(** ** App.cpp: loading a scene *)

Section ReadsOnly.
Context {S : Type}.

Lemma reads_only_ret {A} (a : A) : reads_only (mret a : M S A).
Proof. by intros s. Qed.

Lemma reads_only_throw {A} (e : exn) : reads_only (throw e : M S A).
Proof. by intros s. Qed.

Lemma reads_only_undefined {A} : reads_only (undefined : M S A).
Proof. by intros s. Qed.

Lemma reads_only_bind {A B} (m : M S A) (f : A -> M S B) :
  reads_only m -> (forall a, reads_only (f a)) -> reads_only (m ≫= f).
Proof.
  intros Hm Hf s. unfold mbind, M_bind. specialize (Hm s).
  destruct (m s) as [a s1| |]; [subst; apply Hf | done | done].
Qed.

Lemma reads_only_at_key (j : json) (key : string) : reads_only (Json.at_key j key : M S json).
Proof. intros s. destruct j; try done. cbn. by destruct (_ !! _). Qed.

Lemma reads_only_at_index (j : json) (i : nat) : reads_only (Json.at_index j i : M S json).
Proof. intros s. destruct j; try done. cbn. by destruct (_ !! _). Qed.

Lemma reads_only_get_float (j : json) : reads_only (Json.get_float j : M S float).
Proof. intros s. by destruct j. Qed.

End ReadsOnly.

Create HintDb reads_only.
#[local] Hint Resolve reads_only_ret reads_only_throw reads_only_undefined
  reads_only_at_key reads_only_at_index reads_only_get_float : reads_only.

Ltac reads_only :=
  repeat first
    [ apply reads_only_bind; [|intros ?]
    | match goal with |- reads_only (if ?b then _ else _) => destruct b end
    | match goal with |- reads_only (match ?b with _ => _ end) => destruct b end
    | solve [auto with reads_only] ].

Section AppFacts.
Context `{FileSystem}.
Import SceneFormat.

Lemma reads_only_load_gaussian {S} (item : json) : reads_only (@load_gaussian S item).
Proof.
  unfold load_gaussian, has_array, has_number, vec3_of_json, quat_of_json. reads_only.
Qed.

Lemma reads_only_load_gaussians {S} (items : list json) (acc : list (Gaussian3D float)) :
  reads_only (@load_gaussians S items acc).
Proof.
  revert acc. induction items as [|item items IH]; intros acc; cbn [load_gaussians].
  - apply reads_only_ret.
  - apply reads_only_bind; [apply reads_only_load_gaussian | intros g; apply IH].
Qed.

(** The loader does not touch the state of its caller, also when it
    throws. *)
Lemma reads_only_load_scene_json {S} (filepath : string) :
  reads_only (@load_scene_json _ S filepath).
Proof.
  unfold load_scene_json.
  destruct (file_contents filepath) as [text|]; [|apply reads_only_throw].
  destruct (json_parse text) as [j|]; [|apply reads_only_throw].
  apply reads_only_bind; [reads_only | intros missing].
  destruct missing; [apply reads_only_throw|].
  apply reads_only_bind; [apply reads_only_at_key | intros arr].
  apply reads_only_bind; [apply reads_only_load_gaussians | intros gs; apply reads_only_ret].
Qed.

(** [App::load_scene] in terms of what the loader does. *)
Lemma App_load_scene_outcome (filepath : string) (a : App) :
  App_load_scene filepath a
  = match load_scene_json filepath a with
    | Ok scene _ =>
        match m_scene a with
        | Some _ =>
            Ok true (mkApp (Some scene) filepath
                           (app_stdout a ++ ["[App] Loaded " +:+ decimal (gaussian_count scene)
                                             +:+ " gaussians from " +:+ c_str filepath +:+ "
"])
                           (app_stderr a))
        | None => Undefined
        end
    | Throw e _ =>
        Ok false (mkApp (m_scene a) (m_scene_path a) (app_stdout a)
                        (app_stderr a ++ ["[App] Scene load error: "
                                          +:+ c_str (what_of e) +:+ "
"]))
    | Undefined => Undefined
    end.
Proof.
  pose proof (reads_only_load_scene_json (S := App) filepath a) as Hpure.
  unfold App_load_scene, try_catch. unfold mbind at 1, M_bind at 1.
  destruct (load_scene_json filepath a) as [scene a1|e a1|]; [subst a1 | subst a1 | done].
  - unfold mbind, M_bind, gets, deref. destruct (m_scene a); reflexivity.
  - reflexivity.
Qed.

(** X8.  [App::load_scene] lets no exception out.  When it returns false, the
    scene, its path and the standard output are as before the call, and
    the one line added to the standard error carries the message of the
    exception the loader threw. *)
Theorem App_load_scene_failure (filepath : string) (a : App) :
  (forall e a', App_load_scene filepath a <> Throw e a')
  /\ (forall a', App_load_scene filepath a = Ok false a' ->
        m_scene a' = m_scene a
        /\ m_scene_path a' = m_scene_path a
        /\ app_stdout a' = app_stdout a
        /\ exists e, load_scene_json filepath a = Throw e a
                     /\ app_stderr a'
                        = app_stderr a ++ ["[App] Scene load error: " +:+ c_str (what_of e) +:+ "
"]).
Proof.
  pose proof (reads_only_load_scene_json (S := App) filepath a) as Hpure.
  rewrite App_load_scene_outcome.
  destruct (load_scene_json filepath a) as [scene a1|e a1|]; [| subst a1 |].
  - split; [by destruct (m_scene a) | intros a'; by destruct (m_scene a)].
  - split; [done|]. intros a' Heq. inversion Heq; subst. cbn.
    repeat split. by exists e.
  - done.
Qed.

(** X9.  After [App::init], [App::load_scene] returns true exactly when the
    file loads; the application then holds the scene of the file, one
    Gaussian for each entry, and the path, and has reported the count on
    the standard output. *)
Theorem App_load_scene_success (filepath : string) (a a' : App) :
  is_Some (m_scene a) ->
  App_load_scene filepath a = Ok true a'
  <-> exists (text : string) (j : json) (items : list json) (gs : list (Gaussian3D float)),
        file_contents filepath = Some text
        /\ json_parse text = Some j
        /\ array_field 0 j "gaussians" = Some items
        /\ mapM expected_gaussian items = Some gs
        /\ a' = mkApp (Some (mkScene gs)) filepath
                      (app_stdout a ++ ["[App] Loaded " +:+ decimal (length items)
                                        +:+ " gaussians from " +:+ c_str filepath +:+ "
"])
                      (app_stderr a).
Proof.
  intros [old Hold]. rewrite App_load_scene_outcome, Hold. split.
  - destruct (load_scene_json filepath a) as [scene a1|e a1|] eqn:Hload; try discriminate.
    apply load_scene_json_returns in Hload
      as (text & j & items & gs & Hfile & Hparse & Harr & Hall & -> & Hcount & ->).
    intros Heq. inversion Heq; subst. exists text, j, items, gs.
    by rewrite Hcount.
  - intros (text & j & items & gs & Hfile & Hparse & Harr & Hall & ->).
    assert (load_scene_json filepath a = Ok (mkScene gs) a) as ->.
    { apply load_scene_json_returns. exists text, j, items, gs. repeat split; try done.
      apply mapM_Some in Hall. cbn. symmetry. by eapply Forall2_length. }
    do 3 f_equal. cbn. apply mapM_Some in Hall. by rewrite (Forall2_length _ _ _ Hall).
Qed.

End AppFacts.

(** [scene.json] replaces the empty scene of a started application. *)
Lemma App_load_scene_success_witness :
  @App_load_scene sample_files "scene.json" app_started
  = Ok true (mkApp (Some (mkScene [ mkGaussian3D (Vec3 0 0 0) (Vec3 1 1 1) (Quat 0 0 0 1) 1
                                                 (Vec3 1 0 0);
                                    mkGaussian3D (Vec3 1 2 3) (Vec3 1 1 1) (Quat 0 0 0 1) 0.5
                                                 (Vec3 0 1 0) ]%R))
                   "scene.json"
                   ["[App] Loaded 2 gaussians from scene.json
"] []).
Proof.
  apply (@App_load_scene_success sample_files "scene.json" app_started);
    [by eexists|].
  exists sample_text, sample_document, [entry_color_only; entry_with_position_and_opacity].
  eexists. repeat split; reflexivity.
Defined.

(** A path that does not exist: the application keeps its empty scene. *)
Lemma App_load_scene_failure_witness :
  @App_load_scene sample_files "missing.json" app_started
  = Ok false (mkApp (Some (mkScene [])) "" []
                    ["[App] Scene load error: Failed to open file: missing.json
"])
  /\ m_scene (mkApp (Some (mkScene [])) "" []
                    ["[App] Scene load error: Failed to open file: missing.json
"]) = m_scene app_started.
Proof.
  assert (@App_load_scene sample_files "missing.json" app_started
          = Ok false (mkApp (Some (mkScene [])) "" []
                            ["[App] Scene load error: Failed to open file: missing.json
"])) as Hrun by reflexivity.
  split; [exact Hrun|].
  exact (proj1 (proj2 (@App_load_scene_failure sample_files "missing.json" app_started) _ Hrun)).
Defined.

(** ** The camera *)

Section CameraFacts.
Import Glsl.
Open Scope R_scope.

Lemma vec3_eq (a b : vec3 float) :
  (x3 a = x3 b :> R) -> (y3 a = y3 b :> R) -> (z3 a = z3 b :> R) -> a = b.
Proof. destruct a, b. cbn. by intros -> -> ->. Qed.

Lemma glm_normalize_scaled (v : vec3 float) (k : float) :
  0 < k -> glm_dot v v = 1 -> glm_normalize (scale3 v k) = v.
Proof.
  intros Hk Hv. unfold glm_normalize, glm_inversesqrt.
  assert (glm_dot (scale3 v k) (scale3 v k) = k * k) as ->.
  { unfold glm_dot in *. cbn [scale3 x3 y3 z3]. nra. }
  rewrite sqrt_square by lra.
  apply vec3_eq; cbn [scale3 x3 y3 z3]; field; lra.
Qed.

Lemma glm_normalize_unit (v : vec3 float) : glm_dot v v = 1 -> glm_normalize v = v.
Proof.
  intros Hv. rewrite <- (glm_normalize_scaled v 1) at 2 by (lra || done).
  f_equal. apply vec3_eq; cbn [scale3 x3 y3 z3]; lra.
Qed.

Lemma trig_unit (x : R) : cos x * cos x + sin x * sin x = 1.
Proof. pose proof (sin2_cos2 x) as Hx. unfold Rsqr in Hx. lra. Qed.

(** The direction the camera looks in, from yaw and pitch. *)
Lemma Camera_forward_eq (c : Camera) :
  Camera_forward c
  = Vec3 (cos (glm_radians (yaw c)) * cos (glm_radians (pitch c)))
         (sin (glm_radians (pitch c)))
         (sin (glm_radians (yaw c)) * cos (glm_radians (pitch c))).
Proof.
  unfold Camera_forward. apply glm_normalize_unit. unfold glm_dot. cbn [x3 y3 z3].
  pose proof (trig_unit (glm_radians (yaw c))). pose proof (trig_unit (glm_radians (pitch c))).
  nra.
Qed.

Lemma cos_pitch_pos (c : Camera) : pitch_in_range c -> 0 < cos (glm_radians (pitch c)).
Proof.
  intros [Hlo Hhi]. pose proof PI_RGT_0. unfold glm_radians.
  apply cos_gt_0; nra.
Qed.

Lemma Camera_right_eq (c : Camera) :
  pitch_in_range c ->
  Camera_right c = Vec3 (- sin (glm_radians (yaw c))) 0 (cos (glm_radians (yaw c))).
Proof.
  intros Hp. unfold Camera_right. rewrite Camera_forward_eq.
  rewrite <- (glm_normalize_scaled (Vec3 (- sin (glm_radians (yaw c))) 0 (cos (glm_radians (yaw c))))
                (cos (glm_radians (pitch c)))).
  - f_equal. apply vec3_eq; cbn [glm_cross scale3 x3 y3 z3]; ring.
  - by apply cos_pitch_pos.
  - unfold glm_dot. cbn [x3 y3 z3]. pose proof (trig_unit (glm_radians (yaw c))). nra.
Qed.

Lemma Camera_up_eq (c : Camera) :
  pitch_in_range c ->
  Camera_up c
  = Vec3 (- (sin (glm_radians (pitch c)) * cos (glm_radians (yaw c))))
         (cos (glm_radians (pitch c)))
         (- (sin (glm_radians (pitch c)) * sin (glm_radians (yaw c)))).
Proof.
  intros Hp. unfold Camera_up. rewrite Camera_right_eq, Camera_forward_eq by done.
  pose proof (trig_unit (glm_radians (yaw c))) as Hy.
  pose proof (trig_unit (glm_radians (pitch c))) as Hpt.
  set (cy := cos (glm_radians (yaw c))) in *. set (sy := sin (glm_radians (yaw c))) in *.
  set (cp := cos (glm_radians (pitch c))) in *. set (sp := sin (glm_radians (pitch c))) in *.
  rewrite glm_normalize_unit.
  - apply vec3_eq; cbn [glm_cross x3 y3 z3]; [ring | | ring].
    transitivity (cp * (cy * cy + sy * sy)); [ring | rewrite Hy; ring].
  - unfold glm_dot, float. cbn [glm_cross x3 y3 z3].
    transitivity (sp * sp * (cy * cy + sy * sy) + cp * cp * (cy * cy + sy * sy) * (cy * cy + sy * sy));
      [ring | rewrite Hy; lra].
Qed.

Lemma Camera_on_keyboard_orientation (W A S D Q E : bool) (dt : float) (c : Camera) :
  pitch (Camera_on_keyboard W A S D Q E dt c) = pitch c
  /\ yaw (Camera_on_keyboard W A S D Q E dt c) = yaw c.
Proof. by destruct W, A, S, D, Q, E. Qed.

Lemma Camera_input_pitch (c : Camera) (i : CameraInput) :
  pitch_in_range c -> pitch_in_range (Camera_input c i).
Proof.
  unfold pitch_in_range. intros Hc. destruct i as [dx dy | W A S D Q E dt].
  - cbn [Camera_input Camera_on_mouse_move pitch]. unfold glm_clamp, Rmin, Rmax.
    repeat destruct (Rle_dec _ _); lra.
  - cbn [Camera_input]. by rewrite (proj1 (Camera_on_keyboard_orientation _ _ _ _ _ _ _ _)).
Qed.

Lemma pitch_after (inputs : list CameraInput) : pitch_in_range (Camera_after inputs).
Proof.
  unfold Camera_after. assert (pitch_in_range Camera_new) as Hnew.
  { unfold pitch_in_range. cbn. lra. }
  revert Hnew. generalize Camera_new. induction inputs as [|i inputs IH]; intros c Hc; [done|].
  cbn [fold_left]. by apply IH, Camera_input_pitch.
Qed.

(** X10.  Whatever the mouse does, [on_mouse_move] leaves the pitch between -89
    and 89 degrees, and so does every sequence of mouse and keyboard
    inputs applied to a new camera; the keyboard does not turn the
    camera. *)
Theorem Camera_pitch_invariant :
  (forall (dx dy : float) (c : Camera), pitch_in_range (Camera_on_mouse_move dx dy c))
  /\ (forall (W A S D Q E : bool) (dt : float) (c : Camera),
        pitch (Camera_on_keyboard W A S D Q E dt c) = pitch c
        /\ yaw (Camera_on_keyboard W A S D Q E dt c) = yaw c)
  /\ (forall inputs : list CameraInput, pitch_in_range (Camera_after inputs)).
Proof.
  split; [|split; [apply Camera_on_keyboard_orientation | apply pitch_after]].
  intros dx dy c. unfold pitch_in_range.
  cbn [Camera_on_mouse_move pitch]. unfold glm_clamp, Rmin, Rmax.
  repeat destruct (Rle_dec _ _); lra.
Qed.

Lemma Camera_basis (c : Camera) :
  pitch_in_range c ->
  let f := Camera_forward c in
  let r := Camera_right c in
  let u := Camera_up c in
  glm_dot f f = 1 /\ glm_dot r r = 1 /\ glm_dot u u = 1
  /\ glm_dot f r = 0 /\ glm_dot f u = 0 /\ glm_dot r u = 0
  /\ y3 r = 0 /\ 0 < y3 u
  /\ glm_cross r f = u /\ glm_cross f u = r.
Proof.
  intros Hp. cbv zeta. rewrite Camera_up_eq, Camera_right_eq, Camera_forward_eq by done.
  pose proof (trig_unit (glm_radians (yaw c))) as Hy.
  pose proof (trig_unit (glm_radians (pitch c))) as Hpt.
  pose proof (cos_pitch_pos c Hp) as Hcp.
  set (cy := cos (glm_radians (yaw c))) in *. set (sy := sin (glm_radians (yaw c))) in *.
  set (cp := cos (glm_radians (pitch c))) in *. set (sp := sin (glm_radians (pitch c))) in *.
  unfold glm_dot, float. cbn [glm_cross x3 y3 z3].
  split; [transitivity (cp * cp * (cy * cy + sy * sy) + sp * sp); [ring | rewrite Hy; lra]|].
  split; [lra|].
  split; [transitivity (sp * sp * (cy * cy + sy * sy) + cp * cp); [ring | rewrite Hy; lra]|].
  split; [ring|].
  split; [transitivity (sp * cp * (1 - (cy * cy + sy * sy))); [ring | rewrite Hy; ring]|].
  split; [ring|]. split; [reflexivity|]. split; [exact Hcp|].
  split; apply vec3_eq; cbn [glm_cross x3 y3 z3].
  - ring.
  - transitivity (cp * (cy * cy + sy * sy)); [ring | rewrite Hy; ring].
  - ring.
  - transitivity (- sy * (cp * cp + sp * sp)); [ring | rewrite Hpt; ring].
  - ring.
  - transitivity (cy * (cp * cp + sp * sp)); [ring | rewrite Hpt; ring].
Qed.

(** X11.  With the pitch in its range, the camera's forward, right and up are
    unit vectors at right angles to one another, a right-handed frame;
    right is horizontal and up points upward. *)
Theorem Camera_basis_orthonormal (c : Camera) :
  pitch_in_range c ->
  let f := Camera_forward c in
  let r := Camera_right c in
  let u := Camera_up c in
  glm_dot f f = 1 /\ glm_dot r r = 1 /\ glm_dot u u = 1
  /\ glm_dot f r = 0 /\ glm_dot f u = 0 /\ glm_dot r u = 0
  /\ y3 r = 0 /\ 0 < y3 u
  /\ glm_cross r f = u /\ glm_cross f u = r.
Proof. apply Camera_basis. Qed.




Lemma Camera_axes_with_position (p : vec3 float) (c : Camera) :
  Camera_forward (with_position p c) = Camera_forward c
  /\ Camera_right (with_position p c) = Camera_right c
  /\ Camera_up (with_position p c) = Camera_up c.
Proof. done. Qed.

(** X14.  One call of [on_keyboard] moves the camera by [speed * dt] along
    forward, right and up for the keys W, D and E and against them for S,
    A and Q: opposite keys cancel, the order of the six tests does not
    matter, and the orientation is left alone. *)
Theorem Camera_on_keyboard_displacement (W A S D Q E : bool) (dt : float) (c : Camera) :
  let c' := Camera_on_keyboard W A S D Q E dt c in
  let velocity := speed c * dt in
  position c'
  = add3 (add3 (add3 (position c)
                     (scale3 (Camera_forward c) (velocity * (key W - key S))))
               (scale3 (Camera_right c) (velocity * (key D - key A))))
         (scale3 (Camera_up c) (velocity * (key E - key Q)))
  /\ Camera_forward c' = Camera_forward c
  /\ Camera_right c' = Camera_right c
  /\ Camera_up c' = Camera_up c.
Proof.
  cbv zeta. split; [|by destruct W, A, S, D, Q, E].
  assert (forall (b : bool) (p : vec3 float) (k : Camera),
            position (if b then with_position p k else k)
            = if b then p else position k) as Hpos by (by intros []).
  assert (forall (b : bool) (p : vec3 float) (k : Camera),
            Camera_forward (if b then with_position p k else k) = Camera_forward k
            /\ Camera_right (if b then with_position p k else k) = Camera_right k
            /\ Camera_up (if b then with_position p k else k) = Camera_up k) as Hax
    by (by intros []).
  unfold Camera_on_keyboard.
  repeat (rewrite ?Hpos, ?(proj1 (Hax _ _ _)), ?(proj1 (proj2 (Hax _ _ _))),
            ?(proj2 (proj2 (Hax _ _ _)))).
  destruct (Camera_forward c) as [fx fy fz], (Camera_right c) as [rx ry rz],
           (Camera_up c) as [ux uy uz], (position c) as [px py pz].
  destruct W, A, S, D, Q, E; apply vec3_eq;
    cbn [add3 scale3 glm_sub key x3 y3 z3]; generalize (speed c); unfold float in *; intros; ring.
Qed.

End CameraFacts.

(** The new camera looks along -z: forward, right and up are orthonormal. *)
Lemma Camera_basis_orthonormal_witness :
  glm_dot (Camera_forward Camera_new) (Camera_forward Camera_new) = 1%R
  /\ glm_dot (Camera_forward Camera_new) (Camera_right Camera_new) = 0%R
  /\ y3 (Camera_right Camera_new) = 0%R.
Proof.
  assert (pitch_in_range Camera_new) as Hp by (unfold pitch_in_range; cbn; lra).
  destruct (Camera_basis_orthonormal Camera_new Hp) as (Hf & _ & _ & Hfr & _ & _ & Hr & _).
  auto.
Defined.




(** ** The frame clock *)

Section TimeFacts.
Open Scope R_scope.

Lemma Time_run_snoc (start : float) (readings : list float) (now : float) :
  Time_run start (readings ++ [now]) = Time_tick now (Time_run start readings).
Proof. unfold Time_run. by rewrite fold_left_app. Qed.

Lemma Time_elapsed_last (start : float) (readings : list float) :
  s_last_time (Time_run start readings) = List.last readings start
  /\ s_elapsed (Time_run start readings) = s_last_time (Time_run start readings) - start.
Proof.
  induction readings as [|now readings IH] using rev_ind.
  - cbn. split; [reflexivity | lra].
  - rewrite Time_run_snoc, last_last. destruct IH as [IHl IHe].
    cbn [Time_tick s_last_time s_elapsed]. split; [reflexivity|]. rewrite IHe. lra.
Qed.

(** X15.  The elapsed time is the time on the clock since [Time::init]: the
    frame times add up to the last reading minus the first, whatever the
    readings are. *)
Theorem Time_elapsed_telescopes (start : float) (readings : list float) :
  let t := Time_run start readings in
  s_last_time t = List.last readings start
  /\ s_elapsed t = s_last_time t - start.
Proof. apply Time_elapsed_last. Qed.

Lemma Time_tick_fps_pos (now : float) (t : Time) : 0 < s_fps t -> 0 < s_fps (Time_tick now t).
Proof.
  intros Hpos. cbn [Time_tick s_fps].
  destruct (Rlt_dec 0 (now - s_last_time t)) as [Hd|]; [|done].
  destruct (Req_dec_T (s_fps t) 0) as [Hz|_]; [lra|].
  assert (0 < 1 / (now - s_last_time t)) by (apply Rdiv_lt_0_compat; lra). lra.
Qed.

Lemma Time_tick_fps_nonneg (now : float) (t : Time) : 0 <= s_fps t -> 0 <= s_fps (Time_tick now t).
Proof.
  intros Hpos. cbn [Time_tick s_fps].
  destruct (Rlt_dec 0 (now - s_last_time t)) as [Hd|]; [|done].
  assert (0 < 1 / (now - s_last_time t)) by (apply Rdiv_lt_0_compat; lra).
  destruct (Req_dec_T (s_fps t) 0); lra.
Qed.

(** X16.  The frame rate is never negative, and once a frame has been measured
    it stays positive: the 0 that stands for no measurement does not come
    back. *)
Theorem Time_fps_sign :
  (forall (start : float) (readings : list float), 0 <= s_fps (Time_run start readings))
  /\ (forall (now : float) (t : Time), 0 < s_fps t -> 0 < s_fps (Time_tick now t))
  /\ (forall (now : float) (t : Time), s_last_time t < now -> 0 <= s_fps t ->
        0 < s_fps (Time_tick now t)).
Proof.
  split; [|split; [apply Time_tick_fps_pos|]].
  - intros start readings. induction readings as [|now readings IH] using rev_ind.
    + cbn. lra.
    + rewrite Time_run_snoc. by apply Time_tick_fps_nonneg.
  - intros now t Hnow Hfps. cbn [Time_tick s_fps].
    destruct (Rlt_dec 0 (now - s_last_time t)) as [Hd|Hd]; [|lra].
    assert (0 < 1 / (now - s_last_time t)) by (apply Rdiv_lt_0_compat; lra).
    destruct (Req_dec_T (s_fps t) 0); lra.
Qed.



End TimeFacts.


(** ** The renderer and the objects of the context *)

Section RendererFacts.
Context `{GLSL}.

Ltac gl_call := cbn [gl_step fst snd gl gl_trace stderr].

Ltac gl_fields :=
  unfold with_render, with_bind, with_buffers, with_vertex_arrays, with_shaders, with_programs,
         with_error;
  cbn [gl_render gl_bind gl_buffers gl_vertex_arrays gl_shaders gl_programs gl_error
       current_program vertex_array array_buffer].

Tactic Notation "gl_fields" "in" "*" :=
  unfold with_render, with_bind, with_buffers, with_vertex_arrays, with_shaders, with_programs,
         with_error in *;
  cbn [gl_render gl_bind gl_buffers gl_vertex_arrays gl_shaders gl_programs gl_error
       current_program vertex_array array_buffer] in *.

Lemma remove_program_geometry (p : GLuint) (st : GLState) :
  gl_buffers (remove_program p st) = gl_buffers st
  /\ gl_vertex_arrays (remove_program p st) = gl_vertex_arrays st
  /\ gl_bind (remove_program p st) = gl_bind st.
Proof. unfold remove_program. by destruct (gl_programs st !! p). Qed.

(** Calls on render state, shaders and programs leave buffers, vertex
    arrays and their bindings alone. *)
Lemma gl_step_keeps_geometry {A} (c : GLCall A) (w : World) :
  touches_geometry c = false ->
  geometry (mkWorld (snd (gl_step c (gl w))) (gl_trace w ++ [gl_event c]) (stderr w))
  = geometry w.
Proof.
  unfold geometry. cbn [gl].
  destruct c; intros Ht; try discriminate; cbn [gl_step snd]; try reflexivity.
  - destruct (gl_programs (gl w) !! _) as [pr|]; [|reflexivity].
    destruct (_ && _); [|reflexivity].
    destruct (remove_program_geometry (current_program (gl_bind (gl w)))
                (with_bind (set_current_program g) (gl w))) as (-> & -> & ->).
    reflexivity.
  - by destruct u.
  - by destruct (attached_somewhere _ _).
  - by destruct (gl_shaders (gl w) !! _).
  - destruct (N.eqb _ _); [reflexivity|].
    by destruct (remove_program_geometry g (gl w)) as (-> & -> & ->).
Qed.

(** Calls on buffers, vertex arrays, render state and shaders leave the
    program objects alone. *)
Lemma gl_step_keeps_programs {A} (c : GLCall A) (w : World) :
  touches_programs c = false ->
  programs (mkWorld (snd (gl_step c (gl w))) (gl_trace w ++ [gl_event c]) (stderr w))
  = programs w.
Proof.
  unfold programs. cbn [gl].
  destruct c; intros Ht; try discriminate; cbn [gl_step snd]; try reflexivity.
  - by destruct (N.eqb _ _).
  - by destruct (N.eqb _ _).
  - by destruct g.
  - by destruct g.
  - by destruct (attached_somewhere _ _).
Qed.

Lemma keeps_ret {X A} (f : World -> X) (a : A) : keeps f (mret a).
Proof. by intros w. Qed.

Lemma keeps_throw {X A} (f : World -> X) (e : exn) : keeps f (throw e : M World A).
Proof. by intros w. Qed.

Lemma keeps_bind {X A B} (f : World -> X) (m : M World A) (k : A -> M World B) :
  keeps f m -> (forall a, keeps f (k a)) -> keeps f (m ≫= k).
Proof.
  intros Hm Hk w. unfold mbind, M_bind. specialize (Hm w).
  destruct (m w) as [a w1| |]; [|done|done].
  specialize (Hk a w1). destruct (k a w1); congruence.
Qed.

Lemma keeps_call_geometry {A} (c : GLCall A) :
  touches_geometry c = false -> keeps geometry (call c).
Proof. intros Ht w. unfold call. by apply gl_step_keeps_geometry. Qed.

Lemma keeps_call_programs {A} (c : GLCall A) :
  touches_programs c = false -> keeps programs (call c).
Proof. intros Ht w. unfold call. by apply gl_step_keeps_programs. Qed.

Lemma keeps_reset {X A} (f : World -> X) (p : option A) (destroy : A -> M World unit) :
  (forall a, keeps f (destroy a)) -> keeps f (reset p destroy).
Proof. intros Hd. destruct p; [apply Hd | apply keeps_ret]. Qed.

Lemma wp_keeps {X A} (f : World -> X) (m : M World A) (Q : A -> World -> Prop) (w : World) :
  returns m -> keeps f m -> (forall a w', f w' = f w -> Q a w') -> wp m Q w.
Proof.
  intros Hr Hk HQ. specialize (Hr w). specialize (Hk w). unfold wp in *.
  destruct (m w); [by apply HQ | done | done].
Qed.

Ltac keeps_programs :=
  repeat first
    [ apply keeps_ret
    | apply keeps_throw
    | apply keeps_call_programs; reflexivity
    | apply keeps_reset; intros ?
    | apply keeps_bind; [|intros ?]
    | match goal with |- keeps _ (if ?b then _ else _) => destruct b end ].

Ltac keeps_geometry :=
  repeat first
    [ apply keeps_ret
    | apply keeps_throw
    | apply keeps_call_geometry; reflexivity
    | apply keeps_reset; intros ?
    | apply keeps_bind; [|intros ?]
    | match goal with |- keeps _ (if ?b then _ else _) => destruct b end ].

Lemma keeps_programs_QuadMesh_new : keeps programs QuadMesh_new.
Proof.
  unfold QuadMesh_new, VertexArray_new, Buffer_new, VertexArray_bind, VertexArray_unbind,
         Buffer_set_data, Buffer_bind.
  keeps_programs.
Qed.

Lemma keeps_programs_Buffer_delete (b : Buffer) : keeps programs (Buffer_delete b).
Proof. unfold Buffer_delete. keeps_programs. Qed.

Lemma keeps_programs_QuadMesh_delete (q : QuadMesh) : keeps programs (QuadMesh_delete q).
Proof. unfold QuadMesh_delete, Buffer_delete, VertexArray_delete. keeps_programs. Qed.

Lemma keeps_geometry_Shader_create_program (vs fs : string) :
  keeps geometry (Shader_create_program vs fs).
Proof. unfold Shader_create_program, Shader_compile. keeps_geometry. Qed.

(** When the pipeline builds, [Shader::create_program] adds one program
    object, linked, under a new name, and leaves every other program
    object as it is. *)
Lemma Shader_create_program_adds (vs_src fs_src : string) (w : World) :
  build_succeeds vs_src fs_src ->
  wp (Shader_create_program vs_src fs_src)
     (fun p w' => p <> 0%N
                  /\ programs w !! p = None
                  /\ (exists pr, programs w' = <[p := pr]> (programs w)
                                 /\ pr_link_status pr = true)
                  /\ stderr w' = stderr w) w.
Proof.
  intros (vs_log & fs_log & log & Hvs & Hfs & Hlink). unfold Shader_create_program.
  apply wp_bind. eapply wp_mono; [|by apply Shader_compile_ok].
  intros vs w1 (-> & Hgl1 & Herr1). cbv beta.
  apply wp_bind. eapply wp_mono; [|by apply Shader_compile_ok].
  intros fs w2 (-> & Hgl2 & Herr2). cbv beta.
  destruct (fresh_object_spec (gl w1)) as (_ & Hfs_sh & _).
  destruct (fresh_object_spec (gl w2)) as (Hp_0 & Hp_sh & Hp_pr).
  rewrite Hgl2 in Hp_sh, Hp_pr. rewrite Hgl1 in Hfs_sh, Hp_sh, Hp_pr.
  unfold programs.
  destruct w as [st tr err], w1 as [st1 tr1 err1], w2 as [st2 tr2 err2].
  cbn [gl stderr] in *. subst st2 st1 err2 err1.
  set (vs := fresh_object st) in *.
  set (fs := fresh_object (with_shaders _ st)) in *.
  set (p := fresh_object (with_shaders _ (with_shaders _ st))) in *.
  destruct st as [rs bind bufs vaos shs progs glerr].
  gl_fields in *.
  apply lookup_insert_None in Hfs_sh as [Hfs_sh Hne_vs_fs].
  apply lookup_insert_None in Hp_sh as [Hp_sh Hne_fs_p].
  apply lookup_insert_None in Hp_sh as [Hp_sh Hne_vs_p].
  apply wp_bind, wp_call. gl_call. unfold fresh_object. gl_fields.
  change (fresh _) with p.
  apply wp_bind, wp_call. gl_call. gl_fields.
  rewrite lookup_insert_ne, lookup_insert_eq by done. gl_fields.
  rewrite alter_insert_eq. cbn [pr_attached pr_link_status pr_info_log pr_delete_status pr_uniforms app].
  apply wp_bind, wp_call. gl_call. gl_fields.
  rewrite lookup_insert_eq. gl_fields.
  rewrite alter_insert_eq. cbn [pr_attached pr_link_status pr_info_log pr_delete_status pr_uniforms app].
  apply wp_bind, wp_call. gl_call. gl_fields.
  rewrite alter_insert_eq. unfold attached_sources. gl_fields.
  cbn [pr_attached pr_link_status pr_info_log pr_delete_status pr_uniforms omap list_omap].
  rewrite lookup_insert_ne, !lookup_insert_eq by done.
  cbn [mbind option_bind sh_type sh_source]. rewrite Hlink. cbn [fst snd].
  apply wp_bind, wp_call. gl_call. gl_fields.
  rewrite attached_insert by (cbn [pr_attached]; rewrite !elem_of_cons; auto).
  apply wp_bind, wp_call. gl_call. gl_fields.
  rewrite attached_insert by (cbn [pr_attached]; rewrite !elem_of_cons; auto).
  apply wp_bind, wp_call. gl_call. gl_fields.
  rewrite lookup_insert_eq. cbn [pr_link_status Z_of_bool Z.eqb].
  apply wp_ret. cbn [gl gl_programs stderr].
  split; [done|]. split; [done|]. split; [|done].
  eexists. split; reflexivity.
Qed.


(** *** Buffers and vertex arrays, call by call *)

Lemma geom_keep {A} (c : GLCall A) B V v b (w : World) :
  touches_geometry c = false ->
  geom B V v b w ->
  geom B V v b (mkWorld (snd (gl_step c (gl w))) (gl_trace w ++ [gl_event c]) (stderr w)).
Proof. unfold geom. intros Ht <-. by apply gl_step_keeps_geometry. Qed.

Lemma geom_step {A} (c : GLCall A) B V v b B' V' v' b' (w : World) :
  geom B V v b w ->
  (forall st, gl_buffers st = B -> gl_vertex_arrays st = V ->
              vertex_array (gl_bind st) = v -> array_buffer (gl_bind st) = b ->
              gl_buffers (snd (gl_step c st)) = B'
              /\ gl_vertex_arrays (snd (gl_step c st)) = V'
              /\ vertex_array (gl_bind (snd (gl_step c st))) = v'
              /\ array_buffer (gl_bind (snd (gl_step c st))) = b') ->
  geom B' V' v' b' (mkWorld (snd (gl_step c (gl w))) (gl_trace w ++ [gl_event c]) (stderr w)).
Proof.
  unfold geom, geometry. cbn [gl]. intros [= HB HV Hv Hb] Hstep.
  destruct (Hstep (gl w) HB HV Hv Hb) as (-> & -> & -> & ->). reflexivity.
Qed.

Ltac geom_effect :=
  intros ? ?; eapply geom_step; [eassumption|];
  let st := fresh "st" in
  let HB := fresh "HB" in let HV := fresh "HV" in
  let Hv := fresh "Hv" in let Hb := fresh "Hb" in
  intros st HB HV Hv Hb; cbn [gl_step snd]; unfold alter_attrib;
  gl_fields; rewrite ?HB, ?HV, ?Hv, ?Hb; repeat split; reflexivity.

Lemma wp_call_geom {A} (c : GLCall A) B V v b B' V' v' b' (Q : A -> World -> Prop) (w : World) :
  geom B V v b w ->
  (forall st, gl_buffers st = B -> gl_vertex_arrays st = V ->
              vertex_array (gl_bind st) = v -> array_buffer (gl_bind st) = b ->
              gl_buffers (snd (gl_step c st)) = B'
              /\ gl_vertex_arrays (snd (gl_step c st)) = V'
              /\ vertex_array (gl_bind (snd (gl_step c st))) = v'
              /\ array_buffer (gl_bind (snd (gl_step c st))) = b') ->
  (forall a w', geom B' V' v' b' w' -> Q a w') ->
  wp (call c) Q w.
Proof. intros Hg Hstep HQ. apply wp_call, HQ. by eapply geom_step. Qed.

Lemma geom_elim B V v b (w : World) :
  geom B V v b w ->
  gl_buffers (gl w) = B /\ gl_vertex_arrays (gl w) = V
  /\ vertex_array (gl_bind (gl w)) = v /\ array_buffer (gl_bind (gl w)) = b.
Proof. unfold geom, geometry. by intros [= -> -> -> ->]. Qed.

Lemma geom_of B V v b (w : World) :
  gl_buffers (gl w) = B -> gl_vertex_arrays (gl w) = V ->
  vertex_array (gl_bind (gl w)) = v -> array_buffer (gl_bind (gl w)) = b ->
  geom B V v b w.
Proof. by intros <- <- <- <-. Qed.

Lemma geom_intro (w : World) :
  geom (gl_buffers (gl w)) (gl_vertex_arrays (gl w))
       (vertex_array (gl_bind (gl w))) (array_buffer (gl_bind (gl w))) w.
Proof. reflexivity. Qed.

Lemma geom_Buffer_new B V v b (w : World) :
  geom B V v b w ->
  wp Buffer_new
     (fun bf w' => bf = mkBuffer (fresh ({[0%N]} ∪ dom B : gset N))
                   /\ geom (<[Buffer_m_vbo bf := []]> B) V v b w') w.
Proof.
  intros Hg. destruct (geom_elim _ _ _ _ _ Hg) as (HB & HV & Hv & Hb).
  unfold Buffer_new. apply wp_bind, wp_call. gl_call. apply wp_ret.
  cbn [Buffer_m_vbo]. rewrite HB. split; [reflexivity|].
  apply geom_of; cbn [gl]; [cbn; by rewrite HB | exact HV | exact Hv | exact Hb].
Qed.

Lemma geom_VertexArray_new B V v b (w : World) :
  geom B V v b w ->
  wp VertexArray_new
     (fun va w' => va = mkVertexArray (fresh ({[0%N]} ∪ dom V : gset N))
                   /\ geom B (<[VertexArray_m_vao va := ∅]> V) v b w') w.
Proof.
  intros Hg. destruct (geom_elim _ _ _ _ _ Hg) as (HB & HV & Hv & Hb).
  unfold VertexArray_new. apply wp_bind, wp_call. gl_call. apply wp_ret.
  cbn [VertexArray_m_vao]. rewrite HV. split; [reflexivity|].
  apply geom_of; cbn [gl]; [exact HB | cbn; by rewrite HV | exact Hv | exact Hb].
Qed.

Lemma geom_Buffer_delete (bf : Buffer) B V v b (w : World) :
  geom B V v b w ->
  wp (Buffer_delete bf)
     (fun _ w' => geom (released (Buffer_m_vbo bf) B) V v (unbound (Buffer_m_vbo bf) b) w') w.
Proof.
  intros Hg. destruct (geom_elim _ _ _ _ _ Hg) as (HB & HV & Hv & Hb).
  unfold Buffer_delete, released, unbound.
  destruct (N.eqb (Buffer_m_vbo bf) 0); cbn [negb]; [by apply wp_ret|].
  apply wp_call. gl_call. rewrite Hb.
  destruct (N.eqb b (Buffer_m_vbo bf)); apply geom_of; cbn [gl];
    first [exact HV | exact Hv | exact Hb | cbn; by rewrite HB | reflexivity].
Qed.

Lemma geom_VertexArray_delete (va : VertexArray) B V v b (w : World) :
  geom B V v b w ->
  wp (VertexArray_delete va)
     (fun _ w' => geom B (released (VertexArray_m_vao va) V)
                       (unbound (VertexArray_m_vao va) v) b w') w.
Proof.
  intros Hg. destruct (geom_elim _ _ _ _ _ Hg) as (HB & HV & Hv & Hb).
  unfold VertexArray_delete, released, unbound.
  destruct (N.eqb (VertexArray_m_vao va) 0); cbn [negb]; [by apply wp_ret|].
  apply wp_call. gl_call. rewrite Hv.
  destruct (N.eqb v (VertexArray_m_vao va)); apply geom_of; cbn [gl];
    first [exact HB | exact Hv | exact Hb | cbn; by rewrite HV | reflexivity].
Qed.

Lemma geom_Buffer_set_data (n : GLuint) (data : list float) (usage : GLusage) B V v b
    (w : World) :
  geom B V v b w ->
  wp (Buffer_set_data (mkBuffer n) GL_ARRAY_BUFFER data usage)
     (fun _ w' => geom (alter (fun _ => data) n B) V v n w') w.
Proof.
  intros Hg. unfold Buffer_set_data, Buffer_bind. cbn [Buffer_m_vbo].
  apply wp_bind. eapply (wp_call_geom _ B V v b B V v n); [exact Hg | |].
  { intros st HB HV Hv Hb. cbn [gl_step snd]. by repeat split. }
  intros ? w1 Hg1.
  eapply (wp_call_geom _ B V v n); [exact Hg1 | | intros ? ? Hg2; exact Hg2].
  intros st HB HV Hv Hb. cbn [gl_step snd]. repeat split; try done.
  cbn. by rewrite HB, Hb.
Qed.

(** [QuadMesh::QuadMesh()] makes a vertex array and a buffer under new
    names, fills the buffer with the six corners and sets attribute 0 of
    the vertex array to read pairs of floats from it. *)
Lemma geom_QuadMesh_new B V v b (w : World) (va qb : GLuint) :
  geom B V v b w ->
  va = fresh ({[0%N]} ∪ dom V : gset N) ->
  qb = fresh ({[0%N]} ∪ dom B : gset N) ->
  wp QuadMesh_new
     (fun q w' => q = mkQuadMesh (mkVertexArray va) (mkBuffer qb)
                  /\ geom (<[qb := quadVerts]> B) (<[va := {[0%N := quad_attrib qb]}]> V)
                          0%N qb w') w.
Proof.
  intros Hg Hva Hqb. unfold QuadMesh_new.
  apply wp_bind. eapply wp_mono; [|exact (geom_VertexArray_new _ _ _ _ _ Hg)].
  intros ? w1 [-> Hg1]. cbn [VertexArray_m_vao] in Hg1. rewrite <- Hva in Hg1 |- *.
  apply wp_bind. eapply wp_mono; [|exact (geom_Buffer_new _ _ _ _ _ Hg1)].
  intros ? w2 [-> Hg2]. cbn [Buffer_m_vbo] in Hg2. rewrite <- Hqb in Hg2 |- *.
  unfold VertexArray_bind, VertexArray_unbind. cbn [VertexArray_m_vao].
  apply wp_bind. eapply (wp_call_geom _ _ _ _ _ _ _ va); [exact Hg2 | |].
  { intros st HB HV Hv Hb. cbn [gl_step snd]. by repeat split. }
  intros ? w3 Hg3.
  apply wp_bind. eapply wp_mono; [|exact (geom_Buffer_set_data _ _ _ _ _ _ _ _ Hg3)].
  intros ? w4 Hg4. cbv beta in Hg4. rewrite alter_insert_eq in Hg4.
  apply wp_bind. eapply wp_call_geom; [exact Hg4 | |].
  { intros st HB HV Hv Hb. cbn [gl_step snd]. unfold alter_attrib.
    repeat split; try done. cbn. rewrite HV, Hv. rewrite alter_insert_eq, lookup_empty.
    cbn [default default_attrib va_enabled va_size va_stride va_offset va_divisor va_buffer].
    reflexivity. }
  intros ? w5 Hg5.
  apply wp_bind. eapply wp_call_geom; [exact Hg5 | |].
  { intros st HB HV Hv Hb. cbn [gl_step snd]. unfold alter_attrib.
    repeat split; try done. cbn. rewrite HV, Hv, Hb.
    rewrite alter_insert_eq, lookup_insert_eq, insert_insert_eq.
    cbn [default va_enabled va_size va_stride va_offset va_divisor va_buffer].
    reflexivity. }
  intros ? w6 Hg6.
  apply wp_bind. eapply (wp_call_geom _ _ _ _ _ _ _ 0%N); [exact Hg6 | |].
  { intros st HB HV Hv Hb. cbn [gl_step snd]. by repeat split. }
  intros ? w7 Hg7. apply wp_ret. split; [reflexivity|]. exact Hg7.
Qed.


Lemma wp_and_keeps {X A} (f : World -> X) (m : M World A) (Q : A -> World -> Prop) (w : World) :
  wp m Q w -> keeps f m -> wp m (fun a w' => Q a w' /\ f w' = f w) w.
Proof.
  intros Hwp Hk. specialize (Hk w). unfold wp in *. by destruct (m w).
Qed.

Lemma geom_keeps {A} (m : M World A) (Q : A -> World -> Prop) B V v b (w : World) :
  geom B V v b w -> keeps geometry m -> wp m Q w ->
  wp m (fun a w' => Q a w' /\ geom B V v b w') w.
Proof.
  intros Hg Hk Hwp. eapply wp_mono; [|by apply (wp_and_keeps geometry)].
  intros a w' [HQ Hw']. split; [done|]. unfold geom in *. congruence.
Qed.

(** The three calls of one turn of the attribute loop. *)
Lemma wp_instanced_attrib (i : nat) B V v n (att : gmap N VertexAttrib)
    (Q : unit -> Env -> Prop) (e : Env) :
  geom B (<[v := att]> V) v n (world e) ->
  (forall w', geom B (<[v := <[N.of_nat (i + 1) := instanced_attrib i n]> att]> V) v n w' ->
              Q tt (mkEnv (this e) w')) ->
  wp (in_world (call (glEnableVertexAttribArray (N.of_nat (i + 1)))) ;;
      in_world (call (glVertexAttribPointer (N.of_nat (i + 1)) 4 sizeof_GaussianInstanceGPU
                                            (i * sizeof_vec4))) ;;
      in_world (call (glVertexAttribDivisor (N.of_nat (i + 1)) 1))) Q e.
Proof.
  intros Hg HQ.
  apply wp_bind, wp_in_world. eapply wp_call_geom; [exact Hg | |].
  { intros st HB HV Hv Hb. cbn [gl_step snd]. unfold alter_attrib.
    repeat split; try done. cbn. rewrite HV, Hv. rewrite alter_insert_eq. reflexivity. }
  intros ? w1 Hg1. cbn [this world].
  apply wp_bind, wp_in_world. eapply wp_call_geom; [exact Hg1 | |].
  { intros st HB HV Hv Hb. cbn [gl_step snd]. unfold alter_attrib.
    repeat split; try done. cbn. rewrite HV, Hv, Hb.
    rewrite alter_insert_eq, lookup_insert_eq, insert_insert_eq. reflexivity. }
  intros ? w2 Hg2. cbn [this world].
  apply wp_in_world. eapply wp_call_geom; [exact Hg2 | |].
  { intros st HB HV Hv Hb. cbn [gl_step snd]. unfold alter_attrib.
    repeat split; try done. cbn. rewrite HV, Hv.
    rewrite alter_insert_eq, lookup_insert_eq, insert_insert_eq. reflexivity. }
  intros [] w3 Hg3. cbn [this world]. apply HQ. exact Hg3.
Qed.

Ltac keepG :=
  match goal with
  | Hg : geom ?B ?V ?v ?b _ |- _ =>
      apply (wp_call_inv _ (geom B V v b) (geom B V v b));
        [ exact Hg
        | intros ? ?; by apply geom_keep
        | cbn [this world]; clear Hg; intros ? ? Hg ]
  end.

(** What [init] leaves of the buffers and vertex arrays: the new quad
    mesh under new names, and the objects the renderer held before
    deleted. *)
Lemma init_geometry (width height : Z) (e : Env) B V v b
    (va qb old_vao old_vbo old_ib : GLuint) :
  build_succeeds vs_src fs_src ->
  geom B V v b (world e) ->
  va = fresh ({[0%N]} ∪ dom V : gset N) ->
  qb = fresh ({[0%N]} ∪ dom B : gset N) ->
  old_vao = from_option QuadMesh_vao 0%N (m_quad_mesh (this e)) ->
  old_vbo = from_option QuadMesh_vbo 0%N (m_quad_mesh (this e)) ->
  old_ib = from_option Buffer_m_vbo 0%N (m_instance_buffer (this e) ≫= vbo) ->
  wp (init width height)
     (fun _ e' =>
        m_quad_mesh (this e') = Some (mkQuadMesh (mkVertexArray va) (mkBuffer qb))
        /\ m_instance_buffer (this e') = Some (mkInstanceBuffer None 0)
        /\ geom (released old_ib (released old_vbo (<[qb := quadVerts]> B)))
                (released old_vao (<[va := {[0%N := quad_attrib qb]}]> V))
                (unbound old_vao 0%N) (unbound old_ib (unbound old_vbo qb)) (world e')) e.
Proof.
  intros Hbuild Hg Hva Hqb Hold_vao Hold_vbo Hold_ib. destruct e as [r w]. unfold init.
  cbn [this world] in *.
  apply wp_bind, wp_modify. cbn [this world].
  apply wp_bind. unfold create_shader_program.
  apply wp_try_catch, wp_bind, wp_in_world. cbn [world this].
  eapply wp_mono;
    [|eapply (geom_keeps _ _ _ _ _ _ _ Hg (keeps_geometry_Shader_create_program _ _));
      by apply Shader_create_program_adds].
  intros p w1 [_ Hg1]. cbv beta. apply wp_modify. cbn [this world].
  apply wp_bind, wp_in_world. cbn [this world].
  eapply wp_mono; [|exact (geom_QuadMesh_new _ _ _ _ _ _ _ Hg1 Hva Hqb)].
  intros ? w2 [-> Hg2].
  apply wp_bind, wp_gets. cbn [this world m_quad_mesh].
  apply wp_bind, wp_modify. cbn [this world].
  apply wp_bind, wp_in_world. cbn [this world].
  assert (wp (reset (m_quad_mesh r) QuadMesh_delete)
             (fun _ w' => geom (released old_vbo (<[qb := quadVerts]> B))
                               (released old_vao (<[va := {[0%N := quad_attrib qb]}]> V))
                               (unbound old_vao 0%N) (unbound old_vbo qb) w') w2) as Hq.
  { subst old_vao old_vbo. clear Hold_ib. destruct (m_quad_mesh r) as [q|]; cbn [reset from_option].
    - unfold QuadMesh_delete, QuadMesh_vao, QuadMesh_vbo, VertexArray_handle, Buffer_handle.
      apply wp_bind. eapply wp_mono; [|exact (geom_Buffer_delete _ _ _ _ _ _ Hg2)].
      intros ? w3 Hg3. cbv beta. exact (geom_VertexArray_delete _ _ _ _ _ _ Hg3).
    - apply wp_ret. exact Hg2. }
  eapply wp_mono; [|exact Hq]. intros ? w3 Hg3. cbv beta.
  apply wp_bind, wp_gets. cbn [this world m_instance_buffer].
  apply wp_bind, wp_modify. cbn [this world].
  apply wp_in_world. cbn [this world m_quad_mesh m_instance_buffer].
  assert (wp (reset (m_instance_buffer r) (fun ib => reset (vbo ib) Buffer_delete))
             (fun _ w' => geom (released old_ib (released old_vbo (<[qb := quadVerts]> B)))
                               (released old_vao (<[va := {[0%N := quad_attrib qb]}]> V))
                               (unbound old_vao 0%N) (unbound old_ib (unbound old_vbo qb)) w')
             w3) as Hib.
  { subst old_ib. destruct (m_instance_buffer r) as [ib|]; cbn [reset mbind option_bind];
      [|apply wp_ret; exact Hg3].
    destruct (vbo ib) as [bf|]; cbn [reset from_option]; [|apply wp_ret; exact Hg3].
    exact (geom_Buffer_delete _ _ _ _ _ _ Hg3). }
  eapply wp_mono; [|exact Hib]. intros ? w4 Hg4. cbv beta. by repeat split.
Qed.

(** What [render_scene] leaves of the buffers and vertex arrays: the old
    instance buffer deleted, the packed records in a buffer with a new
    name, and attributes 1 to 4 of the quad's vertex array reading it one
    record an instance. *)
Lemma render_scene_geometry (scene : Scene float) (view projection : mat4 float) (e : Env)
    B V v b (q : QuadMesh) (ib : InstanceBuffer) (att : gmap N VertexAttrib)
    (n old : GLuint) (data : list float) :
  get_gaussians scene <> [] ->
  m_quad_mesh (this e) = Some q ->
  m_instance_buffer (this e) = Some ib ->
  geom B V v b (world e) ->
  V !! QuadMesh_vao q = Some att ->
  n = fresh ({[0%N]} ∪ dom B : gset N) ->
  old = from_option Buffer_m_vbo 0%N (vbo ib) ->
  data = floats_of_instances (pack_instances 0%R (get_gaussians scene)) ->
  wp (render_scene scene view projection)
     (fun _ e' =>
        m_quad_mesh (this e') = Some q
        /\ m_instance_buffer (this e')
           = Some (mkInstanceBuffer (Some (mkBuffer n)) (length (get_gaussians scene)))
        /\ geom (alter (fun _ => data) n (released old (<[n := []]> B)))
                (<[QuadMesh_vao q :=
                     <[4%N := instanced_attrib 3 n]>
                       (<[3%N := instanced_attrib 2 n]>
                          (<[2%N := instanced_attrib 1 n]>
                             (<[1%N := instanced_attrib 0 n]> att)))]> V)
                (QuadMesh_vao q) n (world e')) e.
Proof.
  intros Hne Hq Hib Hg Hatt Hn Hold Hdata.
  unfold render_scene. rewrite bool_decide_eq_false_2 by done.
  destruct e as [r w]. cbn [this world] in *.
  (* Update instance buffer *)
  apply wp_bind, wp_in_world. eapply wp_mono; [|exact (geom_Buffer_new _ _ _ _ _ Hg)].
  intros ? w1 [-> Hg1]. cbn [world this Buffer_m_vbo Buffer_handle] in *.
  rewrite <- Hn in Hg1 |- *.
  apply wp_bind, wp_bind, wp_gets. cbn [this m_instance_buffer]. rewrite Hib. apply wp_deref.
  apply wp_bind, wp_modify. cbn [this world].
  apply wp_bind, wp_in_world. cbn [world].
  assert (wp (reset (vbo ib) Buffer_delete)
             (fun _ w' => geom (released old (<[n := []]> B)) V v (unbound old b) w') w1)
    as Hreset.
  { subst old. destruct (vbo ib) as [bf|]; cbn [reset from_option];
      [|apply wp_ret; exact Hg1].
    exact (geom_Buffer_delete _ _ _ _ _ _ Hg1). }
  eapply wp_mono; [|exact Hreset]. intros ? w2 Hg2. cbv beta. clear Hreset Hg1 Hg.
  apply wp_bind, wp_in_world. cbn [world].
  eapply wp_mono; [|exact (geom_Buffer_set_data _ _ _ _ _ _ _ _ Hg2)].
  intros ? w3 Hg. cbv beta. clear Hg2.
  rewrite <- Hdata in Hg.
  apply wp_bind, wp_modify. cbn [this world m_viewport_width m_viewport_height m_program
                                  m_quad_mesh].
  rewrite pack_instances_length.
  (* Setup rendering state, program, uniforms *)
  do 4 (apply wp_bind; keepG).
  apply wp_bind, wp_gets.
  do 5 (apply wp_bind; keepG).
  apply wp_bind, wp_bind, wp_gets. cbn [this m_quad_mesh]. rewrite Hq. apply wp_deref.
  (* Bind the vertex array and the instance buffer *)
  apply wp_bind, wp_in_world. cbn [this world].
  eapply (wp_call_geom _ _ _ _ _ _ _ (QuadMesh_vao q)); [exact Hg | |].
  { intros st HB HV Hv Hb. cbn [gl_step snd]. by repeat split. }
  clear Hg. intros ? w4 Hg.
  apply wp_bind, wp_in_world. cbn [this world].
  eapply (wp_call_geom _ _ _ _ _ _ _ _ n); [exact Hg | |].
  { intros st HB HV Hv Hb. cbn [gl_step snd]. by repeat split. }
  clear Hg. intros ? w5 Hg.
  rewrite <- (insert_id V _ _ Hatt) in Hg.
  (* Define instanced attributes *)
  cbn [for_each].
  apply wp_bind.
  apply wp_bind. eapply (wp_instanced_attrib 0); [exact Hg|]. clear Hg. intros w6 Hg.
  apply wp_bind. eapply (wp_instanced_attrib 1); [exact Hg|]. clear Hg. intros w7 Hg.
  apply wp_bind. eapply (wp_instanced_attrib 2); [exact Hg|]. clear Hg. intros w8 Hg.
  apply wp_bind. eapply (wp_instanced_attrib 3); [exact Hg|]. clear Hg. intros w9 Hg.
  cbn [N.of_nat Nat.add Pos.of_succ_nat Pos.succ] in Hg.
  apply wp_ret.
  (* Draw *)
  apply wp_bind, wp_bind, wp_gets. cbn [this m_instance_buffer]. apply wp_deref.
  cbn [instance_count].
  apply wp_bind; keepG.
  (* Cleanup state *)
  do 3 (apply wp_bind; keepG).
  destruct (negb _).
  - apply wp_in_world. cbn [world this m_quad_mesh m_instance_buffer]. by repeat split.
  - apply wp_ret. cbn [world this m_quad_mesh m_instance_buffer]. by repeat split.
Qed.


Lemma fresh_name_ne {X} (m : gmap N X) (x : GLuint) :
  x = 0%N \/ is_Some (m !! x) -> fresh ({[0%N]} ∪ dom m : gset N) <> x.
Proof.
  intros Hx <-. apply (is_fresh ({[0%N]} ∪ dom m : gset N)).
  apply elem_of_union. destruct Hx as [Hx|Hx].
  - left. apply elem_of_singleton. exact Hx.
  - right. apply elem_of_dom. exact Hx.
Qed.

Lemma fresh_name_new {X} (m : gmap N X) :
  fresh ({[0%N]} ∪ dom m : gset N) <> 0%N /\ m !! fresh ({[0%N]} ∪ dom m : gset N) = None.
Proof.
  pose proof (is_fresh ({[0%N]} ∪ dom m : gset N)) as Hfresh. split.
  - intros Heq. apply Hfresh, elem_of_union. left. apply elem_of_singleton. exact Heq.
  - apply not_elem_of_dom. intros Hin. apply Hfresh, elem_of_union. by right.
Qed.

Lemma released_lookup_ne {X} (name x : GLuint) (m : gmap N X) :
  x <> name -> released name m !! x = m !! x.
Proof.
  intros Hne. unfold released. destruct (N.eqb name 0); [done|]. by rewrite lookup_delete_ne.
Qed.

Lemma released_0 {X} (m : gmap N X) : released 0%N m = m.
Proof. reflexivity. Qed.

Lemma released_lookup {X} (name x : GLuint) (m : gmap N X) :
  name = 0%N \/ x <> name -> released name m !! x = m !! x.
Proof.
  intros [-> | Hne]; [reflexivity | by apply released_lookup_ne].
Qed.

Lemma released_insert_ne {X} (name x : GLuint) (a : X) (m : gmap N X) :
  x <> name -> released name (<[x := a]> m) = <[x := a]> (released name m).
Proof.
  intros Hne. unfold released. destruct (N.eqb name 0); [done|].
  by rewrite delete_insert_ne.
Qed.

(** The handle of an owned object, or 0 for none, is 0 or names an
    object. *)
Lemma owned_names (e : Env) :
  owns_objects e ->
  let old_vao := from_option QuadMesh_vao 0%N (m_quad_mesh (this e)) in
  let old_vbo := from_option QuadMesh_vbo 0%N (m_quad_mesh (this e)) in
  let old_ib := from_option Buffer_m_vbo 0%N (m_instance_buffer (this e) ≫= vbo) in
  (old_vao = 0%N \/ is_Some (gl_vertex_arrays (gl (world e)) !! old_vao))
  /\ (old_vbo = 0%N \/ is_Some (gl_buffers (gl (world e)) !! old_vbo))
  /\ (old_ib = 0%N \/ is_Some (gl_buffers (gl (world e)) !! old_ib)).
Proof.
  intros [Hq Hib]. cbv zeta.
  destruct (m_quad_mesh (this e)) as [q|]; cbn [from_option].
  - destruct (Hq q eq_refl) as [Hva Hvb]. split; [by right|]. split; [by right|].
    destruct (m_instance_buffer (this e)) as [ib|]; cbn [mbind option_bind from_option];
      [|by left].
    destruct (vbo ib) as [bf|] eqn:Hbf; cbn [from_option]; [|by left].
    right. by apply (Hib ib bf).
  - split; [by left|]. split; [by left|].
    destruct (m_instance_buffer (this e)) as [ib|]; cbn [mbind option_bind from_option];
      [|by left].
    destruct (vbo ib) as [bf|] eqn:Hbf; cbn [from_option]; [|by left].
    right. by apply (Hib ib bf).
Qed.

(** X18.  On a renderer that owns its objects, [render_scene] deletes the
    buffer of the previous frame, if any, and stores the packed records
    under a new name; every other buffer is as before.  The frames do not
    pile up buffers. *)
Theorem render_scene_buffers (scene : Scene float) (view projection : mat4 float) (e : Env) :
  get_gaussians scene <> [] ->
  initialised (this e) ->
  owns_objects e ->
  exists (e' : Env) (n : GLuint),
    render_scene scene view projection e = Ok tt e'
    /\ n <> 0%N
    /\ gl_buffers (gl (world e)) !! n = None
    /\ m_instance_buffer (this e')
       = Some (mkInstanceBuffer (Some (mkBuffer n)) (length (get_gaussians scene)))
    /\ gl_buffers (gl (world e'))
       = <[n := floats_of_instances (pack_instances 0%R (get_gaussians scene))]>
           (released (from_option Buffer_m_vbo 0%N (m_instance_buffer (this e) ≫= vbo))
                     (gl_buffers (gl (world e))))
    /\ owns_objects e'.
Proof.
  intros Hne [[q Hq] [ib Hib]] Howns.
  destruct (owned_names e Howns) as (_ & _ & Hold). cbv zeta in Hold.
  destruct (proj1 Howns q Hq) as [[att Hatt] Hqb].
  rewrite Hib in Hold |- *. cbn [mbind option_bind] in Hold |- *.
  set (B := gl_buffers (gl (world e))) in *.
  set (old := from_option Buffer_m_vbo 0%N (vbo ib)) in *.
  set (n := fresh ({[0%N]} ∪ dom B : gset N)).
  set (data := floats_of_instances (pack_instances 0%R (get_gaussians scene))).
  destruct (fresh_name_new B) as [Hn0 HnB]. fold n in Hn0, HnB.
  assert (n <> old) as Hn_old by (by apply fresh_name_ne).
  destruct (wp_elim _ _ _
              (render_scene_geometry scene view projection e _ _ _ _ q ib att n old data
                 Hne Hq Hib (geom_intro (world e)) Hatt eq_refl eq_refl eq_refl))
    as ([] & e' & Hrun & Hq' & Hib' & Hg).
  apply geom_elim in Hg as (HB' & HV' & _ & _).
  assert (gl_buffers (gl (world e')) = <[n := data]> (released old B)) as HB''.
  { rewrite HB'. rewrite released_insert_ne by done. by rewrite alter_insert_eq. }
  clear HB'.
  exists e', n. split; [exact Hrun|]. split; [exact Hn0|]. split; [exact HnB|].
  split; [exact Hib'|]. split; [exact HB''|].
  destruct Hqb as [qd Hqd]. fold B in Hqd.
  assert (QuadMesh_vbo q <> n) as Hne_q.
  { intros Heq. rewrite Heq in Hqd. by pose proof (eq_trans (eq_sym Hqd) HnB). }
  split.
  - intros q'. rewrite Hq'. intros [= <-]. rewrite HB'', HV'. split.
    + rewrite lookup_insert_eq. eauto.
    + rewrite lookup_insert_ne by done. rewrite released_lookup; [eauto|].
      subst old. destruct (vbo ib) as [bf|] eqn:Hbf; cbn [from_option]; [right | by left].
      intros Heq. by apply (proj2 (proj2 Howns ib bf Hib Hbf) q Hq).
  - intros ib' bf. rewrite Hib', Hq'. intros [= <-] [= <-]. cbn [Buffer_m_vbo]. split.
    + rewrite HB'', lookup_insert_eq. eauto.
    + intros q' [= <-]. congruence.
Qed.


(** *** What the vertex shader is fed *)

Lemma take4_vec4_at {F} (buf : list F) (start : nat) (v : vec4 F) :
  vec4_at buf start = Some v -> take 4 (drop start buf) = floats_of_vec4 v.
Proof.
  unfold vec4_at. destruct (drop start buf) as [|a [|b [|c [|d l]]]]; try discriminate.
  by intros [= <-].
Qed.

Lemma fetch_groups {F} (insts : list (GaussianInstanceGPU F)) (k : nat)
    (inst : GaussianInstanceGPU F) :
  insts !! k = Some inst ->
  take 4 (drop (16 * k) (floats_of_instances insts)) = floats_of_vec4 (mean_opacity inst)
  /\ take 4 (drop (16 * k + 4) (floats_of_instances insts)) = floats_of_vec4 (quat inst)
  /\ take 4 (drop (16 * k + 8) (floats_of_instances insts))
     = floats_of_vec4 (scale_colorx inst)
  /\ take 4 (drop (16 * k + 12) (floats_of_instances insts))
     = floats_of_vec4 (coloryz_pad inst).
Proof.
  intros Hk. pose proof (instance_at_floats insts k) as Hat. rewrite Hk in Hat.
  unfold instance_at in Hat.
  destruct (vec4_at _ (16 * k)) as [m|] eqn:Hm; [|discriminate].
  destruct (vec4_at _ (16 * k + 4)) as [q|] eqn:Hq; [|discriminate].
  destruct (vec4_at _ (16 * k + 8)) as [s|] eqn:Hs; [|discriminate].
  destruct (vec4_at _ (16 * k + 12)) as [c|] eqn:Hc; [|discriminate].
  cbn in Hat. injection Hat as <-. cbn [mean_opacity quat scale_colorx coloryz_pad].
  repeat split; by apply take4_vec4_at.
Qed.

(** An instanced attribute of [render_scene] reads group [i] of the
    record of the instance. *)
Lemma fetch_instanced (st : GLState) (vao n : GLuint) (att : gmap N VertexAttrib)
    (data : list float) (i vertex k : nat) (group : vec4 float) :
  gl_vertex_arrays st !! vao = Some att ->
  att !! N.of_nat (i + 1) = Some (instanced_attrib i n) ->
  gl_buffers st !! n = Some data ->
  take 4 (drop (16 * k + 4 * i) data) = floats_of_vec4 group ->
  fetch_attrib st vao (N.of_nat (i + 1)) vertex k = Some (floats_of_vec4 group).
Proof.
  intros Hvao Hatt Hdata Htake. unfold fetch_attrib, GLuint in *.
  rewrite Hvao. cbn [mbind option_bind]. rewrite Hatt. cbn [mbind option_bind].
  unfold instanced_attrib, effective_stride.
  cbn [va_enabled va_size va_stride va_offset va_divisor va_buffer].
  rewrite Hdata. cbn [mbind option_bind].
  change (Nat.eqb 1 0) with false. change (Nat.eqb sizeof_GaussianInstanceGPU 0) with false.
  cbv iota. rewrite Nat.div_1_r.
  assert ((i * sizeof_vec4 + sizeof_GaussianInstanceGPU * k) / sizeof_float
          = 16 * k + 4 * i)%nat as ->.
  { unfold sizeof_vec4, sizeof_GaussianInstanceGPU, sizeof_float.
    replace (i * 16 + 64 * k)%nat with ((16 * k + 4 * i) * 4)%nat by lia.
    by apply Nat.div_mul. }
  rewrite Htake. by rewrite bool_decide_eq_true_2.
Qed.

Lemma frame_geometry (width height : Z) (scene : Scene float)
    (view projection : mat4 float) (e : Env) :
  build_succeeds vs_src fs_src ->
  owns_objects e ->
  get_gaussians scene <> [] ->
  exists (e1 e2 : Env) (q : QuadMesh),
    init width height e = Ok tt e1
    /\ render_scene scene view projection e1 = Ok tt e2
    /\ m_quad_mesh (this e2) = Some q
    /\ vertex_array (gl_bind (gl (world e2))) = QuadMesh_vao q
    /\ owns_objects e2
    /\ (forall vertex instance : nat,
          (vertex < 6)%nat ->
          fetch_attrib (gl (world e2)) (QuadMesh_vao q) 0 vertex instance
          = Some (take 2 (drop (2 * vertex) quadVerts)))
    /\ (forall (vertex instance : nat) (g : Gaussian3D float),
          get_gaussians scene !! instance = Some g ->
          fetch_attrib (gl (world e2)) (QuadMesh_vao q) 1 vertex instance
          = Some (floats_of_vec4 (mean_opacity (pack_instance 0%R g)))
          /\ fetch_attrib (gl (world e2)) (QuadMesh_vao q) 2 vertex instance
             = Some (floats_of_vec4 (quat (pack_instance 0%R g)))
          /\ fetch_attrib (gl (world e2)) (QuadMesh_vao q) 3 vertex instance
             = Some (floats_of_vec4 (scale_colorx (pack_instance 0%R g)))
          /\ fetch_attrib (gl (world e2)) (QuadMesh_vao q) 4 vertex instance
             = Some (floats_of_vec4 (coloryz_pad (pack_instance 0%R g)))).
Proof.
  intros Hbuild Howns Hne.
  destruct (owned_names e Howns) as (Hold_vao & Hold_vbo & Hold_ib). cbv zeta in *.
  set (B0 := gl_buffers (gl (world e))) in *.
  set (V0 := gl_vertex_arrays (gl (world e))) in *.
  set (old_vao := from_option QuadMesh_vao 0%N (m_quad_mesh (this e))) in *.
  set (old_vbo := from_option QuadMesh_vbo 0%N (m_quad_mesh (this e))) in *.
  set (old_ib := from_option Buffer_m_vbo 0%N (m_instance_buffer (this e) ≫= vbo)) in *.
  set (va := fresh ({[0%N]} ∪ dom V0 : gset N)).
  set (qb := fresh ({[0%N]} ∪ dom B0 : gset N)).
  assert (va <> old_vao) as Hva by (by apply fresh_name_ne).
  assert (qb <> old_vbo) as Hqb by (by apply fresh_name_ne).
  assert (qb <> old_ib) as Hqb' by (by apply fresh_name_ne).
  (* init *)
  destruct (wp_elim _ _ _
              (init_geometry width height e _ _ _ _ va qb old_vao old_vbo old_ib
                 Hbuild (geom_intro (world e)) eq_refl eq_refl eq_refl eq_refl eq_refl))
    as ([] & e1 & Hinit & Hq1 & Hib1 & Hg1).
  fold B0 V0 in Hg1.
  set (B1 := released old_ib (released old_vbo (<[qb := quadVerts]> B0))) in *.
  set (V1 := released old_vao (<[va := {[0%N := quad_attrib qb]}]> V0)) in *.
  assert (B1 !! qb = Some quadVerts) as HB1_qb.
  { subst B1. rewrite !released_lookup_ne by done. apply lookup_insert_eq. }
  assert (V1 !! va = Some {[0%N := quad_attrib qb]}) as HV1_va.
  { subst V1. rewrite released_lookup_ne by done. apply lookup_insert_eq. }
  (* render_scene *)
  set (n := fresh ({[0%N]} ∪ dom B1 : gset N)).
  assert (n <> qb) as Hn_qb by (apply fresh_name_ne; right; eauto).
  set (data := floats_of_instances (pack_instances 0%R (get_gaussians scene))).
  destruct (wp_elim _ _ _
              (render_scene_geometry scene view projection e1 _ _ _ _
                 (mkQuadMesh (mkVertexArray va) (mkBuffer qb)) (mkInstanceBuffer None 0)
                 {[0%N := quad_attrib qb]} n 0%N data
                 Hne Hq1 Hib1 Hg1 HV1_va eq_refl eq_refl eq_refl))
    as ([] & e2 & Hrender & Hq2 & Hib2 & Hg2).
  apply geom_elim in Hg2 as (HB2 & HV2 & Hv2 & _).
  unfold QuadMesh_vao, VertexArray_handle in HV2, Hv2.
  cbn [m_vao VertexArray_m_vao] in HV2, Hv2.
  assert (gl_buffers (gl (world e2)) = <[n := data]> B1) as HB2'.
  { rewrite HB2, released_0. by rewrite alter_insert_eq. }
  clear HB2.
  set (att := <[4%N := instanced_attrib 3 n]>
                (<[3%N := instanced_attrib 2 n]>
                   (<[2%N := instanced_attrib 1 n]>
                      (<[1%N := instanced_attrib 0 n]> {[0%N := quad_attrib qb]})))) in *.
  assert (gl_vertex_arrays (gl (world e2)) !! va = Some att) as Hva2.
  { rewrite HV2. apply lookup_insert_eq. }
  assert (gl_buffers (gl (world e2)) !! qb = Some quadVerts) as Hqb2.
  { rewrite HB2'. by rewrite lookup_insert_ne. }
  assert (gl_buffers (gl (world e2)) !! n = Some data) as Hn2.
  { rewrite HB2'. apply lookup_insert_eq. }
  exists e1, e2, (mkQuadMesh (mkVertexArray va) (mkBuffer qb)).
  unfold QuadMesh_vao, QuadMesh_vbo, VertexArray_handle, Buffer_handle.
  cbn [m_vao m_vbo VertexArray_m_vao Buffer_m_vbo].
  split; [exact Hinit|]. split; [exact Hrender|]. split; [exact Hq2|]. split; [exact Hv2|].
  split; [|split].
  - split.
    + intros q'. rewrite Hq2. intros [= <-].
      unfold QuadMesh_vao, QuadMesh_vbo, VertexArray_handle, Buffer_handle.
      cbn [m_vao m_vbo VertexArray_m_vao Buffer_m_vbo].
      split; eauto.
    + intros ib' bf. rewrite Hib2, Hq2. intros [= <-] [= <-]. cbn [Buffer_m_vbo].
      split; [eauto|]. intros q' [= <-].
      unfold QuadMesh_vbo, Buffer_handle. cbn [m_vbo Buffer_m_vbo]. exact Hn_qb.
  - intros vertex instance Hvertex. unfold fetch_attrib, GLuint in *.
    rewrite Hva2. cbn [mbind option_bind].
    assert (att !! 0%N = Some (quad_attrib qb)) as ->.
    { subst att. rewrite !lookup_insert_ne by done. apply lookup_singleton_eq. }
    cbn [mbind option_bind quad_attrib va_enabled va_size va_stride va_offset va_divisor
         va_buffer].
    rewrite Hqb2. cbn [mbind option_bind].
    do 6 (destruct vertex as [|vertex]; [reflexivity|]). lia.
  - intros vertex instance g Hg.
    assert (pack_instances 0%R (get_gaussians scene) !! instance = Some (pack_instance 0%R g))
      as Hinst.
    { rewrite pack_instances_map, list_lookup_fmap.
      exact (f_equal (fmap (pack_instance 0%R)) Hg). }
    destruct (fetch_groups _ _ _ Hinst) as (Hm & Hq & Hs & Hc). fold data in Hm, Hq, Hs, Hc.
    assert (att !! 1%N = Some (instanced_attrib 0 n)) as Hatt1.
    { subst att. rewrite !lookup_insert_ne by done. apply lookup_insert_eq. }
    assert (att !! 2%N = Some (instanced_attrib 1 n)) as Hatt2.
    { subst att. rewrite !lookup_insert_ne by done. apply lookup_insert_eq. }
    assert (att !! 3%N = Some (instanced_attrib 2 n)) as Hatt3.
    { subst att. rewrite !lookup_insert_ne by done. apply lookup_insert_eq. }
    assert (att !! 4%N = Some (instanced_attrib 3 n)) as Hatt4.
    { subst att. by rewrite lookup_insert_eq. }
    split; [|split; [|split]].
    + apply (fetch_instanced _ va n att data 0); [exact Hva2 | exact Hatt1 | exact Hn2 |].
      by rewrite Nat.add_0_r.
    + by apply (fetch_instanced _ va n att data 1); [exact Hva2 | exact Hatt2 | exact Hn2 |].
    + by apply (fetch_instanced _ va n att data 2); [exact Hva2 | exact Hatt3 | exact Hn2 |].
    + by apply (fetch_instanced _ va n att data 3); [exact Hva2 | exact Hatt4 | exact Hn2 |].
Qed.

(** X19.  One pass of the loop of [App::run]: [init], then [render_scene] on a
    scene with records.  When [render_scene] returns, the quad's vertex
    array is bound and, as it was for the draw call, attribute 0 reads
    the corner of the vertex from the quad's buffer, and attributes 1 to 4
    read the four groups of the packed record of the Gaussian whose index
    is the instance: the inputs [iMeanOpacity], [iQuat], [iScaleColorX]
    and [iColorYZPad] of the vertex shader.  The renderer owns its objects
    again. *)
Theorem frame_vertex_inputs (width height : Z) (scene : Scene float)
    (view projection : mat4 float) (e : Env) :
  build_succeeds vs_src fs_src ->
  owns_objects e ->
  get_gaussians scene <> [] ->
  exists (e1 e2 : Env) (q : QuadMesh),
    init width height e = Ok tt e1
    /\ render_scene scene view projection e1 = Ok tt e2
    /\ m_quad_mesh (this e2) = Some q
    /\ vertex_array (gl_bind (gl (world e2))) = QuadMesh_vao q
    /\ owns_objects e2
    /\ (forall vertex instance : nat,
          (vertex < 6)%nat ->
          fetch_attrib (gl (world e2)) (QuadMesh_vao q) 0 vertex instance
          = Some (take 2 (drop (2 * vertex) quadVerts)))
    /\ (forall (vertex instance : nat) (g : Gaussian3D float),
          get_gaussians scene !! instance = Some g ->
          fetch_attrib (gl (world e2)) (QuadMesh_vao q) 1 vertex instance
          = Some (floats_of_vec4 (mean_opacity (pack_instance 0%R g)))
          /\ fetch_attrib (gl (world e2)) (QuadMesh_vao q) 2 vertex instance
             = Some (floats_of_vec4 (quat (pack_instance 0%R g)))
          /\ fetch_attrib (gl (world e2)) (QuadMesh_vao q) 3 vertex instance
             = Some (floats_of_vec4 (scale_colorx (pack_instance 0%R g)))
          /\ fetch_attrib (gl (world e2)) (QuadMesh_vao q) 4 vertex instance
             = Some (floats_of_vec4 (coloryz_pad (pack_instance 0%R g)))).
Proof. apply frame_geometry. Qed.


(** *** The program in use and its uniforms *)

Lemma remove_program_other (old p : GLuint) (st : GLState) :
  p <> old -> gl_programs (remove_program old st) !! p = gl_programs st !! p.
Proof.
  intros Hne. unfold remove_program. destruct (gl_programs st !! old) as [pr|]; [|done].
  cbn. by rewrite lookup_delete_ne.
Qed.

Lemma remove_program_bind (old : GLuint) (st : GLState) :
  gl_bind (remove_program old st) = gl_bind st.
Proof. unfold remove_program. by destruct (gl_programs st !! old). Qed.

Lemma gl_step_keeps_shading {A} (c : GLCall A) (w : World) :
  touches_programs c = false ->
  shading (mkWorld (snd (gl_step c (gl w))) (gl_trace w ++ [gl_event c]) (stderr w))
  = shading w.
Proof.
  unfold shading, programs. cbn [gl].
  destruct c; intros Ht; try discriminate; cbn [gl_step snd]; try reflexivity.
  - by destruct (N.eqb _ _).
  - by destruct (N.eqb _ _).
  - by destruct g.
  - by destruct g.
  - by destruct (attached_somewhere _ _).
Qed.

Lemma keeps_call_shading {A} (c : GLCall A) :
  touches_programs c = false -> keeps shading (call c).
Proof. intros Ht w. unfold call. by apply gl_step_keeps_shading. Qed.

Ltac keeps_shading :=
  repeat first
    [ apply keeps_ret
    | apply keeps_throw
    | apply keeps_call_shading; reflexivity
    | apply keeps_reset; intros ?
    | apply keeps_bind; [|intros ?]
    | match goal with |- keeps _ (if ?b then _ else _) => destruct b end ].

Lemma program_is_shading (p : GLuint) (pr : ProgramObj) (cp : GLuint) (w w' : World) :
  shading w' = shading w -> program_is p pr cp w -> program_is p pr cp w'.
Proof. unfold shading, program_is. intros [= -> ->]. done. Qed.

Lemma program_is_keep {A} (c : GLCall A) (p : GLuint) (pr : ProgramObj) (cp : GLuint)
    (w : World) :
  touches_programs c = false ->
  program_is p pr cp w ->
  program_is p pr cp (mkWorld (snd (gl_step c (gl w))) (gl_trace w ++ [gl_event c]) (stderr w)).
Proof. intros Ht. apply program_is_shading. by apply gl_step_keeps_shading. Qed.

(** A call that returns [a0] and takes worlds of [P] to worlds of [P']. *)
Lemma wp_call_val {A} (c : GLCall A) (P P' : World -> Prop) (a0 : A)
    (Q : A -> Env -> Prop) (e : Env) :
  P (world e) ->
  (forall w, P w ->
     fst (gl_step c (gl w)) = a0
     /\ P' (mkWorld (snd (gl_step c (gl w))) (gl_trace w ++ [gl_event c]) (stderr w))) ->
  (forall w', P' w' -> Q a0 (mkEnv (this e) w')) ->
  wp (in_world (call c)) Q e.
Proof.
  intros HP Hstep HQ. apply wp_in_world, wp_call.
  destruct (Hstep _ HP) as [-> HP']. by apply HQ.
Qed.

Ltac keepP :=
  match goal with
  | Hp : program_is ?p ?pr ?cp _ |- _ =>
      apply (wp_call_inv _ (program_is p pr cp) (program_is p pr cp));
        [ exact Hp
        | intros ? ?; by apply program_is_keep
        | cbn [this world]; clear Hp; intros ? ? Hp ]
  end.

(** [render_scene] leaves the renderer's program in use, with the two
    matrices in its uniforms [uView] and [uProj]. *)
Lemma render_scene_uniforms (scene : Scene float) (view projection : mat4 float) (e : Env)
    (p cp : GLuint) (pr : ProgramObj) :
  get_gaussians scene <> [] ->
  initialised (this e) ->
  m_program (this e) = p ->
  program_is p pr cp (world e) ->
  pr_link_status pr = true ->
  wp (render_scene scene view projection)
     (fun _ e' => program_is p (with_uniform "uProj" projection (with_uniform "uView" view pr))
                             p (world e')) e.
Proof.
  intros Hne [[q Hq] [ib Hib]] Hprog Hp Hlink.
  unfold render_scene. rewrite bool_decide_eq_false_2 by done.
  destruct e as [r w]. cbn [this world] in *.
  (* Update instance buffer *)
  apply wp_bind, wp_in_world. cbn [this world].
  apply (wp_keeps shading);
    [apply returns_Buffer_new | unfold Buffer_new; keeps_shading |].
  intros new_vbo w1 Hw1. apply (program_is_shading _ _ _ _ _ Hw1) in Hp.
  apply wp_bind, wp_bind, wp_gets. cbn [this m_instance_buffer]. rewrite Hib. apply wp_deref.
  apply wp_bind, wp_modify. cbn [this world].
  apply wp_bind, wp_in_world. cbn [this world].
  apply (wp_keeps shading);
    [apply returns_reset, returns_Buffer_delete
    | apply keeps_reset; intros ?; unfold Buffer_delete; keeps_shading |].
  intros ? w2 Hw2. apply (program_is_shading _ _ _ _ _ Hw2) in Hp.
  apply wp_bind, wp_in_world. cbn [this world].
  apply (wp_keeps shading);
    [apply returns_Buffer_set_data | unfold Buffer_set_data, Buffer_bind; keeps_shading |].
  intros ? w3 Hw3. apply (program_is_shading _ _ _ _ _ Hw3) in Hp. clear Hw1 Hw2 Hw3.
  apply wp_bind, wp_modify. cbn [this world m_viewport_width m_viewport_height m_program
                                  m_quad_mesh].
  (* Setup rendering state *)
  do 4 (apply wp_bind; keepP).
  (* Bind program and set uniforms *)
  apply wp_bind, wp_gets. cbn [this world m_program]. rewrite Hprog.
  apply wp_bind.
  apply (wp_call_inv _ (program_is p pr cp) (program_is p pr p)); [exact Hp | |].
  { intros w0 [Hw0 Hcp]. unfold program_is, programs in *. cbn [gl gl_step snd]. rewrite Hcp.
    destruct (gl_programs (gl w0) !! cp) as [old|]; [|by split].
    destruct (pr_delete_status old && negb (N.eqb cp p)) eqn:Hrm; [|by split].
    apply andb_true_iff in Hrm as [_ Hne_cp]. apply negb_true_iff, N.eqb_neq in Hne_cp.
    split; [|by rewrite remove_program_bind].
    rewrite remove_program_other by done. exact Hw0. }
  clear Hp. cbn [this world]. intros ? w4 Hp.
  unfold Shader_get_uniform_location.
  apply wp_bind.
  apply (wp_call_val _ (program_is p pr p) (program_is p pr p) (Some "uView")); [exact Hp | |].
  { intros w0 [Hw0 Hcp]. unfold program_is, programs in *. cbn [gl gl_step fst snd].
    rewrite Hw0. cbv beta iota. rewrite Hlink. by split. }
  clear Hp. cbn [this world]. intros w5 Hp.
  apply wp_bind.
  apply (wp_call_inv _ (program_is p pr p) (program_is p (with_uniform "uView" view pr) p));
    [exact Hp | |].
  { intros w0 [Hw0 Hcp]. unfold program_is, programs in *. cbn [gl gl_step snd]. rewrite Hcp.
    split; [|exact Hcp]. cbn. by rewrite lookup_alter_eq, Hw0. }
  clear Hp. cbn [this world]. intros ? w6 Hp.
  apply wp_bind.
  apply (wp_call_val _ (program_is p (with_uniform "uView" view pr) p)
                       (program_is p (with_uniform "uView" view pr) p) (Some "uProj"));
    [exact Hp | |].
  { intros w0 [Hw0 Hcp]. unfold program_is, programs in *. cbn [gl gl_step fst snd].
    rewrite Hw0. cbv beta iota. cbn [with_uniform pr_link_status]. rewrite Hlink. by split. }
  clear Hp. cbn [this world]. intros w7 Hp.
  apply wp_bind.
  apply (wp_call_inv _ (program_is p (with_uniform "uView" view pr) p)
           (program_is p (with_uniform "uProj" projection (with_uniform "uView" view pr)) p));
    [exact Hp | |].
  { intros w0 [Hw0 Hcp]. unfold program_is, programs in *. cbn [gl gl_step snd]. rewrite Hcp.
    split; [|exact Hcp]. cbn. by rewrite lookup_alter_eq, Hw0. }
  clear Hp. cbn [this world]. intros ? w8 Hp.
  (* Setup VAO and render *)
  apply wp_bind, wp_bind, wp_gets. cbn [this m_quad_mesh]. rewrite Hq. apply wp_deref.
  do 2 (apply wp_bind; keepP).
  cbn [for_each].
  apply wp_bind.
  do 4 (apply wp_bind; do 2 (apply wp_bind; keepP); keepP).
  apply wp_ret.
  apply wp_bind, wp_bind, wp_gets. cbn [this m_instance_buffer]. apply wp_deref.
  do 4 (apply wp_bind; keepP).
  destruct (negb _).
  - apply wp_in_world. cbn [world this]. exact Hp.
  - apply wp_ret. cbn [world this]. exact Hp.
Qed.

Lemma init_adds_program (width height : Z) (e : Env) :
  build_succeeds vs_src fs_src ->
  wp (init width height)
     (fun _ e' => exists pr,
        m_program (this e') <> 0%N
        /\ programs (world e) !! m_program (this e') = None
        /\ programs (world e') = <[m_program (this e') := pr]> (programs (world e))
        /\ pr_link_status pr = true) e.
Proof.
  intros Hbuild. destruct e as [r w]. unfold init. cbn [world].
  apply wp_bind, wp_modify. cbn [this world].
  apply wp_bind. unfold create_shader_program.
  apply wp_try_catch, wp_bind, wp_in_world. cbn [world this].
  eapply wp_mono; [|by apply Shader_create_program_adds].
  intros p w1 (Hp & Hnew & (pr & Hprogs & Hlink) & _). cbv beta.
  apply wp_modify. cbn [this world].
  apply wp_bind, wp_in_world. cbn [this world].
  apply (wp_keeps programs); [apply returns_QuadMesh_new | apply keeps_programs_QuadMesh_new|].
  intros q w2 Hw2.
  apply wp_bind, wp_gets. cbn [this world m_quad_mesh].
  apply wp_bind, wp_modify. cbn [this world].
  apply wp_bind, wp_in_world. cbn [this world].
  apply (wp_keeps programs);
    [apply returns_reset, returns_QuadMesh_delete
    | apply keeps_reset, keeps_programs_QuadMesh_delete |].
  intros _ w3 Hw3.
  apply wp_bind, wp_gets. cbn [this world].
  apply wp_bind, wp_modify. cbn [this world].
  apply wp_in_world. cbn [this world].
  apply (wp_keeps programs).
  { apply returns_reset. intros ib. apply returns_reset, returns_Buffer_delete. }
  { apply keeps_reset. intros ib. apply keeps_reset, keeps_programs_Buffer_delete. }
  intros _ w4 Hw4. cbn [this world m_program].
  exists pr. rewrite Hw4, Hw3, Hw2. done.
Qed.

(** X20.  [init] builds a new program and deletes none: the program object the
    renderer held before, if any, stays in the context, with no name left
    in the renderer to delete it by.  [App::run] calls [init] once a
    frame. *)
Theorem init_keeps_old_program (width height : Z) (e : Env) :
  build_succeeds vs_src fs_src ->
  exists (e' : Env) (pr : ProgramObj),
    init width height e = Ok tt e'
    /\ m_program (this e') <> 0%N
    /\ programs (world e) !! m_program (this e') = None
    /\ programs (world e') = <[m_program (this e') := pr]> (programs (world e))
    /\ pr_link_status pr = true
    /\ size (programs (world e')) = Datatypes.S (size (programs (world e))).
Proof.
  intros Hbuild.
  destruct (wp_elim _ _ _ (init_adds_program width height e Hbuild))
    as ([] & e' & Hinit & pr & Hp & Hnew & Hprogs & Hlink).
  exists e', pr. repeat split; try done. rewrite Hprogs. by apply map_size_insert_None.
Qed.


(** X21.  One pass of the loop of [App::run], from the scene to the vertex
    stage.  After [init] and [render_scene], and so for the draw call, the
    vertex shader run for vertex [vertex] of instance [instance] is
    [vs_main] of the two matrices handed to [render_scene], the corner of
    the quad and the packed record of the Gaussian of that index; its
    outputs carry the corner, the colour and the opacity of that
    Gaussian. *)
Theorem frame_runs_vertex_shader (width height : Z) (scene : Scene float)
    (view projection : mat4 float) (e : Env) :
  build_succeeds vs_src fs_src ->
  owns_objects e ->
  get_gaussians scene <> [] ->
  exists e1 e2 : Env,
    init width height e = Ok tt e1
    /\ render_scene scene view projection e1 = Ok tt e2
    /\ forall (vertex instance : nat) (g : Gaussian3D float),
         (vertex < 6)%nat ->
         get_gaussians scene !! instance = Some g ->
         exists (corner : vec2 float) (out : Glsl.VertexOut),
           quad_corner vertex = Some corner
           /\ run_vertex_shader (gl (world e2)) vertex instance = Some out
           /\ out = Glsl.vs_instance view projection corner (pack_instance 0%R g)
           /\ Glsl.vLocalPos out = corner
           /\ Glsl.vColor out = color g
           /\ Glsl.vOpacity out = opacity g.
Proof.
  intros Hbuild Howns Hne.
  destruct (frame_geometry width height scene view projection e Hbuild Howns Hne)
    as (e1 & e2 & q & Hinit & Hrender & Hq2 & Hv2 & _ & Hcorner & Hinst).
  destruct (wp_elim _ _ _ (init_adds_program width height e Hbuild))
    as ([] & e1' & Hinit' & pr & _ & _ & Hprogs & Hlink).
  rewrite Hinit in Hinit'. injection Hinit' as <-.
  destruct (wp_elim _ _ _ (init_initialises width height e Hbuild))
    as ([] & e1' & Hinit' & [Hready _] & _).
  rewrite Hinit in Hinit'. injection Hinit' as <-.
  assert (program_is (m_program (this e1)) pr (current_program (gl_bind (gl (world e1))))
                     (world e1)) as Hp.
  { split; [|reflexivity]. rewrite Hprogs. apply lookup_insert_eq. }
  destruct (wp_elim _ _ _
              (render_scene_uniforms scene view projection e1 _ _ _ Hne Hready eq_refl Hp Hlink))
    as ([] & e2' & Hrender' & Hpr2 & Hcp2).
  rewrite Hrender in Hrender'. injection Hrender' as <-.
  exists e1, e2. split; [exact Hinit|]. split; [exact Hrender|].
  intros vertex instance g Hvertex Hg.
  destruct (Hinst vertex instance g Hg) as (Hm & Hqt & Hs & Hc).
  specialize (Hcorner vertex instance Hvertex).
  assert (exists corner, quad_corner vertex = Some corner) as [corner Hquad].
  { unfold quad_corner. do 6 (destruct vertex as [|vertex]; [by eexists|]). lia. }
  exists corner, (Glsl.vs_instance view projection corner (pack_instance 0%R g)).
  split; [exact Hquad|]. split; [|split; [reflexivity|]].
  - unfold run_vertex_shader. unfold programs in Hpr2. rewrite Hcp2, Hpr2, Hv2.
    cbn [mbind option_bind with_uniform pr_uniforms].
    rewrite (lookup_insert_ne _ "uProj" "uView") by discriminate.
    rewrite !lookup_insert_eq. cbn [mbind option_bind].
    rewrite Hcorner, Hm, Hqt, Hs, Hc. cbn [mbind option_bind].
    unfold quad_corner in Hquad. rewrite Hquad. cbn [mbind option_bind].
    destruct g as [[] [] [] ? []]. reflexivity.
  - destruct g as [[] [] [] ? []]. by repeat split.
Qed.


(** *** Draw calls *)

Lemma draw_calls_call {A} (c : GLCall A) (w : World) :
  draw_calls (mkWorld (snd (gl_step c (gl w))) (gl_trace w ++ [gl_event c]) (stderr w))
  = draw_calls w ++ from_option (fun n => [n]) [] (draw_count (gl_event c)).
Proof.
  unfold draw_calls. cbn [gl_trace]. rewrite omap_app. f_equal.
Qed.

Lemma draw_calls_keep {A} (c : GLCall A) (w : World) :
  is_draw c = false ->
  draw_calls (mkWorld (snd (gl_step c (gl w))) (gl_trace w ++ [gl_event c]) (stderr w))
  = draw_calls w.
Proof.
  intros Hc. rewrite draw_calls_call.
  assert (draw_count (gl_event c) = None) as -> by (by destruct c).
  apply app_nil_r.
Qed.

Lemma keeps_call_draws {A} (c : GLCall A) : is_draw c = false -> keeps draw_calls (call c).
Proof. intros Hc w. unfold call. by apply draw_calls_keep. Qed.

Ltac keeps_draws :=
  repeat first
    [ apply keeps_ret
    | apply keeps_throw
    | apply keeps_call_draws; reflexivity
    | apply keeps_reset; intros ?
    | apply keeps_bind; [|intros ?]
    | match goal with |- keeps _ (if ?b then _ else _) => destruct b end ].

Ltac keepD :=
  match goal with
  | Hd : draw_calls _ = ?D |- _ =>
      apply (wp_call_inv _ (fun w => draw_calls w = D) (fun w => draw_calls w = D));
        [ exact Hd
        | intros ? ?; by rewrite draw_calls_keep
        | cbn [this world]; clear Hd; intros ? ? Hd ]
  end.

Lemma to_GLsizei_small (n : nat) : (Z.of_nat n < 2 ^ 31)%Z -> to_GLsizei n = Z.of_nat n.
Proof.
  intros Hn. unfold to_GLsizei.
  rewrite Z.mod_small by lia. by rewrite (proj2 (Z.ltb_lt _ _) Hn).
Qed.

(** X22.  A frame draws once: however many Gaussians the scene has,
    [render_scene] adds one draw call to those of the context, with as
    many instances as the scene has Gaussians, as long as these are fewer
    than 2^31. *)
Theorem render_scene_draws_once (scene : Scene float) (view projection : mat4 float)
    (e : Env) :
  get_gaussians scene <> [] ->
  initialised (this e) ->
  exists e' : Env,
    render_scene scene view projection e = Ok tt e'
    /\ draw_calls (world e')
       = draw_calls (world e) ++ [to_GLsizei (length (get_gaussians scene))]
    /\ ((Z.of_nat (length (get_gaussians scene)) < 2 ^ 31)%Z ->
        draw_calls (world e')
        = draw_calls (world e) ++ [Z.of_nat (length (get_gaussians scene))]).
Proof.
  intros Hne [[q Hq] [ib Hib]].
  cut (wp (render_scene scene view projection)
          (fun _ e' => draw_calls (world e')
                       = draw_calls (world e) ++ [to_GLsizei (length (get_gaussians scene))])
          e).
  { intros Hwp. apply wp_elim in Hwp as ([] & e' & Hrun & Hdraws).
    exists e'. split; [exact Hrun|]. split; [exact Hdraws|].
    intros Hsmall. by rewrite Hdraws, to_GLsizei_small. }
  unfold render_scene. rewrite bool_decide_eq_false_2 by done.
  destruct e as [r w]. cbn [this world] in *.
  (* Update instance buffer *)
  apply wp_bind, wp_in_world. cbn [this world].
  apply (wp_keeps draw_calls);
    [apply returns_Buffer_new | unfold Buffer_new; keeps_draws |].
  intros new_vbo w1 Hd.
  apply wp_bind, wp_bind, wp_gets. cbn [this m_instance_buffer]. rewrite Hib. apply wp_deref.
  apply wp_bind, wp_modify. cbn [this world].
  apply wp_bind, wp_in_world. cbn [this world].
  apply (wp_keeps draw_calls);
    [apply returns_reset, returns_Buffer_delete
    | apply keeps_reset; intros ?; unfold Buffer_delete; keeps_draws |].
  intros ? w2 Hd2. rewrite Hd in Hd2. clear Hd. rename Hd2 into Hd.
  apply wp_bind, wp_in_world. cbn [this world].
  apply (wp_keeps draw_calls);
    [apply returns_Buffer_set_data | unfold Buffer_set_data, Buffer_bind; keeps_draws |].
  intros ? w3 Hd3. rewrite Hd in Hd3. clear Hd. rename Hd3 into Hd.
  apply wp_bind, wp_modify. cbn [this world m_viewport_width m_viewport_height m_program
                                  m_quad_mesh].
  rewrite pack_instances_length.
  do 4 (apply wp_bind; keepD).
  apply wp_bind, wp_gets.
  do 5 (apply wp_bind; keepD).
  apply wp_bind, wp_bind, wp_gets. cbn [this m_quad_mesh]. rewrite Hq. apply wp_deref.
  do 2 (apply wp_bind; keepD).
  cbn [for_each].
  apply wp_bind.
  do 4 (apply wp_bind; do 2 (apply wp_bind; keepD); keepD).
  apply wp_ret.
  (* Draw *)
  apply wp_bind, wp_bind, wp_gets. cbn [this m_instance_buffer]. apply wp_deref.
  cbn [instance_count].
  apply wp_bind.
  apply (wp_call_inv _ (fun w0 => draw_calls w0 = draw_calls w)
           (fun w0 => draw_calls w0
                      = draw_calls w ++ [to_GLsizei (length (get_gaussians scene))]));
    [exact Hd | |].
  { intros w0 Hw0. rewrite draw_calls_call, Hw0. reflexivity. }
  clear Hd. cbn [this world]. intros ? w4 Hd.
  (* Cleanup state *)
  do 3 (apply wp_bind; keepD).
  destruct (negb _).
  - apply wp_in_world. cbn [world this]. exact Hd.
  - apply wp_ret. cbn [world this]. exact Hd.
Qed.

(** *** The destructor *)

(** X23.  [~Renderer] returns, and releases the buffers and the vertex array
    the renderer owns and nothing else; of the program objects it takes
    away at most the one the renderer holds. *)
Theorem Renderer_delete_releases (e : Env) :
  exists e' : Env,
    Renderer_delete e = Ok tt e'
    /\ gl_buffers (gl (world e'))
       = released (from_option QuadMesh_vbo 0%N (m_quad_mesh (this e)))
           (released (from_option Buffer_m_vbo 0%N (m_instance_buffer (this e) ≫= vbo))
                     (gl_buffers (gl (world e))))
    /\ gl_vertex_arrays (gl (world e'))
       = released (from_option QuadMesh_vao 0%N (m_quad_mesh (this e)))
                  (gl_vertex_arrays (gl (world e)))
    /\ (forall p, p <> m_program (this e) ->
                  programs (world e') !! p = programs (world e) !! p).
Proof.
  cut (wp Renderer_delete
          (fun _ e' =>
             geom (released (from_option QuadMesh_vbo 0%N (m_quad_mesh (this e)))
                     (released (from_option Buffer_m_vbo 0%N
                                  (m_instance_buffer (this e) ≫= vbo))
                               (gl_buffers (gl (world e)))))
                  (released (from_option QuadMesh_vao 0%N (m_quad_mesh (this e)))
                            (gl_vertex_arrays (gl (world e))))
                  (vertex_array (gl_bind (gl (world e'))))
                  (array_buffer (gl_bind (gl (world e')))) (world e')
             /\ forall p, p <> m_program (this e) ->
                          programs (world e') !! p = programs (world e) !! p) e).
  { intros Hwp. apply wp_elim in Hwp as ([] & e' & Hrun & Hg & Hprogs).
    apply geom_elim in Hg as (HB & HV & _). eauto. }
  destruct e as [r w]. unfold Renderer_delete. cbn [this world].
  pose proof (geom_intro w) as Hg.
  apply wp_bind, wp_gets. cbn [this world].
  apply wp_bind.
  assert (wp (if negb (N.eqb (m_program r) 0)
              then in_world (call (glDeleteProgram (m_program r))) else mret tt)
             (fun _ e' => this e' = r
                          /\ geom (gl_buffers (gl w)) (gl_vertex_arrays (gl w))
                                  (vertex_array (gl_bind (gl w)))
                                  (array_buffer (gl_bind (gl w))) (world e')
                          /\ forall p, p <> m_program r ->
                                       programs (world e') !! p = programs w !! p)
             (mkEnv r w)) as Hprog.
  { destruct (negb _); [|by apply wp_ret].
    apply wp_in_world, wp_call. cbn [this world]. split; [reflexivity|].
    split; [by apply geom_keep|].
    intros p Hp. unfold programs. cbn [gl gl_step snd].
    destruct (N.eqb _ _); [cbn; by rewrite lookup_alter_ne | by apply remove_program_other]. }
  eapply wp_mono; [|exact Hprog]. clear Hprog Hg.
  intros ? [r1 w1] (Hr1 & Hg & Hprogs). cbn [this world] in *. subst r1.
  apply wp_bind, wp_gets. cbn [this world].
  apply wp_bind, wp_in_world. cbn [this world].
  assert (wp (reset (m_instance_buffer r) (fun ib => reset (vbo ib) Buffer_delete))
             (fun _ w' =>
                geom (released (from_option Buffer_m_vbo 0%N (m_instance_buffer r ≫= vbo))
                               (gl_buffers (gl w)))
                     (gl_vertex_arrays (gl w))
                     (vertex_array (gl_bind (gl w)))
                     (unbound (from_option Buffer_m_vbo 0%N (m_instance_buffer r ≫= vbo))
                              (array_buffer (gl_bind (gl w)))) w'
                /\ programs w' = programs w1) w1) as Hib.
  { apply (wp_and_keeps programs).
    - destruct (m_instance_buffer r) as [ib|]; cbn [reset mbind option_bind];
        [|apply wp_ret; exact Hg].
      destruct (vbo ib) as [bf|]; cbn [reset from_option]; [|apply wp_ret; exact Hg].
      exact (geom_Buffer_delete _ _ _ _ _ _ Hg).
    - apply keeps_reset. intros ib. apply keeps_reset, keeps_programs_Buffer_delete. }
  eapply wp_mono; [|exact Hib]. clear Hib Hg. intros ? w2 [Hg Hp2]. cbv beta.
  apply wp_bind, wp_gets. cbn [this world].
  apply wp_in_world. cbn [this world].
  assert (wp (reset (m_quad_mesh r) QuadMesh_delete)
             (fun _ w' =>
                geom (released (from_option QuadMesh_vbo 0%N (m_quad_mesh r))
                        (released (from_option Buffer_m_vbo 0%N (m_instance_buffer r ≫= vbo))
                                  (gl_buffers (gl w))))
                     (released (from_option QuadMesh_vao 0%N (m_quad_mesh r))
                               (gl_vertex_arrays (gl w)))
                     (unbound (from_option QuadMesh_vao 0%N (m_quad_mesh r))
                              (vertex_array (gl_bind (gl w))))
                     (unbound (from_option QuadMesh_vbo 0%N (m_quad_mesh r))
                        (unbound (from_option Buffer_m_vbo 0%N (m_instance_buffer r ≫= vbo))
                                 (array_buffer (gl_bind (gl w))))) w'
                /\ programs w' = programs w2) w2) as Hq.
  { apply (wp_and_keeps programs).
    - destruct (m_quad_mesh r) as [q|]; cbn [reset from_option]; [|apply wp_ret; exact Hg].
      unfold QuadMesh_delete, QuadMesh_vao, QuadMesh_vbo, VertexArray_handle, Buffer_handle.
      apply wp_bind. eapply wp_mono; [|exact (geom_Buffer_delete _ _ _ _ _ _ Hg)].
      intros ? w3 Hg3. cbv beta. exact (geom_VertexArray_delete _ _ _ _ _ _ Hg3).
    - apply keeps_reset, keeps_programs_QuadMesh_delete. }
  eapply wp_mono; [|exact Hq]. clear Hq. intros ? w3 [Hg3 Hp3]. cbn [this world].
  apply geom_elim in Hg3 as (HB & HV & _). split.
  - by apply geom_of.
  - intros p Hp. rewrite Hp3, Hp2. by apply Hprogs.
Qed.


End RendererFacts.

(** Two calls of [init]: two program objects, and the renderer holds the
    second. *)
Lemma init_keeps_old_program_witness :
  exists e1 e2 : Env,
    @init accepting_driver 800 600 (mkEnv Renderer_new world_initial) = Ok tt e1
    /\ @init accepting_driver 800 600 e1 = Ok tt e2
    /\ m_program (this e2) <> m_program (this e1)
    /\ size (programs (world e2)) = 2%nat.
Proof.
  assert (@build_succeeds accepting_driver vs_src fs_src) as Hbuild by (by exists "", "", "").
  destruct (@init_keeps_old_program accepting_driver 800 600
              (mkEnv Renderer_new world_initial) Hbuild)
    as (e1 & pr1 & Hinit1 & _ & _ & Hprogs1 & _ & Hsize1).
  destruct (@init_keeps_old_program accepting_driver 800 600 e1 Hbuild)
    as (e2 & pr2 & Hinit2 & _ & Hnew2 & _ & _ & Hsize2).
  exists e1, e2. split; [exact Hinit1|]. split; [exact Hinit2|]. split.
  - intros Heq. rewrite Heq, Hprogs1, lookup_insert_eq in Hnew2. discriminate.
  - rewrite Hsize2, Hsize1. reflexivity.
Defined.

Lemma owns_objects_new (w : World) : owns_objects (mkEnv Renderer_new w).
Proof. split; [by intros q [=] | by intros ib b [=]]. Qed.

Lemma owns_objects_ready : owns_objects (mkEnv renderer_ready world_ready).
Proof.
  split.
  - intros q [= <-]. split; eexists; reflexivity.
  - intros ib b [= <-] [=].
Qed.

(** The first frame of the red splat leaves its sixteen floats in buffer
    2, next to the quad's buffer 1. *)
Lemma render_scene_buffers_witness :
  exists (e' : Env) (n : GLuint),
    @render_scene accepting_driver (mkScene [red_splat]) mat4_identity mat4_identity
                  (mkEnv renderer_ready world_ready) = Ok tt e'
    /\ n <> 0%N
    /\ gl_buffers (gl (world e'))
       = <[n := floats_of_instances (pack_instances 0%R [red_splat])]> {[1%N := quadVerts]}.
Proof.
  destruct (@render_scene_buffers accepting_driver (mkScene [red_splat]) mat4_identity
              mat4_identity (mkEnv renderer_ready world_ready))
    as (e' & n & Hrun & Hn & _ & _ & Hbufs & _).
  - discriminate.
  - split; by eexists.
  - exact owns_objects_ready.
  - exists e', n. split; [exact Hrun|]. split; [exact Hn|]. exact Hbufs.
Defined.

(** The first frame of the red splat: instance 0 is fed the splat's mean
    and opacity. *)
Lemma frame_vertex_inputs_witness :
  exists (e1 e2 : Env) (q : QuadMesh),
    @init accepting_driver 800 600 (mkEnv Renderer_new world_initial) = Ok tt e1
    /\ @render_scene accepting_driver (mkScene [red_splat]) mat4_identity mat4_identity e1
       = Ok tt e2
    /\ fetch_attrib (gl (world e2)) (QuadMesh_vao q) 1 0 0 = Some [0; 0; 0; 1]%R.
Proof.
  destruct (@frame_vertex_inputs accepting_driver 800 600 (mkScene [red_splat]) mat4_identity
              mat4_identity (mkEnv Renderer_new world_initial))
    as (e1 & e2 & q & Hinit & Hrender & _ & _ & _ & _ & Hinst).
  - by exists "", "", "".
  - apply owns_objects_new.
  - discriminate.
  - exists e1, e2, q. split; [exact Hinit|]. split; [exact Hrender|].
    exact (proj1 (Hinst 0%nat 0%nat red_splat eq_refl)).
Defined.

Lemma frame_runs_vertex_shader_witness :
  exists (e1 e2 : Env) (out : Glsl.VertexOut),
    @init accepting_driver 800 600 (mkEnv Renderer_new world_initial) = Ok tt e1
    /\ @render_scene accepting_driver (mkScene [red_splat]) mat4_identity mat4_identity e1
       = Ok tt e2
    /\ run_vertex_shader (gl (world e2)) 0 0 = Some out
    /\ Glsl.vColor out = (Vec3 1 0 0)%R
    /\ Glsl.vOpacity out = 1%R.
Proof.
  destruct (@frame_runs_vertex_shader accepting_driver 800 600 (mkScene [red_splat])
              mat4_identity mat4_identity (mkEnv Renderer_new world_initial))
    as (e1 & e2 & Hinit & Hrender & Hrun).
  - by exists "", "", "".
  - apply owns_objects_new.
  - discriminate.
  - destruct (Hrun 0%nat 0%nat red_splat ltac:(lia) eq_refl)
      as (corner & out & _ & Hout & _ & _ & Hcolor & Hopacity).
    exists e1, e2, out. split; [exact Hinit|]. split; [exact Hrender|].
    split; [exact Hout|]. split; [exact Hcolor | exact Hopacity].
Defined.

(** One splat, one draw call of one instance. *)
Lemma render_scene_draws_once_witness :
  exists e' : Env,
    @render_scene accepting_driver (mkScene [red_splat]) mat4_identity mat4_identity
                  (mkEnv renderer_ready world_initial) = Ok tt e'
    /\ draw_calls (world e') = [1%Z].
Proof.
  destruct (@render_scene_draws_once accepting_driver (mkScene [red_splat]) mat4_identity
              mat4_identity (mkEnv renderer_ready world_initial))
    as (e' & Hrun & _ & Hsmall).
  - discriminate.
  - split; by eexists.
  - exists e'. split; [exact Hrun|]. apply Hsmall. cbn. lia.
Defined.

(** ** The aspect ratio and the scene container *)

Section MiscFacts.
Open Scope R_scope.


(** X25.  Adding a Gaussian to a scene adds one record at the end of what
    [render_scene] packs, and sixteen floats at the end of what it
    uploads; what was packed before stays where it was. *)
Theorem add_gaussian_packs {F : Type} (zero : F) (s : Scene F) (g : Gaussian3D F) :
  gaussian_count (add_gaussian s g) = Datatypes.S (gaussian_count s)
  /\ pack_instances zero (get_gaussians (add_gaussian s g))
     = pack_instances zero (get_gaussians s) ++ [pack_instance zero g]
  /\ floats_of_instances (pack_instances zero (get_gaussians (add_gaussian s g)))
     = floats_of_instances (pack_instances zero (get_gaussians s))
       ++ floats_of_instance (pack_instance zero g)
  /\ gaussian_count (clear s) = 0%nat
  /\ pack_instances zero (get_gaussians (clear s)) = [].
Proof.
  unfold gaussian_count, get_gaussians, add_gaussian, clear. cbn [m_gaussians].
  split; [rewrite length_app; cbn; lia|].
  assert (pack_instances zero (m_gaussians s ++ [g])
          = pack_instances zero (m_gaussians s) ++ [pack_instance zero g]) as Hpack.
  { by rewrite !pack_instances_map, map_app. }
  split; [exact Hpack|]. split; [|done].
  rewrite Hpack. unfold floats_of_instances. rewrite map_app, concat_app.
  f_equal.
Qed.

End MiscFacts.

